(** * Gateway configuration utilities: src/config/utils.ts

    A shallow embedding of the configuration helpers of the gateway (the
    slippage validator and normalizer, the token-list operations and the
    default-pool registry), together with the properties that the
    specification of the gateway states about them.

    Modelling conventions.
    - A JavaScript [number] is a rational, an infinity or NaN: the code only
      compares numbers with [0.0] and [1.0] and copies them around, and
      comparison of finite doubles is comparison of the values they denote.
    - A JavaScript string is a [string] of ASCII characters; case mapping
      changes the letters a-z / A-Z and nothing else.
    - Exceptions are values: a computation returns [Ok] or [Throw], and the
      [try]/[catch] blocks of the source are written with [try_catch].
    - The singleton ConfigManagerV2, the file system seen through fs-extra
      and the logger are the three components of the explicit [World]; one
      operation runs at a time.
    - The validation layer is written against the interface of the helpers
      it imports ([StringHelpers]); the token-list operations take JSON and
      the chain client as parameters.  The class ConfigManagerV2 and the
      helpers are not among the sources: their models follow the
      specification and say so.
    - Objects are association lists kept in the order [Object.keys]
      enumerates.  Inherited (prototype) properties are not modelled: a
      property lookup sees own properties only.
    - Beside utils.ts the development embeds the handlers of the token
      routes, the key pattern of the default-pool list of config/schemas.ts
      and the quote route of the Uniswap CLMM connector; the latter has a
      module of its own, [QuoteSwap], with its own log and collaborators. *)

From Stdlib Require Import Ascii QArith Qreduction DecimalString DecimalN.
From stdpp Require Import base option list strings gmap.

(** ** JavaScript numbers *)

Inductive number :=
  | NaN
  | Infinity (negative : bool)
  | Fin (q : Q).

(** [x >= y] and [x < y] of the source, on numbers. *)
Definition num_ge (x y : number) : bool :=
  match x, y with
  | NaN, _ | _, NaN => false
  | Infinity nx, Infinity ny => implb nx ny
  | Infinity nx, Fin _ => negb nx
  | Fin _, Infinity ny => ny
  | Fin a, Fin b => Qle_bool b a
  end.

Definition num_lt (x y : number) : bool :=
  match x, y with
  | NaN, _ | _, NaN => false
  | Infinity nx, Infinity ny => nx && negb ny
  | Infinity nx, Fin _ => nx
  | Fin _, Infinity ny => negb ny
  | Fin a, Fin b => negb (Qle_bool b a)
  end.

Definition num_zero : number := Fin 0.
Definition num_one : number := Fin 1.
Definition num_of_nat (n : nat) : number := Fin (inject_Z (Z.of_nat n)).

(** ** JavaScript strings *)

Module Js.

Definition is_upper (c : ascii) : bool :=
  let n := nat_of_ascii c in (65 <=? n)%nat && (n <=? 90)%nat.
Definition is_lower (c : ascii) : bool :=
  let n := nat_of_ascii c in (97 <=? n)%nat && (n <=? 122)%nat.
Definition is_digit (c : ascii) : bool :=
  let n := nat_of_ascii c in (48 <=? n)%nat && (n <=? 57)%nat.

Definition lower_char (c : ascii) : ascii :=
  if is_upper c then ascii_of_nat (nat_of_ascii c + 32) else c.
Definition upper_char (c : ascii) : ascii :=
  if is_lower c then ascii_of_nat (nat_of_ascii c - 32) else c.

Fixpoint map_chars (f : ascii -> ascii) (s : string) : string :=
  match s with
  | EmptyString => EmptyString
  | String c s' => String (f c) (map_chars f s')
  end.

(** [s.toLowerCase()] and [s.toUpperCase()], as they are on ASCII strings.
    The engine also maps letters outside ASCII, which these leave alone: a
    statement on what two strings have in common up to case is one of the
    code for ASCII strings. *)
Definition toLowerCase : string -> string := map_chars lower_char.
Definition toUpperCase : string -> string := map_chars upper_char.

(** [s.endsWith(suffix)]. *)
Definition endsWith (s suffix : string) : bool :=
  let n := String.length s in
  let m := String.length suffix in
  (m <=? n)%nat && String.eqb (String.substring (n - m) m s) suffix.

(** [s.split(sep)] for a one-character separator: never the empty list,
    and [''.split(sep)] is [['']]. *)
Fixpoint split (sep : ascii) (s : string) : list string :=
  match s with
  | EmptyString => [EmptyString]
  | String c s' =>
      if Ascii.eqb c sep then EmptyString :: split sep s'
      else match split sep s' with
           | [] => [String c EmptyString]
           | h :: t => String c h :: t
           end
  end.

(** [xs.join(sep)]. *)
Fixpoint join (sep : string) (xs : list string) : string :=
  match xs with
  | [] => ""
  | [x] => x
  | x :: rest => x +:+ sep +:+ join sep rest
  end.

(** [xs.includes(x)] on an array of strings. *)
Definition includes (x : string) (xs : list string) : bool :=
  existsb (String.eqb x) xs.

Fixpoint all_chars (p : ascii -> bool) (s : string) : bool :=
  match s with
  | EmptyString => true
  | String c s' => p c && all_chars p s'
  end.

Definition nonempty (s : string) : bool :=
  match s with EmptyString => false | _ => true end.

(** Decimal text of a natural number, as [String(n)] prints an index. *)
Definition show_N (n : N) : string := NilEmpty.string_of_uint (N.to_uint n).
Definition show_Z (z : Z) : string :=
  match z with
  | Zneg p => String "-" (show_N (Npos p))
  | _ => show_N (Z.to_N z)
  end.

(** Value of a string of decimal digits. *)
Definition read_N (s : string) : option N :=
  if nonempty s then option_map N.of_uint (NilEmpty.uint_of_string s) else None.

End Js.

(** ** Values of type [any] *)

(** A JSON-like value: what a request body field or a node of a
    configuration tree holds.  The fields of an object keep their insertion
    order, which is the order [Object.keys] enumerates. *)
#[warnings="-register-all"]
Inductive value :=
  | VNull
  | VBool (b : bool)
  | VNum (n : number)
  | VStr (s : string)
  | VArr (items : list value)
  | VObj (fields : list (string * value)).

(** JavaScript truthiness, as [!x] and [x || y] test it. *)
Definition truthy (v : value) : bool :=
  match v with
  | VNull => false
  | VBool b => b
  | VNum NaN => false
  | VNum (Infinity _) => true
  | VNum (Fin q) => negb (Qeq_bool q 0)
  | VStr s => Js.nonempty s
  | VArr _ | VObj _ => true
  end.

(** Truthiness of a possibly [undefined] value. *)
Definition truthy_opt (o : option value) : bool :=
  match o with Some v => truthy v | None => false end.

(** ** Errors *)

(** What a [throw] carries: an error made by [fastify.httpErrors], which has
    a [statusCode], or a plain [Error], which has none. *)
Inductive exn :=
  | HttpError (statusCode : nat) (message : string)
  | PlainError (message : string).

Definition badRequest : string -> exn := HttpError 400.
Definition notFound : string -> exn := HttpError 404.
Definition conflict : string -> exn := HttpError 409.
Definition internalServerError : string -> exn := HttpError 500.

Definition exn_message (e : exn) : string :=
  match e with HttpError _ m | PlainError m => m end.

Definition exn_statusCode (e : exn) : option nat :=
  match e with HttpError c _ => Some c | PlainError _ => None end.

(** Outcome of a call.  [OutOfModel] marks the one situation the embedding
    does not follow: a configuration value of the wrong type handed to the
    file-system API. *)
Inductive result (A : Type) :=
  | Ok (a : A)
  | Throw (e : exn)
  | OutOfModel.
Arguments Ok {A} a.
Arguments Throw {A} e.
Arguments OutOfModel {A}.

(** ** services/string-utils and services/base *)

Module StringUtils.

(** Modelled from the spec: the lexical helpers of services/string-utils
    are not part of the sources at hand.  A "numeric string" is an
    optionally negative decimal numeral with an optional fractional part;
    a "fraction string" is [a/b] with an integer numeral [a] and a natural
    numeral [b]. *)
Definition isNaturalNumberString (s : string) : bool :=
  Js.nonempty s && Js.all_chars Js.is_digit s.

(** Splits a leading minus sign off a numeral. *)
Definition unsign (s : string) : bool * string :=
  match s with
  | String "-"%char s' => (true, s')
  | _ => (false, s)
  end.

Definition isIntegerString (s : string) : bool :=
  isNaturalNumberString (snd (unsign s)).

(** Modelled from the spec: [isFloatString] of services/string-utils, the
    test for a "numeric string". *)
Definition isFloatString (s : string) : bool :=
  match Js.split "."%char s with
  | [i] => isIntegerString i
  | [i; f] => isIntegerString i && isNaturalNumberString f
  | _ => false
  end.

(** Modelled from the spec: [isFractionString] of services/string-utils,
    the test for a fraction string ["a/b"]. *)
Definition isFractionString (s : string) : bool :=
  match Js.split "/"%char s with
  | [a; b] => isIntegerString a && isNaturalNumberString b
  | _ => false
  end.

(** Value of an integer numeral. *)
Definition read_Z (s : string) : option Z :=
  let '(neg, digits) := unsign s in
  option_map (fun n => if neg then Z.opp (Z.of_N n) else Z.of_N n)
             (Js.read_N digits).

(** [10 ^ k]. *)
Fixpoint pow10 (k : nat) : positive :=
  match k with O => 1%positive | S k' => (10 * pow10 k')%positive end.

(** The built-in [parseFloat], on the strings [isFloatString] admits (the
    only ones the source passes to it); [NaN] on the others.  The value is
    the exact decimal one, where the engine rounds to the nearest double:
    the two differ on numerals of more digits than a double holds. *)
Definition parseFloat (s : string) : number :=
  let mk (i f : string) (k : nat) :=
    let '(neg, digits) := unsign i in
    match Js.read_N digits, (if k is O then Some 0%N else Js.read_N f) with
    | Some ip, Some fp =>
        let m := Z.of_N (ip * Npos (pow10 k) + fp) in
        Fin ((if neg then Z.opp m else m) # pow10 k)
    | _, _ => NaN
    end in
  match Js.split "."%char s with
  | [i] => mk i "" O
  | [i; f] => mk i f (String.length f)
  | _ => NaN
  end.

(** Modelled from the spec: [fromFractionString] of services/base, the
    value of a fraction string ["a/b"] with [b ≠ 0], and [null] for
    anything else. *)
Definition fromFractionString (s : string) : option number :=
  if isFractionString s then
    match Js.split "/"%char s with
    | [a; b] =>
        match read_Z a, Js.read_N b with
        | Some n, Some (Npos d) => Some (Fin (n # d))
        | _, _ => None
        end
    | _ => None
    end
  else None.

(** The reduced fraction ["n/d"] denoting [q]. *)
Definition fraction_text (q : Q) : string :=
  let r := Qred q in
  Js.show_Z (Qnum r) +:+ "/" +:+ Js.show_N (Npos (Qden r)).

(** Modelled from the spec: [toFractionString] of services/base.  A
    number or a numeric string becomes the reduced fraction string of its
    value ([0.005] becomes ["1/200"]), a fraction string is returned as it
    is, and anything else gives [null]. *)
Definition toFractionString (v : string + number) : option string :=
  match v with
  | inr (Fin q) => Some (fraction_text q)
  | inr _ => None
  | inl s =>
      if isFloatString s then
        match parseFloat s with
        | Fin q => Some (fraction_text q)
        | _ => None
        end
      else if isFractionString s then Some s
      else None
  end.

End StringUtils.

(** ** The helpers that config/utils.ts imports *)

(** [isFloatString] and [isFractionString] of services/string-utils,
    [fromFractionString] and [toFractionString] of services/base, and the
    built-in [parseFloat]: the validation layer is written against this
    interface.  [fromFractionString] returns [null] ([None]) for a string of
    which it makes no number. *)
Class StringHelpers := {
  isFloatString : string -> bool;
  isFractionString : string -> bool;
  parseFloat : string -> number;
  fromFractionString : string -> option number;
  toFractionString : string + number -> option string;
}.

(** The helpers as the specification describes them. *)
#[export] Instance specHelpers : StringHelpers := {|
  isFloatString := StringUtils.isFloatString;
  isFractionString := StringUtils.isFractionString;
  parseFloat := StringUtils.parseFloat;
  fromFractionString := StringUtils.fromFractionString;
  toFractionString := StringUtils.toFractionString;
|}.

(** ** config/utils.ts: the validation layer *)

Definition invalidAllowedSlippage : string :=
  "allowedSlippage should be a number between 0.0 and 1.0 or a string of a fraction.".

(** The request body of a configuration update. *)
Record ConfigUpdateRequest := {
  configPath : string;
  configValue : value;
}.

Section Validation.

Context {helpers : StringHelpers}.

(** [isAllowedPercentage]: only percentages from 0.0 (inclusive) to less
    than 1.0. *)
Definition isAllowedPercentage (val : string + number) : bool :=
  match val with
  | inl s =>
      if isFloatString s then
        let num := parseFloat s in
        num_ge num num_zero && num_lt num num_one
      else
        match fromFractionString s with
        | Some num => num_ge num num_zero && num_lt num num_one
        | None => false
        end
  | inr n => num_ge n num_zero && num_lt n num_one
  end.

(** The condition whose negation makes [validateAllowedSlippage] throw. *)
Definition slippageAccepted (configValue : value) : bool :=
  match configValue with
  | VNum n => isAllowedPercentage (inr n)
  | VStr s => (isFractionString s || isFloatString s) && isAllowedPercentage (inl s)
  | _ => false
  end.

Definition validateAllowedSlippage (configPath : string) (configValue : value)
  : result unit :=
  if Js.endsWith configPath "allowedSlippage" then
    if negb (slippageAccepted configValue)
    then Throw (badRequest invalidAllowedSlippage)
    else Ok tt
  else Ok tt.

(** [updateAllowedSlippageToFraction] assigns to [body.configValue]; the
    embedding returns the updated body. *)
Definition updateAllowedSlippageToFraction (body : ConfigUpdateRequest)
  : ConfigUpdateRequest :=
  let assign (r : option string) :=
    {| configPath := configPath body;
       configValue := match r with Some s => VStr s | None => VNull end |} in
  if Js.endsWith (configPath body) "allowedSlippage" then
    match configValue body with
    | VNum n => assign (toFractionString (inr n))
    | VStr s => if negb (isFractionString s) then assign (toFractionString (inl s))
                else body
    | _ => body
    end
  else body.

(** *** Specification-side predicates of the validation layer *)

(** The half-open interval [0, 1) of the specification. *)
Definition unit_interval (n : number) : Prop :=
  exists q, n = Fin q /\ (0 <= q)%Q /\ (q < 1)%Q.

(** The inputs the specification lets the percentage validator accept: a
    plain number in [0, 1), a numeric string whose parsed value is in
    [0, 1), or a fraction string that has a value ([a/b] with [b ≠ 0]) in
    [0, 1). *)
Inductive AllowedSlippage : value -> Prop :=
  | allowed_number n :
      unit_interval n -> AllowedSlippage (VNum n)
  | allowed_numeric_string s :
      isFloatString s = true -> unit_interval (parseFloat s) ->
      AllowedSlippage (VStr s)
  | allowed_fraction_string s n :
      isFractionString s = true -> fromFractionString s = Some n ->
      unit_interval n ->
      AllowedSlippage (VStr s).

(** A number, or a numeric string that is not a fraction string. *)
Definition plainNumeric (v : value) : bool :=
  match v with
  | VNum _ => true
  | VStr s => isFloatString s && negb (isFractionString s)
  | _ => false
  end.

(** The number that the validator compares with the bounds. *)
Definition slippageValue (v : value) : option number :=
  match v with
  | VNum n => Some n
  | VStr s => if isFloatString s then Some (parseFloat s) else fromFractionString s
  | _ => None
  end.

End Validation.

(** Character classes used to tell numerals and separators apart. *)
Definition is_not (sep : ascii) (c : ascii) : bool := negb (Ascii.eqb c sep).
Definition numeral_char (c : ascii) : bool :=
  Js.is_digit c || Ascii.eqb c "-" || Ascii.eqb c ".".

(** ** services/config-manager-v2 *)

Module ConfigManagerV2.

(** Own-property lookup [obj[k]] in the fields of an object. *)
Fixpoint assoc {A} (k : string) (fs : list (string * A)) : option A :=
  match fs with
  | [] => None
  | (k', v) :: rest => if String.eqb k k' then Some v else assoc k rest
  end.

(** [obj[k] = v]: an existing key keeps its place, a new one goes last. *)
Fixpoint put {A} (k : string) (v : A) (fs : list (string * A))
  : list (string * A) :=
  match fs with
  | [] => [(k, v)]
  | (k', v') :: rest =>
      if String.eqb k k' then (k, v) :: rest else (k', v') :: put k v rest
  end.

(** [delete obj[k]]. *)
Fixpoint remove {A} (k : string) (fs : list (string * A))
  : list (string * A) :=
  match fs with
  | [] => []
  | (k', v') :: rest =>
      if String.eqb k k' then remove k rest else (k', v') :: remove k rest
  end.

(** A configuration tree: the fields of the root object of a namespace. *)
Definition tree : Type := list (string * value).

(** The store: one configuration tree per namespace. *)
Definition store : Type := list (string * tree).

Inductive pathError := InvalidPath | TypeMismatch.

Definition pathError_message (e : pathError) : string :=
  match e with InvalidPath => "InvalidPath" | TypeMismatch => "TypeMismatch" end.

(** Walks the segments down from a node; only objects are containers. *)
Fixpoint walk (segs : list string) (node : value) : option value :=
  match segs with
  | [] => Some node
  | k :: rest =>
      match node with
      | VObj fs =>
          match assoc k fs with
          | Some child => walk rest child
          | None => None
          end
      | _ => None
      end
  end.

(** Modelled from the spec: the Path Resolver in READ mode (the class
    ConfigManagerV2 is not part of the sources at hand).  It returns the
    terminal value, or absent when an intermediate segment is missing or
    is not a container; the empty path fails with [InvalidPath]. *)
Definition resolve_read (segs : list string) (t : tree)
  : pathError + option value :=
  match segs with
  | [] => inl InvalidPath
  | _ => inr (walk segs (VObj t))
  end.

Inductive writeOp := SetValue (v : value) | RemoveValue.

(** Modelled from the spec: the Path Resolver in WRITE mode.  Missing
    intermediate segments become empty objects, an intermediate scalar or
    array fails with [TypeMismatch], and the terminal segment is set or
    removed; the empty path fails with [InvalidPath]. *)
Fixpoint resolve_write (op : writeOp) (segs : list string) (t : tree)
  : pathError + tree :=
  match segs with
  | [] => inl InvalidPath
  | k :: rest =>
      match rest with
      | [] =>
          inr (match op with
               | SetValue v => put k v t
               | RemoveValue => remove k t
               end)
      | _ =>
          let descend (child : tree) :=
            match resolve_write op rest child with
            | inl e => inl e
            | inr child' => inr (put k (VObj child') t)
            end in
          match assoc k t with
          | None => descend []
          | Some (VObj child) => descend child
          | Some _ => inl TypeMismatch
          end
      end
  end.

(** Modelled from the spec: [getNamespace(name)], the tree of a namespace
    or absent. *)
Definition getNamespace (name : string) (st : store) : option tree :=
  assoc name st.

(** Modelled from the spec: [get(path)].  The first segment locates the
    namespace, the remainder goes to the resolver; an unknown namespace or
    path is absent, not an error. *)
Definition get (path : string) (st : store) : pathError + option value :=
  match Js.split "." path with
  | [] => inl InvalidPath
  | ns :: rest =>
      match assoc ns st with
      | None => inr None
      | Some t => resolve_read rest t
      end
  end.

(** Modelled from the spec: [set(path, value)].  The namespace of the
    first segment is located or created, and the remainder is written by
    the resolver.  Persisting the tree is taken to succeed. *)
Definition set (path : string) (v : value) (st : store) : pathError + store :=
  match Js.split "." path with
  | [] => inl InvalidPath
  | ns :: rest =>
      match resolve_write (SetValue v) rest (default [] (assoc ns st)) with
      | inl e => inl e
      | inr t' => inr (put ns t' st)
      end
  end.

(** Modelled from the spec: [delete(path)].  Same discipline as [set];
    nothing happens, and no error is raised, when the path is already
    absent. *)
Definition delete (path : string) (st : store) : pathError + store :=
  match Js.split "." path with
  | [] => inl InvalidPath
  | ns :: rest =>
      match assoc ns st with
      | None => inr st
      | Some t =>
          match resolve_read rest t with
          | inl e => inl e
          | inr None => inr st
          | inr (Some _) =>
              match resolve_write RemoveValue rest t with
              | inl e => inl e
              | inr t' => inr (put ns t' st)
              end
          end
      end
  end.

End ConfigManagerV2.

(** ** Own properties of arbitrary values *)

(** The index a property key denotes in an array or string of length [len]. *)
Definition index_of_key (k : string) (len : nat) : option nat :=
  find (fun i => String.eqb (Js.show_N (N.of_nat i)) k) (seq 0 len).

(** [v[k]] for a value [v] that is neither [null] nor [undefined], through
    the properties of [v] itself.  For a key that only the prototype of an
    object defines ([constructor], [toString], ...) the engine finds the
    inherited member where this gives [undefined]. *)
Definition ownProperty (v : value) (k : string) : option value :=
  match v with
  | VObj fs => ConfigManagerV2.assoc k fs
  | VArr items =>
      if String.eqb k "length" then Some (VNum (num_of_nat (length items)))
      else match index_of_key k (length items) with
           | Some i => items !! i
           | None => None
           end
  | VStr s =>
      if String.eqb k "length" then Some (VNum (num_of_nat (String.length s)))
      else match index_of_key k (String.length s) with
           | Some i => option_map (fun c => VStr (String c "")) (String.get i s)
           | None => None
           end
  | _ => None
  end.

(** [Object.keys(v)].  The fields of an object are kept in the order in
    which JavaScript enumerates them. *)
Definition objectKeys (v : value) : list string :=
  let indices (len : nat) := map (fun i => Js.show_N (N.of_nat i)) (seq 0 len) in
  match v with
  | VObj fs => map fst fs
  | VArr items => indices (length items)
  | VStr s => indices (String.length s)
  | _ => []
  end.

(** [o || {}] for a possibly [undefined] value. *)
Definition or_empty_object (o : option value) : value :=
  match o with
  | Some v => if truthy v then v else VObj []
  | None => VObj []
  end.

(** ** The world and its effects *)

Inductive logLevel := LogInfo | LogError.

Record World := {
  config : ConfigManagerV2.store;
  files : gmap string string;
  logs : list (logLevel * string);
}.

(** A computation reads and changes the world and ends in a [result]. *)
Definition M (A : Type) : Type := World -> result A * World.

Definition ret {A} (a : A) : M A := fun w => (Ok a, w).
Definition throw {A} (e : exn) : M A := fun w => (Throw e, w).
Definition out_of_model {A} : M A := fun w => (OutOfModel, w).

Definition bind {A B} (m : M A) (k : A -> M B) : M B :=
  fun w =>
    match m w with
    | (Ok a, w') => k a w'
    | (Throw e, w') => (Throw e, w')
    | (OutOfModel, w') => (OutOfModel, w')
    end.

(** [try { body } catch (error) { handler }]. *)
Definition try_catch {A} (body : M A) (handler : exn -> M A) : M A :=
  fun w =>
    match body w with
    | (Throw e, w') => handler e w'
    | r => r
    end.

Notation "'let*' x ':=' m 'in' k" := (bind m (fun x => k))
  (at level 10, x pattern, m at level 100, k at level 200, only parsing).
Notation "m ';;' k" := (bind m (fun _ => k))
  (at level 100, k at level 200, right associativity, only parsing).

Definition logger (lvl : logLevel) (msg : string) : M unit :=
  fun w => (Ok tt, {| config := config w; files := files w;
                      logs := logs w ++ [(lvl, msg)] |}).

(** [ConfigManagerV2.getInstance().get(path)]. *)
Definition config_get (path : string) : M (option value) :=
  fun w =>
    match ConfigManagerV2.get path (config w) with
    | inl e => (Throw (PlainError (ConfigManagerV2.pathError_message e)), w)
    | inr o => (Ok o, w)
    end.

Definition config_update (f : ConfigManagerV2.store ->
                              ConfigManagerV2.pathError + ConfigManagerV2.store)
  : M unit :=
  fun w =>
    match f (config w) with
    | inl e => (Throw (PlainError (ConfigManagerV2.pathError_message e)), w)
    | inr st => (Ok tt, {| config := st; files := files w; logs := logs w |})
    end.

(** [ConfigManagerV2.getInstance().set(path, value)] and [.delete(path)].
    The store keeps each namespace in durable storage of its own, which is
    not among the [files] of the world (the files that utils.ts reaches
    through fs-extra), and persisting is taken to succeed: what is claimed
    of a [set] or a [delete] that took place is about the configuration,
    not about the files. *)
Definition config_set (path : string) (v : value) : M unit :=
  config_update (ConfigManagerV2.set path v).
Definition config_delete (path : string) : M unit :=
  config_update (ConfigManagerV2.delete path).

(** [ConfigManagerV2.getInstance().getNamespace(name)?.configuration]. *)
Definition config_namespace (name : string) : M (option value) :=
  fun w => (Ok (option_map VObj (ConfigManagerV2.getNamespace name (config w))), w).

(** [fse.pathExists], [fse.readFile(path, 'utf8')] and [fse.writeFile].  A
    file that exists can be read, and a write succeeds: a file system that
    refuses a read or a write is outside the embedding. *)
Definition pathExists (path : string) : M bool :=
  fun w => (Ok (bool_decide (is_Some (files w !! path))), w).

Definition readFile (path : string) : M string :=
  fun w =>
    match files w !! path with
    | Some content => (Ok content, w)
    | None => (Throw (PlainError ("ENOENT: no such file or directory, open '"
                                   +:+ path +:+ "'")), w)
    end.

Definition writeFile (path content : string) : M unit :=
  fun w => (Ok tt, {| config := config w; files := <[path := content]> (files w);
                      logs := logs w |}).

(** ** config/utils.ts: the token-list operations *)

(** [TokenInfo] of chains/ethereum.  The fields live in a module of their
    own, as the functions below have parameters of the same names. *)
Module Token.
Record TokenInfo := {
  chainId : number;
  address : string;
  name : string;
  symbol : string;
  decimals : number;
}.
End Token.
Abbreviation TokenInfo := Token.TokenInfo.

(** What the code uses of an [Ethereum] instance. *)
Record Ethereum := {
  ethereum_chainId : number;
  tokenListType : string;
}.

(** The end of both [catch] blocks: [if (error.statusCode) throw error;]
    and, for the rest, an internal-server error that wraps the message. *)
Definition statusCode_or_wrap (wrap : string) (error : exn) : M unit :=
  match exn_statusCode error with
  | Some _ => throw error
  | None => throw (internalServerError (wrap +:+ exn_message error))
  end.

Section TokenList.

(** The collaborators: the built-in JSON and the chain client of
    chains/ethereum, which is not part of the sources at hand.  [JSON_parse]
    gives the token list a file content denotes, or the message of the error
    it raises; [JSON_stringify l] is [JSON.stringify(l, null, 2)];
    [Ethereum_getInstance] gives the chain client of a network or the
    message of its failure; [loadTokens] gives the message of the error of
    a failed reload, and [None] when it succeeds.  The collaborators fail
    with plain errors: one that throws an error with a status code, which
    the [catch] blocks would pass on as it is, is outside the embedding. *)
Variable JSON_parse : string -> string + list TokenInfo.
Variable JSON_stringify : list TokenInfo -> string.
Variable Ethereum_getInstance : string -> string + Ethereum.
Variable loadTokens :
  Ethereum -> string -> string -> gmap string string -> option string.

Definition json_parse (fileContent : string) : M (list TokenInfo) :=
  match JSON_parse fileContent with
  | inl msg => throw (PlainError msg)
  | inr l => ret l
  end.

Definition ethereum_getInstance (network : string) : M Ethereum :=
  match Ethereum_getInstance network with
  | inl msg => throw (PlainError msg)
  | inr e => ret e
  end.

Definition ethereum_loadTokens (ethereum : Ethereum) (path : string) : M unit :=
  fun w =>
    match loadTokens ethereum path (tokenListType ethereum) (files w) with
    | Some msg => (Throw (PlainError msg), w)
    | None => (Ok tt, w)
    end.

Definition unsupportedNetwork (network : string) (availableNetworks : list string)
  : string :=
  "Network '" +:+ network
    +:+ "' is not a supported Ethereum-based network. Supported networks are: "
    +:+ Js.join ", " availableNetworks.

Definition addDefaultToken
    (chain network name symbol address : string) (decimals : number) : M unit :=
  (* All EVM-compatible networks are configured under the 'ethereum' namespace. *)
  let configChainName := "ethereum" in
  let* networks := config_get (configChainName +:+ ".networks") in
  let availableNetworks := objectKeys (or_empty_object networks) in
  if negb (Js.includes network availableNetworks) then
    throw (badRequest (unsupportedNetwork network availableNetworks))
  else
    let* tokenListSourcePath :=
      config_get (configChainName +:+ ".networks." +:+ network
                    +:+ ".tokenListSource") in
    if negb (truthy_opt tokenListSourcePath) then
      throw (internalServerError
               ("tokenListSource not configured for network '" +:+ network +:+ "'."))
    else
      match tokenListSourcePath with
      | Some (VStr tokenListSourcePath) =>
          try_catch
            (let* present := pathExists tokenListSourcePath in
             let* tokenList :=
               (if (present : bool) then
                  let* fileContent := readFile tokenListSourcePath in
                  json_parse fileContent
                else ret []) in
             let normalizedAddress := Js.toLowerCase address in
             let normalizedSymbol := Js.toUpperCase symbol in
             let existingToken :=
               find (fun t =>
                       String.eqb (Js.toLowerCase (Token.address t)) normalizedAddress
                       || String.eqb (Js.toUpperCase (Token.symbol t)) normalizedSymbol)
                    tokenList in
             match existingToken with
             | Some _ =>
                 throw (conflict ("Token with address " +:+ address
                                    +:+ " or symbol " +:+ symbol
                                    +:+ " already exists."))
             | None =>
                 let* ethereum := ethereum_getInstance network in
                 let chainId := ethereum_chainId ethereum in
                 let newToken :=
                   {| Token.chainId := chainId; Token.address := address;
                      Token.name := name; Token.symbol := symbol;
                      Token.decimals := decimals |} in
                 let tokenList := tokenList ++ [newToken] in
                 writeFile tokenListSourcePath (JSON_stringify tokenList) ;;
                 ethereum_loadTokens ethereum tokenListSourcePath ;;
                 logger LogInfo ("Added token " +:+ symbol +:+ " (" +:+ address
                                +:+ ") to " +:+ chain +:+ "/" +:+ network +:+ ".")
             end)
            (fun error =>
               logger LogError ("Failed to add default token: " +:+ exn_message error) ;;
               statusCode_or_wrap "Failed to add token: " error)
      | _ => out_of_model
      end.

Definition removeDefaultToken (chain network tokenToRemove : string) : M unit :=
  (* All EVM-compatible networks are configured under the 'ethereum' namespace. *)
  let configChainName := "ethereum" in
  let* networks := config_get (configChainName +:+ ".networks") in
  let availableNetworks := objectKeys (or_empty_object networks) in
  if negb (Js.includes network availableNetworks) then
    throw (badRequest (unsupportedNetwork network availableNetworks))
  else
    let* tokenListSourcePath :=
      config_get (configChainName +:+ ".networks." +:+ network
                    +:+ ".tokenListSource") in
    let notFoundMessage :=
      "tokenListSource not configured or found for network '" +:+ network +:+ "'." in
    if negb (truthy_opt tokenListSourcePath) then
      throw (internalServerError notFoundMessage)
    else
      match tokenListSourcePath with
      | Some (VStr tokenListSourcePath) =>
          let* present := pathExists tokenListSourcePath in
          if negb present then throw (internalServerError notFoundMessage)
          else
            try_catch
              (let* fileContent := readFile tokenListSourcePath in
               let* tokenList := json_parse fileContent in
               let normalizedTokenToRemove := Js.toLowerCase tokenToRemove in
               let initialLength := length tokenList in
               let updatedTokenList :=
                 List.filter
                   (fun t =>
                      negb (String.eqb (Js.toLowerCase (Token.address t))
                                       normalizedTokenToRemove)
                      && negb (String.eqb (Js.toLowerCase (Token.symbol t))
                                          normalizedTokenToRemove))
                   tokenList in
               if (length updatedTokenList =? initialLength)%nat then
                 throw (notFound ("Token " +:+ tokenToRemove
                                    +:+ " not found in the list."))
               else
                 writeFile tokenListSourcePath (JSON_stringify updatedTokenList) ;;
                 let* ethereum := ethereum_getInstance network in
                 ethereum_loadTokens ethereum tokenListSourcePath ;;
                 logger LogInfo ("Removed token " +:+ tokenToRemove +:+ " from "
                                +:+ chain +:+ "/" +:+ network +:+ "."))
              (fun error =>
                 logger LogError ("Failed to remove default token: "
                               +:+ exn_message error) ;;
                 statusCode_or_wrap "Failed to remove token: " error)
      | _ => out_of_model
      end.

End TokenList.

(** ** config/utils.ts: the default-pool registry *)

(** [String(error)] for the plain errors the pool functions log. *)
Definition exn_toString (error : exn) : string := "Error: " +:+ exn_message error.

(** The lines the three pool functions share word for word:
    [let activeNetwork = 'mainnet-beta'; if (!networks[activeNetwork])
    activeNetwork = activeNetworks[0];], with [first] for [activeNetworks[0]]. *)
Definition selectActiveNetwork (networks : value) (first : string) : string :=
  let activeNetwork := "mainnet-beta" in
  if negb (truthy_opt (ownProperty networks activeNetwork)) then first
  else activeNetwork.

(** [connectorConfig.networks] when [connectorConfig] and it are truthy. *)
Definition configuredNetworks (connectorConfig : option value) : option value :=
  match connectorConfig with
  | Some c =>
      match ownProperty c "networks" with
      | Some networks => if truthy networks then Some networks else None
      | None => None
      end
  | None => None
  end.

Definition getDefaultPools (connector : string) : M value :=
  let parts := Js.split "/" connector in
  match parts !! 0%nat with
  | None | Some EmptyString => throw (badRequest "Connector name is required")
  | Some baseConnector =>
      match parts !! 1%nat with
      | None | Some EmptyString =>
          throw (badRequest "Connector type is required (e.g., amm, clmm)")
      | Some connectorType =>
          try_catch
            (let* connectorConfig := config_namespace baseConnector in
             match configuredNetworks connectorConfig with
             | None =>
                 logger LogError ("Connector " +:+ baseConnector
                               +:+ " configuration not found or missing networks") ;;
                 ret (VObj [])
             | Some networks =>
                 match objectKeys networks with
                 | [] => ret (VObj [])
                 | first :: _ =>
                     let activeNetwork := selectActiveNetwork networks first in
                     match ownProperty networks activeNetwork with
                     | None | Some VNull =>
                         throw (PlainError "Cannot read properties of null")
                     | Some node =>
                         let pools := or_empty_object (ownProperty node connectorType) in
                         logger LogInfo ("Retrieved default pools for " +:+ connector
                                        +:+ " on network " +:+ activeNetwork) ;;
                         ret pools
                     end
                 end
             end)
            (fun error =>
               logger LogError ("Failed to get default pools for " +:+ connector
                             +:+ ": " +:+ exn_toString error) ;;
               throw (internalServerError "Failed to get default pools"))
      end
  end.

Definition addDefaultPool
    (connector baseToken quoteToken : string) (poolAddress : option string)
  : M unit :=
  let pairKey := baseToken +:+ "-" +:+ quoteToken in
  match poolAddress with
  | None | Some EmptyString =>
      throw (badRequest "Pool address is required for adding a default pool")
  | Some poolAddress =>
      let parts := Js.split "/" connector in
      match parts !! 0%nat with
      | None | Some EmptyString => throw (badRequest "Connector name is required")
      | Some baseConnector =>
          match parts !! 1%nat with
          | None | Some EmptyString =>
              throw (badRequest "Connector type is required (e.g., amm, clmm)")
          | Some connectorType =>
              try_catch
                (let* connectorConfig := config_namespace baseConnector in
                 match configuredNetworks connectorConfig with
                 | None =>
                     throw (PlainError
                              ("Connector " +:+ baseConnector
                                 +:+ " configuration not found or missing networks"))
                 | Some networks =>
                     match objectKeys networks with
                     | [] =>
                         throw (PlainError
                                  ("No networks configured for " +:+ baseConnector))
                     | first :: _ =>
                         let activeNetwork := selectActiveNetwork networks first in
                         let configPath :=
                           baseConnector +:+ ".networks." +:+ activeNetwork +:+ "."
                             +:+ connectorType +:+ "." +:+ pairKey in
                         config_set configPath (VStr poolAddress) ;;
                         logger LogInfo ("Added default pool for " +:+ connector +:+ ": "
                                        +:+ pairKey +:+ " (address: " +:+ poolAddress
                                        +:+ ") on network " +:+ activeNetwork)
                     end
                 end)
                (fun error =>
                   logger LogError ("Failed to add default pool: " +:+ exn_toString error) ;;
                   throw (internalServerError
                            ("Failed to add default pool: " +:+ exn_message error)))
          end
      end
  end.

Definition removeDefaultPool (connector baseToken quoteToken : string) : M unit :=
  let pairKey := baseToken +:+ "-" +:+ quoteToken in
  let parts := Js.split "/" connector in
  match parts !! 0%nat with
  | None | Some EmptyString => throw (badRequest "Connector name is required")
  | Some baseConnector =>
      match parts !! 1%nat with
      | None | Some EmptyString =>
          throw (badRequest "Connector type is required (e.g., amm, clmm)")
      | Some connectorType =>
          try_catch
            (let* connectorConfig := config_namespace baseConnector in
             match configuredNetworks connectorConfig with
             | None =>
                 throw (PlainError
                          ("Connector " +:+ baseConnector
                             +:+ " configuration not found or missing networks"))
             | Some networks =>
                 match objectKeys networks with
                 | [] =>
                     throw (PlainError
                              ("No networks configured for " +:+ baseConnector))
                 | first :: _ =>
                     let activeNetwork := selectActiveNetwork networks first in
                     let configPath :=
                       baseConnector +:+ ".networks." +:+ activeNetwork +:+ "."
                         +:+ connectorType +:+ "." +:+ pairKey in
                     config_delete configPath ;;
                     logger LogInfo ("Removed default pool for " +:+ connector +:+ ": "
                                    +:+ pairKey +:+ " on network " +:+ activeNetwork)
                 end
             end)
            (fun error =>
               logger LogError ("Failed to remove default pool: " +:+ exn_toString error) ;;
               throw (internalServerError
                        ("Failed to remove default pool: " +:+ exn_message error)))
      end
  end.

(** ** Specification-side views of the configuration and the token list *)

(** The networks configured under a namespace: the keys of its [networks]
    entry. *)
Definition namespaceNetworks (chain : string) (st : ConfigManagerV2.store)
  : list string :=
  match ConfigManagerV2.get (chain +:+ ".networks") st with
  | inr networks => objectKeys (or_empty_object networks)
  | inl _ => []
  end.

Definition ethereumNetworks : ConfigManagerV2.store -> list string :=
  namespaceNetworks "ethereum".

(** The token-list file configured for an Ethereum network. *)
Definition tokenListSource (st : ConfigManagerV2.store) (network : string)
  : option string :=
  match ConfigManagerV2.get ("ethereum" +:+ ".networks." +:+ network
                               +:+ ".tokenListSource") st with
  | inr (Some (VStr path)) => if Js.nonempty path then Some path else None
  | _ => None
  end.

(** Equality of strings up to the case of their letters. *)
Definition same_nocase (a b : string) : Prop :=
  Js.toLowerCase a = Js.toLowerCase b.

(** A token entry is named by an identifier: its address or its symbol is
    the identifier, up to case. *)
Definition namedBy (identifier : string) (t : TokenInfo) : bool :=
  String.eqb (Js.toLowerCase (Token.address t)) (Js.toLowerCase identifier)
  || String.eqb (Js.toLowerCase (Token.symbol t)) (Js.toLowerCase identifier).

(** The uniqueness invariant of a token list: no two entries have the same
    address, or the same symbol, up to case. *)
Definition uniqueTokens (l : list TokenInfo) : Prop :=
  NoDup (map (fun t => Js.toLowerCase (Token.address t)) l)
  /\ NoDup (map (fun t => Js.toLowerCase (Token.symbol t)) l).

(** A number that is a non-negative integer. *)
Definition nonNegativeInteger (n : number) : Prop :=
  exists k : N, n = Fin (inject_Z (Z.of_N k)).

(** The two parts of a connector string ["name/type"]. *)
Definition connectorName (connector : string) : option string :=
  Js.split "/" connector !! 0%nat.
Definition connectorTypeOf (connector : string) : option string :=
  Js.split "/" connector !! 1%nat.

(** A request field that is omitted or empty. *)
Definition missing (field : option string) : Prop :=
  field = None \/ field = Some EmptyString.

(** The connector has no configured networks: its namespace is absent, or
    has no [networks] entry, or that entry has no key. *)
Definition noConfiguredNetworks (st : ConfigManagerV2.store) (name : string)
  : Prop :=
  match ConfigManagerV2.getNamespace name st with
  | None => True
  | Some t =>
      match ConfigManagerV2.assoc "networks" t with
      | None => True
      | Some networks => objectKeys networks = []
      end
  end.

(** A string without a dot: one segment of a configuration path. *)
Definition dotFree (s : string) : bool := Js.all_chars (is_not ".") s.

(** The names of the networks configured for a connector. *)
Definition connectorNetworks (st : ConfigManagerV2.store) (name : string)
  : list string :=
  match ConfigManagerV2.getNamespace name st with
  | Some t => objectKeys (or_empty_object (ConfigManagerV2.assoc "networks" t))
  | None => []
  end.

(** How the three pool functions resolve a connector name: the [networks]
    object of its namespace and the active network chosen in it. *)
Definition resolveActiveNetwork (st : ConfigManagerV2.store) (name : string)
  : option (value * string) :=
  match configuredNetworks
          (option_map VObj (ConfigManagerV2.getNamespace name st)) with
  | Some networks =>
      match objectKeys networks with
      | [] => None
      | first :: _ => Some (networks, selectActiveNetwork networks first)
      end
  | None => None
  end.

(** The configuration path of a default pool. *)
Definition poolPath (name activeNetwork connectorType baseToken quoteToken : string)
  : string :=
  name +:+ ".networks." +:+ activeNetwork +:+ "." +:+ connectorType +:+ "."
    +:+ (baseToken +:+ "-" +:+ quoteToken).

(** The connector already has a pool table for its type on its active
    network: the configuration has a value at [name.networks.<active>.<type>]. *)
Definition hasPoolTable (st : ConfigManagerV2.store) (connector : string) : Prop :=
  exists name type networks active v,
    connectorName connector = Some name
    /\ connectorTypeOf connector = Some type
    /\ resolveActiveNetwork st name = Some (networks, active)
    /\ ConfigManagerV2.get
         (name +:+ ".networks." +:+ active +:+ "." +:+ type) st
       = inr (Some v).

(** ** A concrete world, for the examples *)

Module Demo.

Definition json_number (n : number) : string :=
  match n with
  | Fin q => Js.show_Z (Qnum (Qred q))
  | _ => "null"
  end.

Definition nl : string := String (ascii_of_nat 10) "".

Definition quoted (s : string) : string :=
  let dq := String (ascii_of_nat 34) "" in dq +:+ s +:+ dq.

Definition json_field (key value : string) : string :=
  "    " +:+ quoted key +:+ ": " +:+ value.

Definition json_token (t : TokenInfo) : string :=
  "  {" +:+ nl
  +:+ json_field "chainId" (json_number (Token.chainId t)) +:+ "," +:+ nl
  +:+ json_field "address" (quoted (Token.address t)) +:+ "," +:+ nl
  +:+ json_field "name" (quoted (Token.name t)) +:+ "," +:+ nl
  +:+ json_field "symbol" (quoted (Token.symbol t)) +:+ "," +:+ nl
  +:+ json_field "decimals" (json_number (Token.decimals t)) +:+ nl
  +:+ "  }".

(** [JSON.stringify(list, null, 2)] on token lists with integer numbers
    and strings that need no escaping. *)
Definition JSON_stringify (l : list TokenInfo) : string :=
  match l with
  | [] => "[]"
  | _ => "[" +:+ nl +:+ Js.join ("," +:+ nl) (map json_token l) +:+ nl +:+ "]"
  end.

Definition usdc : TokenInfo :=
  {| Token.chainId := Fin 8453;
     Token.address := "0x833589fCD6eDb6E08f4c7C32D4f71b54bdA02913";
     Token.name := "USD Coin"; Token.symbol := "USDC";
     Token.decimals := Fin 6 |}.

Definition weth : TokenInfo :=
  {| Token.chainId := Fin 8453;
     Token.address := "0x4200000000000000000000000000000000000006";
     Token.name := "Wrapped Ether"; Token.symbol := "WETH";
     Token.decimals := Fin 18 |}.

(** [JSON.parse] on the files of the example world: a content that is the
    text of one of these token lists denotes it, and any other content is a
    syntax error. *)
Definition JSON_parse (content : string) : string + list TokenInfo :=
  match find (fun l => String.eqb (JSON_stringify l) content)
             [[]; [usdc]; [weth]; [usdc; weth]] with
  | Some l => inr l
  | None => inl "Unexpected token in JSON"
  end.

Definition Ethereum_getInstance (network : string) : string + Ethereum :=
  if String.eqb network "base"
  then inr {| ethereum_chainId := Fin 8453; tokenListType := "FILE" |}
  else if String.eqb network "mainnet"
  then inr {| ethereum_chainId := Fin 1; tokenListType := "FILE" |}
  else inl ("Unsupported network " +:+ network).

Definition loadTokens (_ : Ethereum) (path _ : string) (fs : gmap string string)
  : option string :=
  match fs !! path with
  | Some _ => None
  | None => Some "token list not found"
  end.

Definition tokenSource (path : string) : value :=
  VObj [("tokenListSource", VStr path)].

Definition store : ConfigManagerV2.store :=
  [ ("ethereum",
      [("networks",
         VObj [("mainnet", tokenSource "/conf/tokens/mainnet.json");
               ("base", tokenSource "/conf/tokens/base.json")])]);
    ("solana",
      [("networks",
         VObj [("mainnet-beta", tokenSource "/conf/tokens/solana.json");
               ("devnet", tokenSource "/conf/tokens/solana-devnet.json")])]);
    ("uniswap",
      [("allowedSlippage", VStr "2/100");
       ("networks",
         VObj [("base",
                 VObj [("clmm",
                         VObj [("WETH-USDC",
                                 VStr "0xd0b53d9277642d899df5c87a3966a349a798f224")])]);
               ("mainnet", VObj [])])]);
    ("jupiter", [("allowedSlippage", VStr "1/100")]);
    ("raydium", [("networks", VObj [])]) ].

Definition world : World :=
  {| config := store;
     files := {[ "/conf/tokens/base.json" := JSON_stringify [usdc; weth] ]};
     logs := [] |}.

Definition addToken := addDefaultToken JSON_parse JSON_stringify
                         Ethereum_getInstance loadTokens.
Definition removeToken := removeDefaultToken JSON_parse JSON_stringify
                            Ethereum_getInstance loadTokens.

End Demo.


(** ** config/utils.ts: reading and updating the configuration *)

(** A value that was computed without touching the world. *)
Definition of_result {A} (r : result A) : M A := fun w => (r, w).



Section ConfigUpdate.

Context {helpers : StringHelpers}.

(** [JSON.stringify(configValue)], the built-in, as the log line prints it. *)
Variable JSON_stringify : value -> string.

Definition updateConfig (configPath : string) (configValue : value) : M unit :=
  logger LogInfo ("Updating config path: " +:+ configPath +:+ " with value: "
                    +:+ JSON_stringify configValue) ;;
  of_result (validateAllowedSlippage configPath configValue) ;;
  try_catch
    (config_set configPath configValue ;;
     logger LogInfo ("Successfully updated configuration: " +:+ configPath))
    (fun error =>
       logger LogError ("Failed to update configuration: " +:+ exn_message error) ;;
       throw (internalServerError
                ("Failed to update configuration: " +:+ exn_message error))).

End ConfigUpdate.

(** ** config/routes: the handlers of the token routes *)

(** The bodies of the two requests, [DefaultTokenRequest] and
    [RemoveDefaultTokenRequest] of config/schemas. *)
Module DefaultTokenRequest.
Record t := {
  chain : string;
  network : string;
  name : string;
  symbol : string;
  address : string;
  decimals : number;
}.
End DefaultTokenRequest.

Module RemoveDefaultTokenRequest.
Record t := {
  chain : string;
  network : string;
  token : string;
}.
End RemoveDefaultTokenRequest.

Section TokenRoutes.

Variable JSON_parse : string -> string + list TokenInfo.
Variable JSON_stringify : list TokenInfo -> string.
Variable Ethereum_getInstance : string -> string + Ethereum.
Variable loadTokens :
  Ethereum -> string -> string -> gmap string string -> option string.

(** The handler of [POST /tokens/add]. *)
Definition addTokenRoute (body : DefaultTokenRequest.t) : M value :=
  let chain := DefaultTokenRequest.chain body in
  let network := DefaultTokenRequest.network body in
  let name := DefaultTokenRequest.name body in
  let symbol := DefaultTokenRequest.symbol body in
  let address := DefaultTokenRequest.address body in
  let decimals := DefaultTokenRequest.decimals body in
  addDefaultToken JSON_parse JSON_stringify Ethereum_getInstance loadTokens
    chain network name symbol address decimals ;;
  ret (VObj [("message",
              VStr ("Token " +:+ symbol +:+ " added to " +:+ chain +:+ "/"
                      +:+ network))]).

(** The handler of [POST /tokens/remove]. *)
Definition removeTokenRoute (body : RemoveDefaultTokenRequest.t) : M value :=
  let chain := RemoveDefaultTokenRequest.chain body in
  let network := RemoveDefaultTokenRequest.network body in
  let token := RemoveDefaultTokenRequest.token body in
  removeDefaultToken JSON_parse JSON_stringify Ethereum_getInstance loadTokens
    chain network token ;;
  ret (VObj [("message",
              VStr ("Token " +:+ token +:+ " removed from " +:+ chain +:+ "/"
                      +:+ network))]).

End TokenRoutes.

(** ** config/schemas.ts: the key pattern of the default-pool list *)

(** Regular expressions over characters, as far as the patterns of the
    schemas go, matched by derivatives.  A pattern of the schemas is
    anchored at both ends, so [test] asks for a match of the whole string. *)
Module RegExp.

Inductive regex :=
  | Never
  | Epsilon
  | Class (p : ascii -> bool)
  | Seq (r1 r2 : regex)
  | Alt (r1 r2 : regex)
  | Star (r : regex).

(** [r+] and a literal character. *)
Definition Plus (r : regex) : regex := Seq r (Star r).
Definition Lit (c : ascii) : regex := Class (Ascii.eqb c).

Fixpoint nullable (r : regex) : bool :=
  match r with
  | Never => false
  | Epsilon => true
  | Class _ => false
  | Seq r1 r2 => nullable r1 && nullable r2
  | Alt r1 r2 => nullable r1 || nullable r2
  | Star _ => true
  end.

Fixpoint derivative (c : ascii) (r : regex) : regex :=
  match r with
  | Never => Never
  | Epsilon => Never
  | Class p => if p c then Epsilon else Never
  | Seq r1 r2 =>
      if nullable r1
      then Alt (Seq (derivative c r1) r2) (derivative c r2)
      else Seq (derivative c r1) r2
  | Alt r1 r2 => Alt (derivative c r1) (derivative c r2)
  | Star r' => Seq (derivative c r') (Star r')
  end.

(** [/^r$/.test(s)]. *)
Fixpoint test (r : regex) (s : string) : bool :=
  match s with
  | EmptyString => nullable r
  | String c s' => test (derivative c r) s'
  end.

(** The strings a pattern denotes. *)
Inductive denotes : regex -> string -> Prop :=
  | denotes_epsilon : denotes Epsilon ""
  | denotes_class p c : p c = true -> denotes (Class p) (String c "")
  | denotes_seq r1 r2 s1 s2 :
      denotes r1 s1 -> denotes r2 s2 -> denotes (Seq r1 r2) (s1 +:+ s2)
  | denotes_alt_l r1 r2 s : denotes r1 s -> denotes (Alt r1 r2) s
  | denotes_alt_r r1 r2 s : denotes r2 s -> denotes (Alt r1 r2) s
  | denotes_star_nil r : denotes (Star r) ""
  | denotes_star_cons r s1 s2 :
      denotes r s1 -> denotes (Star r) s2 -> denotes (Star r) (s1 +:+ s2).

End RegExp.

(** The pattern ['^[A-Z]+-[A-Z]+$'] of the keys of [DefaultPoolListSchema]. *)
Definition DefaultPoolListSchema_pattern : RegExp.regex :=
  RegExp.Seq (RegExp.Plus (RegExp.Class Js.is_upper))
    (RegExp.Seq (RegExp.Lit "-") (RegExp.Plus (RegExp.Class Js.is_upper))).

(** A non-empty word of the letters A to Z. *)
Definition upperWord (s : string) : bool :=
  Js.nonempty s && Js.all_chars Js.is_upper s.

(** The key under which the pool functions file a pair. *)
Definition pairKey (baseToken quoteToken : string) : string :=
  baseToken +:+ "-" +:+ quoteToken.

(** ** connectors/uniswap/clmm-routes/quoteSwap.ts *)

(** The quote route of the Uniswap CLMM connector.  It reads no file and
    writes no configuration: what it does to the world is to log, at three
    levels, so a computation here threads the log alone.  The classes
    Uniswap and Ethereum, the Uniswap SDK and [formatTokenAmount] of
    uniswap.utils are not among the sources: they are parameters, each call
    giving its result or the error it throws.  Numbers are printed and
    divided by the JavaScript engine, which is a parameter too. *)
Module QuoteSwap.

Inductive level := LevelInfo | LevelError | LevelDebug.

Definition Log : Type := list (level * string).

Definition Q (A : Type) : Type := Log -> result A * Log.

Definition ret {A} (a : A) : Q A := fun l => (Ok a, l).
Definition throw {A} (e : exn) : Q A := fun l => (Throw e, l).

Definition bind {A B} (m : Q A) (k : A -> Q B) : Q B :=
  fun l =>
    match m l with
    | (Ok a, l') => k a l'
    | (Throw e, l') => (Throw e, l')
    | (OutOfModel, l') => (OutOfModel, l')
    end.

Definition try_catch {A} (body : Q A) (handler : exn -> Q A) : Q A :=
  fun l =>
    match body l with
    | (Throw e, l') => handler e l'
    | r => r
    end.

(** [await f(...)] for a call of a collaborator. *)
Definition await {A} (r : exn + A) : Q A :=
  match r with
  | inl e => throw e
  | inr a => ret a
  end.

Definition logger (lvl : level) (msg : string) : Q unit :=
  fun l => (Ok tt, l ++ [(lvl, msg)]).

#[warnings="-notation-overridden"]
Local Notation "'let*' x ':=' m 'in' k" := (bind m (fun x => k))
  (at level 10, x pattern, m at level 100, k at level 200, only parsing).
#[warnings="-notation-overridden"]
Local Notation "m ';;' k" := (bind m (fun _ => k))
  (at level 100, k at level 200, right associativity, only parsing).

(** What the code reads of a [Token] of the SDK. *)
Record Token := {
  symbol : string;
  address : string;
  decimals : number;
}.

(** What [formatSwapQuote] reads of the object [quoteClmmSwap] returns. *)
Record Quote := {
  estimatedAmountIn : number;
  estimatedAmountOut : number;
  minAmountOut : number;
  maxAmountIn : number;
}.

(** [GetSwapQuoteResponseType], as [formatSwapQuote] fills it. *)
Record GetSwapQuoteResponse := {
  response_poolAddress : string;
  response_estimatedAmountIn : number;
  response_estimatedAmountOut : number;
  response_minAmountOut : number;
  response_maxAmountIn : number;
  baseTokenBalanceChange : number;
  quoteTokenBalanceChange : number;
  price : number;
  gasPrice : number;
  gasLimit : number;
  gasCost : number;
}.

(** The query of [GET /quote-swap]. *)
Record GetSwapQuoteRequest := {
  network : option string;
  poolAddress : option string;
  baseToken : string;
  quoteToken : string;
  amount : number;
  side : string;
  slippagePct : option number;
}.

(** Unary minus. *)
Definition num_opp (n : number) : number :=
  match n with
  | NaN => NaN
  | Infinity negative => Infinity (negb negative)
  | Fin q => Fin (- q)
  end.

Section Collaborators.

Variable Uniswap : Type.

(** [Uniswap.getInstance(network)] and [Ethereum.getInstance(network)]. *)
Variable Uniswap_getInstance : string -> exn + Uniswap.
Variable Ethereum_getInstance : string -> exn + Ethereum.

(** [uniswap.findDefaultPool(baseToken, quoteToken, type)] and
    [uniswap.getTokenBySymbol(symbol)]. *)
Variable findDefaultPool : Uniswap -> string -> string -> string -> exn + option string.
Variable getTokenBySymbol : Uniswap -> string -> option Token.

(** [ethereum.ready()], [ethereum.init()], which gives the error of a
    failed start, and [ethereum.provider.getGasPrice()], in wei. *)
Variable ready : Ethereum -> bool.
Variable init : Ethereum -> option exn.
Variable getGasPrice : Ethereum -> exn + Z.

(** The [try] block of [quoteClmmSwap]: the trade that the Uniswap SDK
    computes for the pool, or the error it throws. *)
Variable clmmTrade :
  Uniswap -> string -> Token -> Token -> number -> string -> option number
  -> exn + option Quote.

(** [formatTokenAmount(raw, decimals)] of uniswap.utils. *)
Variable formatTokenAmount : string -> nat -> number.

(** The engine: [`${n}`] and [x / y] on numbers, [error.stack], and the
    text the logger prints for an error object. *)
Variable show_number : number -> string.
Variable num_div : number -> number -> number.
Variable stack : exn -> option string.
Variable show_error : exn -> string.

Definition quoteClmmSwap
    (uniswap : Uniswap) (poolAddress : string) (baseToken quoteToken : Token)
    (amount : number) (side : string) (slippagePct : option number)
  : Q (option Quote) :=
  try_catch
    (await (clmmTrade uniswap poolAddress baseToken quoteToken amount side
              slippagePct))
    (fun error =>
       logger LevelError ("Error quoting CLMM swap: " +:+ exn_message error) ;;
       throw error).

Definition getUniswapClmmQuote
    (network poolAddress baseToken quoteToken : string) (amount : number)
    (side : string) (slippagePct : option number)
  : Q (Quote * Uniswap * Ethereum * Token * Token) :=
  let* uniswap := await (Uniswap_getInstance network) in
  let* ethereum := await (Ethereum_getInstance network) in
  (if negb (ready ethereum) then
     logger LevelInfo "Ethereum instance not ready, initializing..." ;;
     match init ethereum with
     | Some e => throw e
     | None => ret tt
     end
   else ret tt) ;;
  let baseTokenObj := getTokenBySymbol uniswap baseToken in
  let quoteTokenObj := getTokenBySymbol uniswap quoteToken in
  match baseTokenObj with
  | None =>
      logger LevelError ("Base token not found: " +:+ baseToken) ;;
      throw (PlainError ("Base token not found: " +:+ baseToken))
  | Some baseTokenObj =>
      match quoteTokenObj with
      | None =>
          logger LevelError ("Quote token not found: " +:+ quoteToken) ;;
          throw (PlainError ("Quote token not found: " +:+ quoteToken))
      | Some quoteTokenObj =>
          logger LevelInfo
            ("Base token: " +:+ symbol baseTokenObj +:+ ", address="
               +:+ address baseTokenObj +:+ ", decimals="
               +:+ show_number (decimals baseTokenObj)) ;;
          logger LevelInfo
            ("Quote token: " +:+ symbol quoteTokenObj +:+ ", address="
               +:+ address quoteTokenObj +:+ ", decimals="
               +:+ show_number (decimals quoteTokenObj)) ;;
          let* quote :=
            quoteClmmSwap uniswap poolAddress baseTokenObj quoteTokenObj
              amount side slippagePct in
          match quote with
          | None => throw (PlainError "Failed to get swap quote")
          | Some quote =>
              ret (quote, uniswap, ethereum, baseTokenObj, quoteTokenObj)
          end
      end
  end.

Definition formatSwapQuote
    (network poolAddress baseToken quoteToken : string) (amount : number)
    (side : string) (slippagePct : option number)
  : Q GetSwapQuoteResponse :=
  logger LevelInfo
    ("formatSwapQuote: poolAddress=" +:+ poolAddress +:+ ", baseToken="
       +:+ baseToken +:+ ", quoteToken=" +:+ quoteToken +:+ ", amount="
       +:+ show_number amount +:+ ", side=" +:+ side +:+ ", network="
       +:+ network) ;;
  try_catch
    (let* (quote, uniswap, ethereum, baseTokenObj, quoteTokenObj) :=
       getUniswapClmmQuote network poolAddress baseToken quoteToken amount
         side slippagePct in
     logger LevelInfo
       ("Quote result: estimatedAmountIn="
          +:+ show_number (estimatedAmountIn quote)
          +:+ ", estimatedAmountOut="
          +:+ show_number (estimatedAmountOut quote)) ;;
     (* Calculate balance changes based on which tokens are being swapped *)
     let baseTokenBalanceChange :=
       if String.eqb side "BUY" then estimatedAmountOut quote
       else num_opp (estimatedAmountIn quote) in
     let quoteTokenBalanceChange :=
       if String.eqb side "BUY" then num_opp (estimatedAmountIn quote)
       else estimatedAmountOut quote in
     logger LevelInfo
       ("Balance changes: baseTokenBalanceChange="
          +:+ show_number baseTokenBalanceChange
          +:+ ", quoteTokenBalanceChange="
          +:+ show_number quoteTokenBalanceChange) ;;
     (* Get gas estimate for V3 swap *)
     let estimatedGasValue := 200000%Z in
     let* gasPrice := await (getGasPrice ethereum) in
     logger LevelInfo ("Gas price from provider: " +:+ Js.show_Z gasPrice) ;;
     (* Calculate gas cost *)
     let estimatedGasBN := estimatedGasValue in
     let gasCostRaw := (gasPrice * estimatedGasBN)%Z in
     let gasCost := formatTokenAmount (Js.show_Z gasCostRaw) 18 in
     logger LevelInfo ("Gas cost: " +:+ show_number gasCost +:+ " ETH") ;;
     (* Calculate price based on side *)
     let price :=
       if String.eqb side "SELL"
       then num_div (estimatedAmountOut quote) (estimatedAmountIn quote)
       else num_div (estimatedAmountIn quote) (estimatedAmountOut quote) in
     (* Format gas price as Gwei *)
     let gasPriceGwei := formatTokenAmount (Js.show_Z gasPrice) 9 in
     logger LevelInfo ("Gas price in Gwei: " +:+ show_number gasPriceGwei) ;;
     ret {| response_poolAddress := poolAddress;
            response_estimatedAmountIn := estimatedAmountIn quote;
            response_estimatedAmountOut := estimatedAmountOut quote;
            response_minAmountOut := minAmountOut quote;
            response_maxAmountIn := maxAmountIn quote;
            baseTokenBalanceChange := baseTokenBalanceChange;
            quoteTokenBalanceChange := quoteTokenBalanceChange;
            price := price;
            (* [Number(gasPriceGwei)], of a number *)
            gasPrice := gasPriceGwei;
            gasLimit := Fin (inject_Z estimatedGasValue);
            gasCost := gasCost |})
    (fun error =>
       logger LevelError ("Error formatting swap quote: " +:+ exn_message error) ;;
       match stack error with
       | Some (String _ _ as trace) =>
           logger LevelDebug ("Stack trace: " +:+ trace)
       | _ => ret tt
       end ;;
       throw error).

(** The handler of [GET /quote-swap]. *)
Definition quoteSwapRoute (query : GetSwapQuoteRequest)
  : Q GetSwapQuoteResponse :=
  try_catch
    (let requestedPoolAddress := poolAddress query in
     let networkToUse :=
       match network query with
       | None | Some EmptyString => "base"
       | Some network => network
       end in
     let* uniswap := await (Uniswap_getInstance networkToUse) in
     let* poolAddress :=
       (match requestedPoolAddress with
        | None | Some EmptyString =>
            (* Look up the pool from configuration pools dictionary *)
            let* poolAddress :=
              await (findDefaultPool uniswap (baseToken query)
                       (quoteToken query) "clmm") in
            match poolAddress with
            | None | Some EmptyString =>
                throw (notFound ("No CLMM pool found for pair "
                                   +:+ baseToken query +:+ "-"
                                   +:+ quoteToken query))
            | Some poolAddress => ret poolAddress
            end
        | Some poolAddress => ret poolAddress
        end) in
     formatSwapQuote networkToUse poolAddress (baseToken query)
       (quoteToken query) (amount query) (side query) (slippagePct query))
    (fun e =>
       logger LevelError (show_error e) ;;
       match exn_statusCode e with
       | Some _ => throw e
       | None =>
           throw (internalServerError
                    ("Error getting swap quote: " +:+ exn_message e))
       end).

End Collaborators.

(** The network a query asks for: ["base"] when it names none. *)
Definition requestedNetwork (query : GetSwapQuoteRequest) : string :=
  match network query with
  | None | Some EmptyString => "base"
  | Some network => network
  end.

End QuoteSwap.

(** ** More of the example world *)

(** Collaborators for the example world when the chain cannot be reached:
    no client can be obtained, and a reload of the token list fails. *)
Module DemoOutage.

Definition Ethereum_getInstance (network : string) : string + Ethereum :=
  inl ("could not detect network " +:+ network).

Definition loadTokens (_ : Ethereum) (_ _ : string) (_ : gmap string string)
  : option string :=
  Some "Failed to load token list".

End DemoOutage.

(** Two more worlds for the examples: one whose token list of "base" holds a
    single entry, and one whose network has no token-list path. *)
Module DemoWorlds.

Definition oneToken : World :=
  {| config := Demo.store;
     files := {[ "/conf/tokens/base.json" := Demo.JSON_stringify [Demo.usdc] ]};
     logs := [] |}.

Definition noSource : World :=
  {| config := [("ethereum", [("networks", VObj [("sepolia", VObj [])])])];
     files := ∅;
     logs := [] |}.

End DemoWorlds.

(** Worlds for the pool registry: a connector whose first network is not
    the preferred one, and a connector whose networks are [null]. *)
Module DemoPools.

Definition store : ConfigManagerV2.store :=
  [ ("raydium",
      [("networks",
         VObj [("devnet",
                 VObj [("clmm", VObj [("SOL-USDC", VStr "devnetPool")])]);
               ("mainnet-beta",
                 VObj [("clmm", VObj [("SOL-USDC", VStr "mainnetPool")])])])]);
    ("meteora", [("networks", VObj [("mainnet-beta", VNull); ("devnet", VNull)])]) ].

Definition world : World := {| config := store; files := ∅; logs := [] |}.

End DemoPools.

(** [JSON.stringify(v)] for the examples: values with integer numbers and
    strings that need no escaping. *)
Module DemoJson.

Fixpoint JSON_stringify (v : value) : string :=
  match v with
  | VNull => "null"
  | VBool true => "true"
  | VBool false => "false"
  | VNum n => Demo.json_number n
  | VStr s => Demo.quoted s
  | VArr items => "[" +:+ Js.join "," (map JSON_stringify items) +:+ "]"
  | VObj fields =>
      "{" +:+ Js.join ","
                (map (fun field => Demo.quoted (fst field) +:+ ":"
                                     +:+ JSON_stringify (snd field)) fields)
          +:+ "}"
  end.

End DemoJson.

(** Collaborators for the examples of the quote route: one network, two
    tokens and one default pool, a trade at a fixed rate, and a gas price of
    one gwei. *)
Module DemoSwap.

Definition Uniswap_getInstance (network : string) : exn + unit :=
  if String.eqb network "base" then inr tt
  else inl (PlainError ("Unsupported network " +:+ network)).

Definition Ethereum_getInstance (network : string) : exn + Ethereum :=
  if String.eqb network "base"
  then inr {| ethereum_chainId := Fin 8453; tokenListType := "FILE" |}
  else inl (PlainError ("Unsupported network " +:+ network)).

Definition findDefaultPool (_ : unit) (baseToken quoteToken type : string)
  : exn + option string :=
  if String.eqb baseToken "WETH" && String.eqb quoteToken "USDC"
     && String.eqb type "clmm"
  then inr (Some "0xd0b53d9277642d899df5c87a3966a349a798f224")
  else inr None.

Definition getTokenBySymbol (_ : unit) (symbol : string)
  : option QuoteSwap.Token :=
  if String.eqb symbol "WETH" then
    Some {| QuoteSwap.symbol := "WETH";
            QuoteSwap.address := "0x4200000000000000000000000000000000000006";
            QuoteSwap.decimals := Fin 18 |}
  else if String.eqb symbol "USDC" then
    Some {| QuoteSwap.symbol := "USDC";
            QuoteSwap.address := "0x833589fCD6eDb6E08f4c7C32D4f71b54bdA02913";
            QuoteSwap.decimals := Fin 6 |}
  else None.

Definition ready (_ : Ethereum) : bool := true.
Definition init (_ : Ethereum) : option exn := None.
Definition getGasPrice (_ : Ethereum) : exn + Z := inr 1000000000%Z.

(** One WETH for 3000 USDC, whatever the amount. *)
Definition clmmTrade (_ : unit) (_ : string) (_ _ : QuoteSwap.Token)
    (_ : number) (side : string) (_ : option number)
  : exn + option QuoteSwap.Quote :=
  let '(amountIn, amountOut) :=
    if String.eqb side "SELL" then (Fin 1, Fin 3000) else (Fin 3000, Fin 1) in
  inr (Some {| QuoteSwap.estimatedAmountIn := amountIn;
               QuoteSwap.estimatedAmountOut := amountOut;
               QuoteSwap.minAmountOut := amountOut;
               QuoteSwap.maxAmountIn := amountIn |}).

Definition formatTokenAmount (raw : string) (decimals : nat) : number :=
  match StringUtils.read_Z raw with
  | Some n => Fin (Qred (n # StringUtils.pow10 decimals))
  | None => NaN
  end.

(** Integers are printed as they are; for the examples, another finite
    number is printed as its reduced fraction. *)
Definition show_number (n : number) : string :=
  match n with
  | Fin q =>
      if Pos.eqb (Qden (Qred q)) 1 then Js.show_Z (Qnum (Qred q))
      else StringUtils.fraction_text q
  | Infinity negative => if negative then "-Infinity" else "Infinity"
  | NaN => "NaN"
  end.

Definition num_div (x y : number) : number :=
  match x, y with
  | Fin a, Fin b => if Qeq_bool b 0 then NaN else Fin (Qred (a / b))
  | _, _ => NaN
  end.

Definition stack (_ : exn) : option string := None.

Definition quoteSwapRoute :=
  QuoteSwap.quoteSwapRoute unit Uniswap_getInstance Ethereum_getInstance
    findDefaultPool getTokenBySymbol ready init getGasPrice clmmTrade
    formatTokenAmount show_number num_div stack exn_message.

Definition formatSwapQuote :=
  QuoteSwap.formatSwapQuote unit Uniswap_getInstance Ethereum_getInstance
    getTokenBySymbol ready init getGasPrice clmmTrade
    formatTokenAmount show_number num_div stack.

Definition query (network poolAddress : option string)
    (baseToken quoteToken side : string) : QuoteSwap.GetSwapQuoteRequest :=
  {| QuoteSwap.network := network; QuoteSwap.poolAddress := poolAddress;
     QuoteSwap.baseToken := baseToken; QuoteSwap.quoteToken := quoteToken;
     QuoteSwap.amount := Fin 1; QuoteSwap.side := side;
     QuoteSwap.slippagePct := None |}.

End DemoSwap.

(** ** Further specification-side views *)

(** A string of ASCII characters only: on such strings the case mappings of
    the engine are the ones of [Js]. *)
Definition asciiOnly (s : string) : bool :=
  Js.all_chars (fun c => (nat_of_ascii c <? 128)%nat) s.

(** The names that every object inherits from [Object.prototype]: a lookup
    of one of them in an object that has no property of its own by that name
    finds the inherited member, which [ownProperty] does not model. *)
Definition inheritedKeys : list string :=
  ["constructor"; "hasOwnProperty"; "isPrototypeOf"; "propertyIsEnumerable";
   "toLocaleString"; "toString"; "valueOf"; "__proto__"; "__defineGetter__";
   "__defineSetter__"; "__lookupGetter__"; "__lookupSetter__"].

Section NormalizerContract.

Context {helpers : StringHelpers}.

(** [s] is a fraction string of the value [q]. *)
Definition fractionOf (s : string) (q : Q) : Prop :=
  isFractionString s = true
  /\ exists r, fromFractionString s = Some (Fin r) /\ (r == q)%Q.

(** What the specification asks of [toFractionString] on the values the
    validator accepts: a number in [0, 1), and a numeric string that the
    engine parses to a number in [0, 1), become a fraction string of the
    same value. *)
Definition fractionOfSameValue : Prop :=
  (forall q, unit_interval (Fin q) ->
     exists s, toFractionString (inr (Fin q)) = Some s /\ fractionOf s q)
  /\ (forall t q, isFloatString t = true -> parseFloat t = Fin q ->
       unit_interval (Fin q) ->
       exists s, toFractionString (inl t) = Some s /\ fractionOf s q).

End NormalizerContract.

(** One more world for the examples: the token list of "base" is not
    JSON. *)
Module DemoBroken.

Definition world : World :=
  {| config := Demo.store;
     files := {[ "/conf/tokens/base.json" := "[{" ]};
     logs := [] |}.

End DemoBroken.

(** ** Proof automation *)

(** Runs the two configuration look-ups that open both token operations,
    given that the network is configured ([Hnet]) and has a token-list file
    ([Hsrc]). *)
Ltac resolve_token_list Hnet Hsrc :=
  unfold bind, config_get;
  unfold ethereumNetworks, namespaceNetworks in Hnet;
  destruct (ConfigManagerV2.get ("ethereum" +:+ ".networks") (config _))
    as [?|?]; [done|];
  rewrite Hnet; cbv beta iota delta [negb];
  unfold tokenListSource in Hsrc;
  destruct (ConfigManagerV2.get _ (config _)) as [?|[[| | |?p| |]|]]; try done;
  let Hp := fresh "Hp" in
  destruct (Js.nonempty p) eqn:Hp; [|done]; injection Hsrc as ->;
  cbn [truthy_opt truthy]; rewrite Hp; cbv beta iota delta [negb].

(** Case analysis on the scrutinees of the goal, innermost first. *)
Ltac crunch :=
  repeat (cbv beta iota;
          match goal with
          | |- context [match ?x with _ => _ end] =>
              match x with
              | context [match _ with _ => _ end] => fail 1
              | _ => destruct x eqn:?
              end
          end).

(** Unfolds the effects of the token operations and of the pool functions. *)
Ltac unfold_effects :=
  unfold bind, try_catch, config_get, pathExists, readFile, writeFile,
    json_parse, ethereum_getInstance, ethereum_loadTokens, logger,
    statusCode_or_wrap, throw, ret, out_of_model.

Ltac unfold_pool_effects :=
  unfold bind, try_catch, config_namespace, config_set, config_delete,
    config_update, logger, throw, ret.

(** ** Facts about the string primitives *)

Section StringFacts.

Lemma all_chars_app p s t :
  Js.all_chars p (s +:+ t) = Js.all_chars p s && Js.all_chars p t.
Proof.
  induction s as [|c s IH]; simpl; [done|].
  rewrite IH. by rewrite andb_assoc.
Qed.

Lemma all_chars_impl (p q : ascii -> bool) s :
  (forall c, p c = true -> q c = true) ->
  Js.all_chars p s = true -> Js.all_chars q s = true.
Proof.
  intros Hpq. induction s as [|c s IH]; simpl; [done|].
  rewrite !andb_true_iff. intros [? ?]. auto.
Qed.

Lemma split_nonnil sep s : Js.split sep s <> [].
Proof.
  destruct s as [|c s]; simpl; [done|].
  destruct (Ascii.eqb c sep); [done|]. by destruct (Js.split sep s).
Qed.

Lemma split_free sep s :
  Js.all_chars (is_not sep) s = true -> Js.split sep s = [s].
Proof.
  induction s as [|c s IH]; simpl; [done|].
  rewrite andb_true_iff. unfold is_not at 1. intros [Hc Hs].
  apply negb_true_iff in Hc. rewrite Hc, (IH Hs). done.
Qed.

Lemma split_app sep a b :
  Js.all_chars (is_not sep) a = true ->
  Js.split sep (a +:+ String sep b) = a :: Js.split sep b.
Proof.
  induction a as [|c a IH]; simpl.
  - intros _. by rewrite Ascii.eqb_refl.
  - rewrite andb_true_iff. unfold is_not at 1. intros [Hc Ha].
    apply negb_true_iff in Hc.
    change (String c a +:+ String sep b) with (String c (a +:+ String sep b)).
    simpl. rewrite Hc, (IH Ha). done.
Qed.

Lemma split_pieces_free sep s :
  Forall (fun piece => Js.all_chars (is_not sep) piece = true) (Js.split sep s).
Proof.
  induction s as [|c s IH]; simpl.
  - by repeat constructor.
  - destruct (Ascii.eqb c sep) eqn:Hc.
    + by constructor.
    + pose proof (split_nonnil sep s).
      destruct (Js.split sep s) as [|h t]; [done|].
      inversion IH; subst. constructor; [|done].
      simpl. unfold is_not at 1. by rewrite Hc.
Qed.

Lemma split_join sep s : Js.join (String sep "") (Js.split sep s) = s.
Proof.
  induction s as [|c s IH]; simpl; [done|].
  destruct (Ascii.eqb c sep) eqn:Hc.
  - apply Ascii.eqb_eq in Hc as ->.
    pose proof (split_nonnil sep s).
    destruct (Js.split sep s) as [|h t] eqn:E; [done|].
    simpl in *. by rewrite IH.
  - pose proof (split_nonnil sep s).
    destruct (Js.split sep s) as [|h t] eqn:E; [done|].
    destruct t as [|h' t]; simpl in *; by rewrite <- IH.
Qed.

Lemma split_two sep s a b :
  Js.split sep s = [a; b] ->
  s = a +:+ String sep b
  /\ Js.all_chars (is_not sep) a = true /\ Js.all_chars (is_not sep) b = true.
Proof.
  intros E. pose proof (split_join sep s) as J.
  pose proof (split_pieces_free sep s) as F. rewrite E in J, F.
  apply Forall_cons in F as [Fa F]. apply Forall_cons in F as [Fb _].
  simpl in J. done.
Qed.

End StringFacts.

(** ** Facts about numbers and numerals *)

Lemma in_unit_iff n :
  num_ge n num_zero && num_lt n num_one = true <-> unit_interval n.
Proof.
  unfold unit_interval. destruct n as [|neg|q]; simpl.
  - split; [done|]. by intros (q & [=] & _).
  - split; [by destruct neg|]. by intros (q & [=] & _).
  - rewrite andb_true_iff, negb_true_iff, Qle_bool_iff.
    split.
    + intros [H0 H1]. exists q. repeat split; [done|].
      apply Qnot_le_lt. intros Hle. apply Qle_bool_iff in Hle. congruence.
    + intros (q' & [= <-] & H0 & H1). split; [done|].
      destruct (Qle_bool 1 q) eqn:E; [|done].
      apply Qle_bool_iff in E. by apply Qlt_not_le in H1.
Qed.

Lemma unit_interval_Qeq p q :
  (p == q)%Q -> unit_interval (Fin p) -> unit_interval (Fin q).
Proof.
  intros Heq (p' & [= <-] & H0 & H1). exists q.
  split; [done|]. split.
  - by apply (Qle_trans _ p); [|apply Qle_lteq; right].
  - by apply (Qle_lt_trans _ p); [apply Qle_lteq; right; symmetry|].
Qed.

Section NumeralFacts.

Import StringUtils.

Lemma digit_numeral c : Js.is_digit c = true -> numeral_char c = true.
Proof. unfold numeral_char. by intros ->. Qed.

Lemma numeral_not_slash c : numeral_char c = true -> is_not "/" c = true.
Proof. destruct c as [[] [] [] [] [] [] [] []]; by vm_compute. Qed.

Lemma natural_numeral s :
  isNaturalNumberString s = true -> Js.all_chars numeral_char s = true.
Proof.
  unfold isNaturalNumberString. rewrite andb_true_iff. intros [_ H].
  revert H. apply all_chars_impl, digit_numeral.
Qed.

Lemma integer_numeral s :
  isIntegerString s = true -> Js.all_chars numeral_char s = true.
Proof.
  unfold isIntegerString, unsign.
  destruct s as [|c s]; [done|].
  destruct (Ascii.eqb_spec c "-") as [->|Hc].
  - simpl. apply natural_numeral.
  - intros H. apply natural_numeral.
    revert H. by destruct c as [[] [] [] [] [] [] [] []].
Qed.

Lemma float_numeral s :
  isFloatString s = true -> Js.all_chars numeral_char s = true.
Proof.
  unfold isFloatString. intros H.
  rewrite <- (split_join "." s).
  destruct (Js.split "." s) as [|i [|f [|? ?]]]; try done.
  - simpl. by apply integer_numeral.
  - apply andb_true_iff in H as [Hi Hf]. simpl.
    rewrite !all_chars_app.
    rewrite (integer_numeral _ Hi), (natural_numeral _ Hf). done.
Qed.

Lemma no_slash s :
  Js.all_chars numeral_char s = true -> Js.all_chars (is_not "/") s = true.
Proof. apply all_chars_impl, numeral_not_slash. Qed.

(** A numeric string is never a fraction string. *)
Lemma float_not_fraction s :
  isFloatString s = true -> isFractionString s = false.
Proof.
  intros H. unfold isFractionString.
  by rewrite (split_free "/" s (no_slash _ (float_numeral _ H))).
Qed.

Lemma split_fraction a b :
  isIntegerString a = true -> isNaturalNumberString b = true ->
  Js.split "/" (a +:+ "/" +:+ b) = [a; b].
Proof.
  intros Ha Hb. change ("/" +:+ b) with (String "/"%char b).
  rewrite (split_app "/" a b (no_slash _ (integer_numeral _ Ha))).
  by rewrite (split_free "/" b (no_slash _ (natural_numeral _ Hb))).
Qed.

Lemma fraction_shape a b :
  isIntegerString a = true -> isNaturalNumberString b = true ->
  isFractionString (a +:+ "/" +:+ b) = true
  /\ isFloatString (a +:+ "/" +:+ b) = false.
Proof.
  intros Ha Hb.
  assert (isFractionString (a +:+ "/" +:+ b) = true) as HF.
  { unfold isFractionString. rewrite (split_fraction _ _ Ha Hb).
    by rewrite Ha, Hb. }
  split; [done|].
  destruct (isFloatString _) eqn:E; [|done].
  apply float_not_fraction in E. congruence.
Qed.

End NumeralFacts.

(** ** The percentage validator *)

Section ValidatorFacts.

Context {helpers : StringHelpers}.

Lemma slippageAccepted_sound v : slippageAccepted v = true -> AllowedSlippage v.
Proof.
  destruct v as [| |n|s| |]; simpl; try done.
  - intros H. constructor. by apply in_unit_iff.
  - rewrite andb_true_iff. intros [Hshape Hval].
    destruct (isFloatString s) eqn:Hfl.
    + apply allowed_numeric_string; [done|]. by apply in_unit_iff.
    + rewrite orb_false_r in Hshape.
      destruct (fromFractionString s) as [n|] eqn:Hn; [|done].
      eapply allowed_fraction_string; eauto. by apply in_unit_iff.
Qed.

(** The converse needs the two kinds of strings to be told apart: the code
    reads a string that passes [isFloatString] with [parseFloat], whatever
    [isFractionString] says of it. *)
Lemma slippageAccepted_complete v :
  (forall s, isFloatString s = true -> isFractionString s = false) ->
  AllowedSlippage v -> slippageAccepted v = true.
Proof.
  intros Hdisjoint [n Hn|s Hfl Hs|s n Hfr Hn Hq]; simpl.
  - by apply in_unit_iff.
  - rewrite Hfl, orb_true_r. simpl. by apply in_unit_iff.
  - rewrite Hfr. simpl.
    destruct (isFloatString s) eqn:Hfl.
    + apply Hdisjoint in Hfl. congruence.
    + rewrite Hn. by apply in_unit_iff.
Qed.

Lemma validateAllowedSlippage_ok path v :
  Js.endsWith path "allowedSlippage" = true ->
  validateAllowedSlippage path v = Ok tt <-> slippageAccepted v = true.
Proof.
  intros Hpath. unfold validateAllowedSlippage. rewrite Hpath.
  by destruct (slippageAccepted v).
Qed.

Lemma validateAllowedSlippage_reject path v :
  Js.endsWith path "allowedSlippage" = true ->
  slippageAccepted v = false ->
  validateAllowedSlippage path v = Throw (badRequest invalidAllowedSlippage).
Proof.
  intros Hpath Hv. unfold validateAllowedSlippage. by rewrite Hpath, Hv.
Qed.

(** C1.  Whatever the helpers are, as long as no string is both a numeric
    and a fraction string: on a path that ends in [allowedSlippage] the
    validator returns normally exactly for a number in [0, 1), a numeric
    string whose parsed value is in [0, 1), or a fraction string that has a
    value in [0, 1); every other input is rejected with the bad-request
    error. *)
Theorem validateAllowedSlippage_accepts_exactly path v :
  (forall s, isFloatString s = true -> isFractionString s = false) ->
  Js.endsWith path "allowedSlippage" = true ->
  (validateAllowedSlippage path v = Ok tt <-> AllowedSlippage v)
  /\ (~ AllowedSlippage v ->
      validateAllowedSlippage path v = Throw (badRequest invalidAllowedSlippage)).
Proof.
  intros Hdisjoint Hpath. split.
  - rewrite (validateAllowedSlippage_ok _ _ Hpath). split.
    + apply slippageAccepted_sound.
    + by apply slippageAccepted_complete.
  - intros Hn. apply validateAllowedSlippage_reject; [done|].
    destruct (slippageAccepted v) eqn:E; [|done].
    by apply slippageAccepted_sound in E.
Qed.

End ValidatorFacts.

Lemma validateAllowedSlippage_accepts_exactly_witness :
  (validateAllowedSlippage "uniswap.allowedSlippage" (VStr "1/200") = Ok tt
   <-> AllowedSlippage (VStr "1/200"))
  /\ (~ AllowedSlippage (VStr "1/200") ->
      validateAllowedSlippage "uniswap.allowedSlippage" (VStr "1/200")
      = Throw (badRequest invalidAllowedSlippage)).
Proof.
  apply (@validateAllowedSlippage_accepts_exactly specHelpers
           "uniswap.allowedSlippage" (VStr "1/200")).
  - exact float_not_fraction.
  - reflexivity.
Defined.

(** ** Decimal numerals: printing and reading back *)

Section DecimalRoundTrip.

Import StringUtils.

Lemma string_of_uint_digits d :
  Js.all_chars Js.is_digit (NilEmpty.string_of_uint d) = true.
Proof. induction d; simpl; auto. Qed.

Lemma string_of_uint_nonempty d :
  d <> Decimal.Nil -> Js.nonempty (NilEmpty.string_of_uint d) = true.
Proof. by destruct d. Qed.

Lemma to_uint_nonnil n : N.to_uint n <> Decimal.Nil.
Proof.
  destruct n as [|p]; [done|]. apply DecimalPos.Unsigned.to_uint_nonnil.
Qed.

Lemma show_N_natural n : isNaturalNumberString (Js.show_N n) = true.
Proof.
  unfold isNaturalNumberString, Js.show_N.
  rewrite string_of_uint_digits, string_of_uint_nonempty; [done|].
  apply to_uint_nonnil.
Qed.

Lemma read_show_N n : Js.read_N (Js.show_N n) = Some n.
Proof.
  unfold Js.read_N, Js.show_N.
  rewrite string_of_uint_nonempty by apply to_uint_nonnil.
  rewrite NilEmpty.usu. simpl. by rewrite DecimalN.Unsigned.of_to.
Qed.

(** A natural numeral does not start with a minus sign. *)
Lemma unsign_natural s :
  isNaturalNumberString s = true -> unsign s = (false, s).
Proof.
  unfold isNaturalNumberString, unsign.
  destruct s as [|c s]; [done|]. simpl.
  destruct (Ascii.eqb_spec c "-") as [->|Hc]; [done|].
  intros _. by destruct c as [[] [] [] [] [] [] [] []].
Qed.

Lemma show_Z_integer z : isIntegerString (Js.show_Z z) = true.
Proof.
  unfold isIntegerString.
  destruct z as [|p|p]; simpl; try apply show_N_natural.
  all: rewrite unsign_natural by apply show_N_natural.
  all: apply show_N_natural.
Qed.

Lemma read_show_Z z : read_Z (Js.show_Z z) = Some z.
Proof.
  unfold read_Z.
  destruct z as [|p|p].
  - done.
  - unfold Js.show_Z. rewrite unsign_natural by apply show_N_natural.
    by rewrite read_show_N.
  - unfold Js.show_Z. simpl unsign. cbv iota beta. by rewrite read_show_N.
Qed.

End DecimalRoundTrip.

(** ** The helpers of the specification *)

(** A fraction string has a value exactly when it reads [a/b] with an
    integer [a] and a natural number [b] other than zero; the value is the
    quotient. *)
Lemma fromFractionString_lexical s n :
  StringUtils.fromFractionString s = Some n
  <-> exists a b num den,
        s = a +:+ "/" +:+ b
        /\ StringUtils.isIntegerString a = true
        /\ StringUtils.isNaturalNumberString b = true
        /\ StringUtils.read_Z a = Some num
        /\ Js.read_N b = Some (Npos den)
        /\ n = Fin (num # den).
Proof.
  unfold StringUtils.fromFractionString. split.
  - destruct (StringUtils.isFractionString s) eqn:Hshape; [|done].
    unfold StringUtils.isFractionString in Hshape.
    destruct (Js.split "/" s) as [|a [|b [|? ?]]] eqn:E; try done.
    apply andb_true_iff in Hshape as [Ha Hb].
    destruct (StringUtils.read_Z a) as [num|] eqn:Hn; [|done].
    destruct (Js.read_N b) as [[|den]|] eqn:Hd; try done.
    intros [= <-]. apply split_two in E as (-> & _ & _).
    by exists a, b, num, den.
  - intros (a & b & num & den & -> & Ha & Hb & Hn & Hd & ->).
    destruct (fraction_shape a b Ha Hb) as [-> _].
    by rewrite (split_fraction a b Ha Hb), Hn, Hd.
Qed.

Lemma fraction_text_shape q :
  StringUtils.isFractionString (StringUtils.fraction_text q) = true.
Proof. apply fraction_shape; [apply show_Z_integer | apply show_N_natural]. Qed.

(** The value read back from the text of a fraction is the fraction. *)
Lemma fromFractionString_fraction_text q :
  StringUtils.fromFractionString (StringUtils.fraction_text q)
  = Some (Fin (Qred q)).
Proof.
  apply fromFractionString_lexical.
  exists (Js.show_Z (Qnum (Qred q))), (Js.show_N (Npos (Qden (Qred q)))),
    (Qnum (Qred q)), (Qden (Qred q)).
  repeat split.
  - apply show_Z_integer.
  - apply show_N_natural.
  - apply read_show_Z.
  - apply read_show_N.
  - by destruct (Qred q).
Qed.

(** ** The slippage normalizer *)

Lemma fraction_text_accepted q :
  unit_interval (Fin q) ->
  slippageAccepted (VStr (StringUtils.fraction_text q)) = true.
Proof.
  intros Hq. apply slippageAccepted_complete; [exact float_not_fraction|].
  eapply allowed_fraction_string.
  - apply fraction_text_shape.
  - apply fromFractionString_fraction_text.
  - apply (unit_interval_Qeq q); [|done]. symmetry. apply Qred_correct.
Qed.

Section NormalizerRoundTrip.

Context {helpers : StringHelpers}.

(** C7, as the code has it.  For any helpers that tell numeric strings from
    fraction strings and whose [toFractionString] gives a fraction string of
    the same value, on a path that ends in [allowedSlippage]: a number or a
    plain numeric string that the validator accepts is rewritten to a
    fraction string of the value the validator compared, which the validator
    accepts again; and a value that is already a fraction string leaves the
    body unchanged. *)
Theorem updateAllowedSlippageToFraction_round_trip body :
  (forall s, isFloatString s = true -> isFractionString s = false) ->
  fractionOfSameValue ->
  Js.endsWith (configPath body) "allowedSlippage" = true ->
  (plainNumeric (configValue body) = true ->
   validateAllowedSlippage (configPath body) (configValue body) = Ok tt ->
   exists s q,
     updateAllowedSlippageToFraction body
       = {| configPath := configPath body; configValue := VStr s |}
     /\ slippageValue (configValue body) = Some (Fin q)
     /\ fractionOf s q
     /\ validateAllowedSlippage (configPath body) (VStr s) = Ok tt)
  /\ (forall s, configValue body = VStr s -> isFractionString s = true ->
      updateAllowedSlippageToFraction body = body).
Proof.
  intros Hdisjoint [Hnumber Hstring] Hpath. split.
  - intros Hnum Hok.
    apply (validateAllowedSlippage_ok _ _ Hpath) in Hok.
    assert (Haccepted : forall s q,
              unit_interval (Fin q) -> fractionOf s q ->
              validateAllowedSlippage (configPath body) (VStr s) = Ok tt).
    { intros s q Hq (Hshape & r & Hvalue & Hr).
      apply (validateAllowedSlippage_ok _ _ Hpath).
      apply slippageAccepted_complete; [done|].
      eapply allowed_fraction_string; [done|exact Hvalue|].
      apply (unit_interval_Qeq q); [by symmetry|done]. }
    unfold updateAllowedSlippageToFraction. rewrite Hpath.
    destruct (configValue body) as [| |n|t| |] eqn:Ev; try done.
    + apply in_unit_iff in Hok. pose proof Hok as (q & -> & Hq).
      destruct (Hnumber q Hok) as (s & -> & Hs).
      exists s, q. split; [done|]. split; [done|]. split; [exact Hs|].
      by eapply Haccepted.
    + simpl in Hnum. apply andb_true_iff in Hnum as [Hfl Hnf].
      rewrite Hnf. cbn [negb].
      simpl in Hok. rewrite Hfl, orb_true_r in Hok. simpl in Hok.
      apply in_unit_iff in Hok. pose proof Hok as (q & Eq & Hq).
      rewrite Eq in Hok.
      destruct (Hstring t q Hfl Eq Hok) as (s & -> & Hs).
      exists s, q. split; [done|]. split; [|split; [exact Hs|]].
      * simpl. by rewrite Hfl, Eq.
      * by eapply Haccepted.
  - intros s Ev Hfr. unfold updateAllowedSlippageToFraction.
    by rewrite Hpath, Ev, Hfr.
Qed.

End NormalizerRoundTrip.

(** The helpers of the specification meet the contract: they write the
    reduced fraction. *)
Lemma specHelpers_fractionOfSameValue : @fractionOfSameValue specHelpers.
Proof.
  assert (Htext : forall q, @fractionOf specHelpers (StringUtils.fraction_text q) q).
  { intros q. split; [apply fraction_text_shape|].
    exists (Qred q). split; [apply fromFractionString_fraction_text|].
    apply Qred_correct. }
  split.
  - intros q _. exists (StringUtils.fraction_text q). by split.
  - intros t q Hfl Hq _. exists (StringUtils.fraction_text q). split; [|done].
    simpl. unfold StringUtils.toFractionString.
    simpl in Hfl, Hq. by rewrite Hfl, Hq.
Qed.

Lemma updateAllowedSlippageToFraction_round_trip_witness :
  exists s q,
    updateAllowedSlippageToFraction
      {| configPath := "uniswap.allowedSlippage"; configValue := VStr "0.005" |}
    = {| configPath := "uniswap.allowedSlippage"; configValue := VStr s |}
    /\ slippageValue (VStr "0.005") = Some (Fin q)
    /\ fractionOf s q
    /\ validateAllowedSlippage "uniswap.allowedSlippage" (VStr s) = Ok tt.
Proof.
  apply (@updateAllowedSlippageToFraction_round_trip specHelpers
           {| configPath := "uniswap.allowedSlippage";
              configValue := VStr "0.005" |}).
  - exact float_not_fraction.
  - exact specHelpers_fractionOfSameValue.
  - reflexivity.
  - reflexivity.
  - reflexivity.
Defined.

(** The claim behind C7 asks for no acceptance of the value before.  With
    the helpers of the specification the number 1.5 on an [allowedSlippage]
    path is rewritten to the fraction string "3/2", which the validator
    refuses. *)
Lemma updateAllowedSlippageToFraction_refused_counterexample :
  ~ (forall body : ConfigUpdateRequest,
       Js.endsWith (configPath body) "allowedSlippage" = true ->
       plainNumeric (configValue body) = true ->
       exists s,
         updateAllowedSlippageToFraction body
         = {| configPath := configPath body; configValue := VStr s |}
         /\ validateAllowedSlippage (configPath body) (VStr s) = Ok tt).
Proof.
  intros H.
  destruct (H {| configPath := "uniswap.allowedSlippage";
                 configValue := VNum (Fin 1.5) |} eq_refl eq_refl)
    as (s & Hupdate & Haccepted).
  vm_compute in Hupdate. injection Hupdate as <-.
  vm_compute in Haccepted. discriminate Haccepted.
Qed.

(** What the normalizer makes of 1.5, whose fraction string is refused. *)
Example normalize_1_5 :
  updateAllowedSlippageToFraction
    {| configPath := "uniswap.allowedSlippage"; configValue := VNum (Fin 1.5) |}
  = {| configPath := "uniswap.allowedSlippage"; configValue := VStr "3/2" |}
  /\ validateAllowedSlippage "uniswap.allowedSlippage" (VStr "3/2")
     = Throw (badRequest invalidAllowedSlippage).
Proof. split; reflexivity. Qed.

(** The example of the specification. *)
Example normalize_0_005 :
  updateAllowedSlippageToFraction
    {| configPath := "uniswap.allowedSlippage"; configValue := VNum (Fin 0.005) |}
  = {| configPath := "uniswap.allowedSlippage"; configValue := VStr "1/200" |}.
Proof. reflexivity. Qed.

(** ** Case mapping *)

Section CaseMapping.

Lemma lower_upper_char c : Js.lower_char (Js.upper_char c) = Js.lower_char c.
Proof. destruct c as [[] [] [] [] [] [] [] []]; by vm_compute. Qed.

Lemma upper_lower_char c : Js.upper_char (Js.lower_char c) = Js.upper_char c.
Proof. destruct c as [[] [] [] [] [] [] [] []]; by vm_compute. Qed.

Lemma toLowerCase_toUpperCase s :
  Js.toLowerCase (Js.toUpperCase s) = Js.toLowerCase s.
Proof.
  induction s as [|c s IH]; simpl; [done|].
  unfold Js.toLowerCase, Js.toUpperCase in *. simpl.
  by rewrite lower_upper_char, IH.
Qed.

Lemma toUpperCase_toLowerCase s :
  Js.toUpperCase (Js.toLowerCase s) = Js.toUpperCase s.
Proof.
  induction s as [|c s IH]; simpl; [done|].
  unfold Js.toLowerCase, Js.toUpperCase in *. simpl.
  by rewrite upper_lower_char, IH.
Qed.

(** Comparing upper-cased strings is comparing lower-cased strings. *)
Lemma toUpperCase_eq_iff a b :
  Js.toUpperCase a = Js.toUpperCase b <-> same_nocase a b.
Proof.
  unfold same_nocase. split; intros H.
  - by rewrite <- (toLowerCase_toUpperCase a), H, toLowerCase_toUpperCase.
  - by rewrite <- (toUpperCase_toLowerCase a), H, toUpperCase_toLowerCase.
Qed.

End CaseMapping.


(** ** The token-list operations *)

Section TokenListFacts.

Variable JSON_parse : string -> string + list TokenInfo.
Variable JSON_stringify : list TokenInfo -> string.
Variable Ethereum_getInstance : string -> string + Ethereum.
Variable loadTokens :
  Ethereum -> string -> string -> gmap string string -> option string.

Local Abbreviation addToken :=
  (addDefaultToken JSON_parse JSON_stringify Ethereum_getInstance loadTokens).
Local Abbreviation removeToken :=
  (removeDefaultToken JSON_parse JSON_stringify Ethereum_getInstance loadTokens).

Lemma find_is_Some {A} (p : A -> bool) l x :
  In x l -> p x = true -> exists y, find p l = Some y.
Proof.
  intros Hin Hp. destruct (find p l) as [y|] eqn:E; [eauto|].
  by rewrite (find_none _ _ E x Hin) in Hp.
Qed.

Lemma filter_length_same {A} (p : A -> bool) l :
  length (List.filter p l) = length l <-> (forall x, In x l -> p x = true).
Proof.
  induction l as [|a l IH]; simpl; [by split|].
  destruct (p a) eqn:Ha; simpl.
  - split.
    + intros [= H] x [<-|Hx]; [done|]. by apply IH.
    + intros H. f_equal. apply IH. intros x Hx. apply H. by right.
  - split.
    + intros H. pose proof (List.filter_length_le p l). lia.
    + intros H. specialize (H a (or_introl eq_refl)). congruence.
Qed.

Lemma namedBy_iff identifier t :
  namedBy identifier t = true
  <-> same_nocase (Token.address t) identifier
      \/ same_nocase (Token.symbol t) identifier.
Proof.
  unfold namedBy, same_nocase. by rewrite orb_true_iff, !String.eqb_eq.
Qed.

(** C2.  When the address or the symbol of the new token equals, up to
    case, that of an entry of the token list of the network, [addDefaultToken]
    fails with the conflict error and leaves the files as they were. *)
Theorem addDefaultToken_conflict
    w chain network name symbol address decimals path content tokenList t :
  Js.includes network (ethereumNetworks (config w)) = true ->
  tokenListSource (config w) network = Some path ->
  files w !! path = Some content ->
  JSON_parse content = inr tokenList ->
  In t tokenList ->
  same_nocase (Token.address t) address \/ same_nocase (Token.symbol t) symbol ->
  exists w',
    addToken chain network name symbol address decimals w
    = (Throw (conflict ("Token with address " +:+ address +:+ " or symbol "
                          +:+ symbol +:+ " already exists.")), w')
    /\ files w' = files w /\ config w' = config w.
Proof.
  intros Hnet Hsrc Hfile Hparse Hin Hsame.
  unfold addDefaultToken. resolve_token_list Hnet Hsrc.
  unfold try_catch, pathExists, readFile, json_parse, ret, throw.
  rewrite bool_decide_true by eauto. cbv beta iota. rewrite Hfile.
  cbv beta iota. rewrite Hparse. cbv beta iota.
  match goal with |- context [find ?p tokenList] =>
    destruct (find_is_Some p tokenList t Hin) as [y ->] end.
  { apply orb_true_iff. destruct Hsame as [Ha|Hs]; [left|right].
    - by apply String.eqb_eq.
    - by apply String.eqb_eq, toUpperCase_eq_iff. }
  cbv beta iota. unfold logger, statusCode_or_wrap, throw. cbn.
  eexists. repeat split; reflexivity.
Qed.

(** C3.  [removeDefaultToken] keeps exactly the entries that the identifier
    does not name (by address or by symbol, up to case).  When it names no
    entry the call fails with the not-found error and the files are left as
    they were; otherwise the list of the kept entries is written to the
    token-list file. *)
Theorem removeDefaultToken_removes_named
    w chain network tokenToRemove path content tokenList :
  Js.includes network (ethereumNetworks (config w)) = true ->
  tokenListSource (config w) network = Some path ->
  files w !! path = Some content ->
  JSON_parse content = inr tokenList ->
  let kept := List.filter (fun t => negb (namedBy tokenToRemove t)) tokenList in
  (forall t, In t kept <-> In t tokenList /\ namedBy tokenToRemove t = false)
  /\ ((forall t, In t tokenList -> namedBy tokenToRemove t = false) ->
      exists w',
        removeToken chain network tokenToRemove w
        = (Throw (notFound ("Token " +:+ tokenToRemove
                              +:+ " not found in the list.")), w')
        /\ files w' = files w /\ config w' = config w)
  /\ ((exists t, In t tokenList /\ namedBy tokenToRemove t = true) ->
      exists r w',
        removeToken chain network tokenToRemove w = (r, w')
        /\ files w' = <[path := JSON_stringify kept]> (files w)).
Proof.
  intros Hnet Hsrc Hfile Hparse kept. split; [|split].
  - intros t. unfold kept. rewrite List.filter_In, negb_true_iff. done.
  - intros Hnone.
    unfold removeDefaultToken. resolve_token_list Hnet Hsrc.
    unfold try_catch, pathExists, readFile, json_parse, ret, throw.
    rewrite bool_decide_true by eauto. cbv beta iota delta [negb].
    rewrite Hfile. cbv beta iota. rewrite Hparse. cbv beta iota.
    match goal with |- context [List.filter ?p tokenList] =>
      assert (length (List.filter p tokenList) = length tokenList) as Hlen end.
    { apply filter_length_same. intros t Ht. specialize (Hnone t Ht).
      unfold namedBy in Hnone. apply orb_false_iff in Hnone as [-> ->]. done. }
    rewrite Hlen, Nat.eqb_refl. cbv beta iota.
    unfold logger, statusCode_or_wrap, throw. cbn.
    eexists. repeat split; reflexivity.
  - intros (t & Ht & Hnamed).
    unfold removeDefaultToken. resolve_token_list Hnet Hsrc.
    unfold try_catch, pathExists, readFile, json_parse, ret, throw.
    rewrite bool_decide_true by eauto. cbv beta iota delta [negb].
    rewrite Hfile. cbv beta iota. rewrite Hparse. cbv beta iota.
    match goal with |- context [List.filter ?p tokenList] =>
      assert (List.filter p tokenList = kept) as ->;
      [apply List.filter_ext; intros a; unfold namedBy; by rewrite negb_orb|] end.
    destruct (length kept =? length tokenList)%nat eqn:Hlen.
    { apply Nat.eqb_eq in Hlen. unfold kept in Hlen.
      pose proof (proj1 (filter_length_same _ _) Hlen) as Hall. clear Hlen.
      rename Hall into Hlen. simpl in Hlen.
      specialize (Hlen t Ht). rewrite Hnamed in Hlen. done. }
    cbv beta iota. unfold writeFile, ethereum_getInstance, ethereum_loadTokens.
    cbv beta iota.
    destruct (Ethereum_getInstance network) as [msg|ethereum];
      unfold throw, ret, logger, statusCode_or_wrap; cbn.
    + eexists _, _. split; reflexivity.
    + destruct (loadTokens _ _ _ _); cbn; eexists _, _; split; reflexivity.
Qed.

Lemma get_ethereum_networks st :
  exists networks,
    ConfigManagerV2.get ("ethereum" +:+ ".networks") st = inr networks.
Proof.
  unfold ConfigManagerV2.get.
  change (Js.split "." ("ethereum" +:+ ".networks")) with ["ethereum"; "networks"].
  unfold ConfigManagerV2.resolve_read.
  destruct (ConfigManagerV2.assoc "ethereum" st); eauto.
Qed.

(** C10.  Neither token operation depends on its [chain] argument: two
    calls that differ in it alone end with the same result, the same files
    and the same configuration. *)
Theorem token_operations_ignore_chain
    chain1 chain2 network name symbol address decimals tokenToRemove w :
  let a1 := addToken chain1 network name symbol address decimals w in
  let a2 := addToken chain2 network name symbol address decimals w in
  let r1 := removeToken chain1 network tokenToRemove w in
  let r2 := removeToken chain2 network tokenToRemove w in
  (fst a1 = fst a2 /\ files (snd a1) = files (snd a2)
   /\ config (snd a1) = config (snd a2))
  /\ (fst r1 = fst r2 /\ files (snd r1) = files (snd r2)
      /\ config (snd r1) = config (snd r2)).
Proof.
  cbv zeta. split.
  - unfold addDefaultToken. unfold_effects.
    crunch; cbn; try done.
  - unfold removeDefaultToken. unfold_effects.
    crunch; cbn; try done.
Qed.

(** C8, as the code has it.  [addDefaultToken] checks [network] against
    the networks configured under the [ethereum] namespace, whatever [chain]
    is: a network that is not among them is refused with a bad-request error
    whose message lists them, and a network that is among them is never
    refused with a bad-request error. *)
Theorem addDefaultToken_validates_ethereum_network
    w chain network name symbol address decimals :
  (Js.includes network (ethereumNetworks (config w)) = false ->
   addToken chain network name symbol address decimals w
   = (Throw (badRequest
               ("Network '" +:+ network
                  +:+ "' is not a supported Ethereum-based network. Supported networks are: "
                  +:+ Js.join ", " (ethereumNetworks (config w)))), w))
  /\ (Js.includes network (ethereumNetworks (config w)) = true ->
      forall msg,
        fst (addToken chain network name symbol address decimals w)
        <> Throw (badRequest msg)).
Proof.
  unfold ethereumNetworks, namespaceNetworks.
  destruct (get_ethereum_networks (config w)) as [networks Hget].
  rewrite Hget. split; intros Hnet.
  - unfold addDefaultToken, bind, config_get.
    rewrite Hget. cbv beta iota. rewrite Hnet. reflexivity.
  - intros msg. unfold addDefaultToken, bind, config_get.
    rewrite Hget. cbv beta iota. rewrite Hnet. cbv beta iota delta [negb].
    unfold_effects. crunch; cbn; try done.
    all: match goal with H : exn_statusCode ?e = None |- _ =>
           destruct e; simpl in H; try done end.
Qed.

(** What a successful [addDefaultToken] has found and done. *)
Lemma addDefaultToken_ok_inv
    w w' chain network name symbol address decimals :
  addToken chain network name symbol address decimals w = (Ok tt, w') ->
  exists path tokenList ethereum,
    Js.includes network (ethereumNetworks (config w)) = true
    /\ tokenListSource (config w) network = Some path
    /\ Ethereum_getInstance network = inr ethereum
    /\ match files w !! path with
       | Some content => JSON_parse content = inr tokenList
       | None => tokenList = []
       end
    /\ (forall t, In t tokenList ->
          ~ same_nocase (Token.address t) address
          /\ ~ same_nocase (Token.symbol t) symbol)
    /\ files w'
       = <[path := JSON_stringify
                     (tokenList ++
                        [{| Token.chainId := ethereum_chainId ethereum;
                            Token.address := address; Token.name := name;
                            Token.symbol := symbol;
                            Token.decimals := decimals |}])]> (files w)
    /\ config w' = config w.
Proof.
  unfold addDefaultToken, tokenListSource, ethereumNetworks, namespaceNetworks.
  unfold_effects.
  crunch; cbn; intros H; try discriminate H.
  all: try (match goal with H : exn_statusCode ?e = _ |- _ =>
              destruct e; simpl in H; discriminate end).
  all: match goal with
       | Hn : negb (truthy_opt (Some (VStr ?s))) = false,
         Hs : Js.nonempty ?s = false |- _ =>
           simpl in Hn; rewrite Hs in Hn; discriminate
       | _ => idtac
       end.
  all: injection H as <-; simpl.
  all: match goal with Hf : find _ ?l = None |- _ =>
         assert (forall t, In t l ->
                   ~ same_nocase (Token.address t) address
                   /\ ~ same_nocase (Token.symbol t) symbol) as Hfresh;
         [intros t Ht; pose proof (find_none _ _ Hf t Ht) as Hno;
          apply orb_false_iff in Hno as [Ha Hs];
          apply String.eqb_neq in Ha, Hs; split; [done|];
          by intros E; apply toUpperCase_eq_iff in E|] end.
  all: repeat match goal with Hb : negb ?b = false |- _ =>
         apply negb_false_iff in Hb end.
  - eexists _, l, _. repeat split; try done; try (by eapply Hfresh).
    by match goal with Hf : files w !! _ = Some _ |- _ => rewrite Hf end.
  - eexists _, [], _. repeat split; try done; try (by eapply Hfresh).
    match goal with Hf : bool_decide (is_Some (files w !! ?p)) = false |- _ =>
      apply bool_decide_eq_false in Hf; destruct (files w !! p); [|done];
      destruct Hf; eauto end.
Qed.

(** C9, as the code has it.  A call of [addDefaultToken] that succeeds has
    written, to the token-list file of the network, the previous list (empty
    when there was no file) followed by one entry that carries the given
    [decimals] as it is, with the other arguments and the chain id of the
    network: no check is made on [decimals]. *)
Theorem addDefaultToken_writes_given_decimals
    w w' chain network name symbol address decimals :
  addToken chain network name symbol address decimals w = (Ok tt, w') ->
  exists path tokenList ethereum,
    tokenListSource (config w) network = Some path
    /\ Ethereum_getInstance network = inr ethereum
    /\ match files w !! path with
       | Some content => JSON_parse content = inr tokenList
       | None => tokenList = []
       end
    /\ files w'
       = <[path := JSON_stringify
                     (tokenList ++
                        [{| Token.chainId := ethereum_chainId ethereum;
                            Token.address := address; Token.name := name;
                            Token.symbol := symbol;
                            Token.decimals := decimals |}])]> (files w).
Proof.
  intros H. apply addDefaultToken_ok_inv in H
    as (path & tokenList & ethereum & _ & Hsrc & Heth & Hold & _ & Hnew & _).
  by exists path, tokenList, ethereum.
Qed.

(** A successful [addDefaultToken] keeps the uniqueness invariant of the
    token list: when no two entries of the list it read share an address or
    a symbol up to case, none of the list it wrote do. *)
Theorem addDefaultToken_keeps_tokens_unique
    w w' chain network name symbol address decimals :
  addToken chain network name symbol address decimals w = (Ok tt, w') ->
  exists path before after,
    tokenListSource (config w) network = Some path
    /\ match files w !! path with
       | Some content => JSON_parse content = inr before
       | None => before = []
       end
    /\ files w' !! path = Some (JSON_stringify after)
    /\ (uniqueTokens before -> uniqueTokens after).
Proof.
  intros H. apply addDefaultToken_ok_inv in H
    as (path & tokenList & ethereum & _ & Hsrc & _ & Hold & Hfresh & Hnew & _).
  eexists path, tokenList, _. split; [done|]. split; [done|]. split.
  - rewrite Hnew. apply lookup_insert_eq.
  - intros [Haddr Hsym]. unfold uniqueTokens. rewrite !map_app. simpl.
    split; apply NoDup_app; (split; [done|]); (split; [|apply NoDup_singleton]).
    + intros x Hx Hx'. apply list_elem_of_singleton in Hx'.
      apply list_elem_of_fmap in Hx as (t & Ht & Hin).
      apply list_elem_of_In in Hin. destruct (Hfresh t Hin) as [Hno _].
      apply Hno. unfold same_nocase. congruence.
    + intros x Hx Hx'. apply list_elem_of_singleton in Hx'.
      apply list_elem_of_fmap in Hx as (t & Ht & Hin).
      apply list_elem_of_In in Hin. destruct (Hfresh t Hin) as [_ Hno].
      apply Hno. unfold same_nocase. congruence.
Qed.

End TokenListFacts.

(** ** The token-list operations on the example world *)

Lemma addDefaultToken_conflict_witness :
  exists w',
    Demo.addToken "ethereum" "base" "Bridged USDC" "usdc" "0xABC" (Fin 6)
      Demo.world
    = (Throw (conflict ("Token with address " +:+ "0xABC" +:+ " or symbol "
                          +:+ "usdc" +:+ " already exists.")), w')
    /\ files w' = files Demo.world /\ config w' = config Demo.world.
Proof.
  apply (addDefaultToken_conflict
           Demo.JSON_parse Demo.JSON_stringify
           Demo.Ethereum_getInstance Demo.loadTokens
           Demo.world "ethereum" "base" "Bridged USDC" "usdc" "0xABC" (Fin 6)
           "/conf/tokens/base.json"
           (Demo.JSON_stringify [Demo.usdc; Demo.weth])
           [Demo.usdc; Demo.weth] Demo.usdc).
  - vm_compute; reflexivity.
  - vm_compute; reflexivity.
  - vm_compute; reflexivity.
  - vm_compute; reflexivity.
  - left; reflexivity.
  - right; vm_compute; reflexivity.
Defined.

Lemma removeDefaultToken_removes_named_witness :
  exists r w',
    Demo.removeToken "ethereum" "base" "Usdc" Demo.world = (r, w')
    /\ files w'
       = <["/conf/tokens/base.json" := Demo.JSON_stringify [Demo.weth]]>
           (files Demo.world).
Proof.
  apply (removeDefaultToken_removes_named
           Demo.JSON_parse Demo.JSON_stringify
           Demo.Ethereum_getInstance Demo.loadTokens
           Demo.world "ethereum" "base" "Usdc"
           "/conf/tokens/base.json"
           (Demo.JSON_stringify [Demo.usdc; Demo.weth])
           [Demo.usdc; Demo.weth]).
  - vm_compute; reflexivity.
  - vm_compute; reflexivity.
  - vm_compute; reflexivity.
  - vm_compute; reflexivity.
  - exists Demo.usdc. split; [left; reflexivity | vm_compute; reflexivity].
Defined.

(** The sentence of the specification behind C8 reads the networks of the
    namespace that [chain] names.  With [chain] "solana" and the Ethereum
    network "base", which is no network of the [solana] namespace, the call
    is not refused: it adds the token. *)
Lemma addDefaultToken_chain_namespace_counterexample :
  ~ (forall chain network name symbol address decimals w,
       Js.includes network (namespaceNetworks chain (config w)) = false ->
       exists msg,
         fst (Demo.addToken chain network name symbol address decimals w)
         = Throw (badRequest msg)).
Proof.
  intros H.
  destruct (H "solana" "base" "Tsunami" "NAMI" "0xABC" (Fin 18) Demo.world)
    as [msg Hmsg].
  - vm_compute; reflexivity.
  - vm_compute in Hmsg. discriminate Hmsg.
Qed.

Lemma addDefaultToken_validates_ethereum_network_witness :
  Demo.addToken "solana" "devnet" "Bonk" "BONK" "0xB0" (Fin 5) Demo.world
  = (Throw (badRequest
              ("Network '" +:+ "devnet"
                 +:+ "' is not a supported Ethereum-based network. Supported networks are: "
                 +:+ Js.join ", " ["mainnet"; "base"])), Demo.world).
Proof.
  apply (proj1 (addDefaultToken_validates_ethereum_network
                  Demo.JSON_parse Demo.JSON_stringify
                  Demo.Ethereum_getInstance Demo.loadTokens
                  Demo.world "solana" "devnet" "Bonk" "BONK" "0xB0" (Fin 5))).
  vm_compute; reflexivity.
Defined.

(** The invariant behind C9 fails on the code: a call with [decimals = -1]
    succeeds. *)
Lemma addDefaultToken_negative_decimals_counterexample :
  ~ (forall chain network name symbol address decimals w,
       fst (Demo.addToken chain network name symbol address decimals w) = Ok tt ->
       nonNegativeInteger decimals).
Proof.
  intros H.
  destruct (H "ethereum" "base" "Tsunami" "NAMI" "0xABC" (Fin (-1)) Demo.world)
    as [k Hk].
  - vm_compute; reflexivity.
  - injection Hk as Hk. lia.
Qed.

Example addDefaultToken_negative_decimals_written :
  files (snd (Demo.addToken "ethereum" "base" "Tsunami" "NAMI" "0xABC"
                (Fin (-1)) Demo.world)) !! "/conf/tokens/base.json"
  = Some (Demo.JSON_stringify
            [Demo.usdc; Demo.weth;
             {| Token.chainId := Fin 8453; Token.address := "0xABC";
                Token.name := "Tsunami"; Token.symbol := "NAMI";
                Token.decimals := Fin (-1) |}]).
Proof. vm_compute; reflexivity. Qed.

Lemma addDefaultToken_writes_given_decimals_witness :
  exists path tokenList ethereum,
    tokenListSource (config Demo.world) "base" = Some path
    /\ Demo.Ethereum_getInstance "base" = inr ethereum
    /\ match files Demo.world !! path with
       | Some content => Demo.JSON_parse content = inr tokenList
       | None => tokenList = []
       end
    /\ files (snd (Demo.addToken "ethereum" "base" "Tsunami" "NAMI" "0xABC"
                     (Fin 18) Demo.world))
       = <[path := Demo.JSON_stringify
                     (tokenList ++
                        [{| Token.chainId := ethereum_chainId ethereum;
                            Token.address := "0xABC"; Token.name := "Tsunami";
                            Token.symbol := "NAMI";
                            Token.decimals := Fin 18 |}])]>
           (files Demo.world).
Proof.
  apply (addDefaultToken_writes_given_decimals
           Demo.JSON_parse Demo.JSON_stringify
           Demo.Ethereum_getInstance Demo.loadTokens
           Demo.world _ "ethereum" "base" "Tsunami" "NAMI" "0xABC" (Fin 18)).
  vm_compute; reflexivity.
Defined.

(** The [chain] argument reaches the log, and nothing else. *)
Example chain_reaches_the_log :
  logs (snd (Demo.addToken "solana" "mainnet" "Tsunami" "NAMI" "0xABC"
               (Fin 18) Demo.world))
  = [(LogInfo, "Added token NAMI (0xABC) to solana/mainnet.")].
Proof. vm_compute; reflexivity. Qed.

(** ** The default-pool registry *)

Lemma configuredNetworks_none st name :
  noConfiguredNetworks st name ->
  match configuredNetworks (option_map VObj (ConfigManagerV2.getNamespace name st)) with
  | Some networks => objectKeys networks = []
  | None => True
  end.
Proof.
  unfold noConfiguredNetworks, configuredNetworks.
  destruct (ConfigManagerV2.getNamespace name st) as [t|]; simpl; [|done].
  destruct (ConfigManagerV2.assoc "networks" t) as [networks|]; [|done].
  by destruct (truthy networks).
Qed.

(** C5.  For a connector string with a name and a type whose connector has
    no configured networks, [getDefaultPools] returns the empty mapping and
    raises nothing; the configuration and the files stay as they were. *)
Theorem getDefaultPools_empty_without_networks
    w connector baseConnector connectorType :
  connectorName connector = Some baseConnector ->
  connectorTypeOf connector = Some connectorType ->
  Js.nonempty baseConnector = true ->
  Js.nonempty connectorType = true ->
  noConfiguredNetworks (config w) baseConnector ->
  exists w',
    getDefaultPools connector w = (Ok (VObj []), w')
    /\ config w' = config w /\ files w' = files w.
Proof.
  unfold connectorName, connectorTypeOf.
  intros Hname Htype Hn Ht Hnone. apply configuredNetworks_none in Hnone.
  unfold getDefaultPools. rewrite Hname, Htype.
  destruct baseConnector; [done|]. destruct connectorType; [done|].
  unfold_pool_effects. cbv beta iota.
  destruct (configuredNetworks _) as [networks|]; cbv beta iota.
  - rewrite Hnone. eexists. repeat split; reflexivity.
  - eexists. repeat split; reflexivity.
Qed.

(** C4, as the code has it.  [addDefaultPool] fails with a bad-request
    error when the pool address is omitted or the connector string lacks its
    name or its type; with these present, it fails with an internal-server
    error, and changes nothing in the configuration, when the connector has
    no configured networks. *)
Theorem addDefaultPool_failures w connector baseToken quoteToken poolAddress :
  (missing poolAddress \/ missing (connectorName connector)
   \/ missing (connectorTypeOf connector) ->
   exists msg,
     addDefaultPool connector baseToken quoteToken poolAddress w
     = (Throw (badRequest msg), w))
  /\ (~ (missing poolAddress \/ missing (connectorName connector)
         \/ missing (connectorTypeOf connector)) ->
      forall baseConnector,
        connectorName connector = Some baseConnector ->
        noConfiguredNetworks (config w) baseConnector ->
        exists msg w',
          addDefaultPool connector baseToken quoteToken poolAddress w
          = (Throw (internalServerError msg), w')
          /\ config w' = config w /\ files w' = files w).
Proof.
  unfold missing, connectorName, connectorTypeOf, addDefaultPool. split.
  - intros H.
    destruct poolAddress as [[|c a]|]; try (eexists; reflexivity).
    destruct (Js.split "/" connector !! 0%nat) as [[|c0 n]|];
      try (eexists; reflexivity).
    destruct (Js.split "/" connector !! 1%nat) as [[|c1 t]|];
      try (eexists; reflexivity).
    exfalso. destruct H as [[H|H]|[[H|H]|[H|H]]]; discriminate H.
  - intros Hok baseConnector Hname Hnone.
    apply configuredNetworks_none in Hnone.
    destruct poolAddress as [[|c a]|]; try (exfalso; apply Hok; auto; fail).
    rewrite Hname in *.
    destruct baseConnector as [|c0 n]; [exfalso; apply Hok; auto|].
    destruct (Js.split "/" connector !! 1%nat) as [[|c1 t]|];
      try (exfalso; apply Hok; auto; fail).
    unfold_pool_effects. cbv beta iota.
    destruct (configuredNetworks _) as [networks|]; cbv beta iota.
    + rewrite Hnone. eexists _, _. repeat split; reflexivity.
    + eexists _, _. repeat split; reflexivity.
Qed.

(** ** Objects as association lists *)

Section AssocFacts.

Import ConfigManagerV2.
Context {A : Type}.
Implicit Types (fs : list (string * A)) (k : string) (v : A).

Lemma assoc_put_same k v fs : assoc k (put k v fs) = Some v.
Proof.
  induction fs as [|[k' v'] fs IH]; simpl.
  - by rewrite String.eqb_refl.
  - destruct (String.eqb k k') eqn:E; simpl; by rewrite ?String.eqb_refl, ?E.
Qed.

Lemma assoc_put_other k k' v fs : k' <> k -> assoc k' (put k v fs) = assoc k' fs.
Proof.
  intros Hne. apply String.eqb_neq in Hne.
  induction fs as [|[k0 v0] fs IH]; simpl.
  - by rewrite Hne.
  - destruct (String.eqb k k0) eqn:E; simpl.
    + apply String.eqb_eq in E as <-. by rewrite Hne.
    + by rewrite IH.
Qed.

(** Writing to a key what it already holds changes nothing. *)
Lemma put_same k v fs : assoc k fs = Some v -> put k v fs = fs.
Proof.
  induction fs as [|[k' v'] fs IH]; simpl; [done|].
  destruct (String.eqb_spec k k') as [->|Hne].
  - by intros [= ->].
  - intros H. by rewrite IH.
Qed.

Lemma put_put k v v' fs : put k v' (put k v fs) = put k v' fs.
Proof.
  induction fs as [|[k' v0] fs IH]; simpl.
  - by rewrite String.eqb_refl.
  - destruct (String.eqb k k') eqn:E; simpl; by rewrite ?String.eqb_refl, ?E, ?IH.
Qed.

(** Removing a key that was absent before it was written restores the object. *)
Lemma remove_put k v fs : assoc k fs = None -> remove k (put k v fs) = fs.
Proof.
  induction fs as [|[k' v'] fs IH]; simpl.
  - by rewrite String.eqb_refl.
  - destruct (String.eqb k k') eqn:E; [done|]. simpl. rewrite E.
    intros H. by rewrite IH.
Qed.

(** Writing to an existing key keeps the keys and their order. *)
Lemma keys_put k v fs : is_Some (assoc k fs) -> map fst (put k v fs) = map fst fs.
Proof.
  induction fs as [|[k' v'] fs IH]; simpl; [by intros [? ?]|].
  destruct (String.eqb_spec k k') as [->|Hne]; simpl; [done|].
  intros H. by rewrite IH.
Qed.

Lemma assoc_first k fs ks : map fst fs = k :: ks -> is_Some (assoc k fs).
Proof.
  destruct fs as [|[k' v'] fs]; simpl; [done|].
  intros [= -> _]. rewrite String.eqb_refl. eauto.
Qed.

(** Removing a key right after it was written removes what the key held
    before as well. *)
Lemma remove_put_any k v fs : remove k (put k v fs) = remove k fs.
Proof.
  induction fs as [|[k' v'] fs IH]; simpl.
  - by rewrite String.eqb_refl.
  - destruct (String.eqb k k') eqn:E; simpl; rewrite ?String.eqb_refl, ?E; [done|].
    by rewrite IH.
Qed.

Lemma assoc_remove_same k fs : assoc k (remove k fs) = None.
Proof.
  induction fs as [|[k' v'] fs IH]; simpl; [done|].
  destruct (String.eqb k k') eqn:E; simpl; by rewrite ?E.
Qed.

Lemma remove_absent k fs : assoc k fs = None -> remove k fs = fs.
Proof.
  induction fs as [|[k' v'] fs IH]; simpl; [done|].
  destruct (String.eqb k k'); [done|]. intros H. by rewrite IH.
Qed.

End AssocFacts.

(** ** Configuration paths *)

Lemma dotFree_app a b : dotFree (a +:+ b) = dotFree a && dotFree b.
Proof. apply all_chars_app. Qed.

Lemma split_pool_path name net type pair :
  dotFree name = true -> dotFree net = true -> dotFree type = true ->
  dotFree pair = true ->
  Js.split "." (name +:+ ".networks." +:+ net +:+ "." +:+ type +:+ "." +:+ pair)
  = [name; "networks"; net; type; pair].
Proof.
  intros Hname Hnet Htype Hpair.
  change (name +:+ ".networks." +:+ net +:+ "." +:+ type +:+ "." +:+ pair)
    with (name +:+ String "." ("networks" +:+ String "."
            (net +:+ String "." (type +:+ String "." pair)))).
  rewrite (split_app "." name) by done.
  rewrite (split_app "." "networks") by done.
  rewrite (split_app "." net) by done.
  rewrite (split_app "." type) by done.
  by rewrite (split_free "." pair).
Qed.

Lemma split_pieces_all p sep s :
  Js.all_chars p s = true ->
  Forall (fun piece => Js.all_chars p piece = true) (Js.split sep s).
Proof.
  induction s as [|c s IH]; simpl.
  - by repeat constructor.
  - rewrite andb_true_iff. intros [Hc Hs]. specialize (IH Hs).
    destruct (Ascii.eqb c sep); [by constructor|].
    destruct (Js.split sep s) as [|h t]; [by repeat constructor; simpl; rewrite Hc|].
    apply Forall_cons in IH as [Hh Ht]. constructor; [|done].
    simpl. by rewrite Hc, Hh.
Qed.

(** ** Adding and removing a default pool *)

Section PoolRoundTrip.

Import ConfigManagerV2.

(** What a successful [addDefaultPool] has done. *)
Lemma addDefaultPool_ok_inv w w1 connector baseToken quoteToken poolAddress :
  addDefaultPool connector baseToken quoteToken poolAddress w = (Ok tt, w1) ->
  exists name type address networks active,
    connectorName connector = Some name
    /\ connectorTypeOf connector = Some type
    /\ Js.nonempty name = true /\ Js.nonempty type = true
    /\ poolAddress = Some address
    /\ resolveActiveNetwork (config w) name = Some (networks, active)
    /\ ConfigManagerV2.set (poolPath name active type baseToken quoteToken)
         (VStr address) (config w) = inr (config w1)
    /\ files w1 = files w.
Proof.
  unfold addDefaultPool, connectorName, connectorTypeOf, resolveActiveNetwork,
    poolPath.
  destruct poolAddress as [[|c a]|]; try done.
  destruct (Js.split "/" connector !! 0%nat) as [[|c0 n]|]; try done.
  destruct (Js.split "/" connector !! 1%nat) as [[|c1 t]|]; try done.
  unfold_pool_effects. cbv beta iota.
  destruct (configuredNetworks _) as [networks|] eqn:Hcfg; [|done].
  destruct (objectKeys networks) as [|first ks] eqn:Hkeys; [done|].
  cbv beta iota zeta.
  destruct (ConfigManagerV2.set _ _ _) as [e|st1] eqn:Hset; [done|].
  intros [= <-]. simpl.
  eexists _, _, _, networks, _. repeat split; try reflexivity.
  - rewrite Hcfg, Hkeys. reflexivity.
  - exact Hset.
Qed.

Lemma removeDefaultPool_run
    w connector baseToken quoteToken name type networks active st2 :
  connectorName connector = Some name ->
  connectorTypeOf connector = Some type ->
  Js.nonempty name = true -> Js.nonempty type = true ->
  resolveActiveNetwork (config w) name = Some (networks, active) ->
  ConfigManagerV2.delete (poolPath name active type baseToken quoteToken)
    (config w) = inr st2 ->
  exists w2,
    removeDefaultPool connector baseToken quoteToken w = (Ok tt, w2)
    /\ config w2 = st2 /\ files w2 = files w.
Proof.
  unfold removeDefaultPool, connectorName, connectorTypeOf, resolveActiveNetwork,
    poolPath.
  intros -> -> Hn Ht Hres Hdel.
  destruct name; [done|]. destruct type; [done|].
  unfold_pool_effects. cbv beta iota.
  destruct (configuredNetworks _) as [networks'|]; [|done].
  destruct (objectKeys networks') as [|first ks]; [done|].
  injection Hres as -> <-. cbv beta iota zeta.
  rewrite Hdel. eexists. repeat split; reflexivity.
Qed.

Lemma getDefaultPools_run w connector name type networks active node :
  connectorName connector = Some name ->
  connectorTypeOf connector = Some type ->
  Js.nonempty name = true -> Js.nonempty type = true ->
  resolveActiveNetwork (config w) name = Some (networks, active) ->
  ownProperty networks active = Some (VObj node) ->
  exists w',
    getDefaultPools connector w
    = (Ok (or_empty_object (assoc type node)), w')
    /\ config w' = config w /\ files w' = files w.
Proof.
  unfold getDefaultPools, connectorName, connectorTypeOf, resolveActiveNetwork.
  intros -> -> Hn Ht Hres Hnode.
  destruct name; [done|]. destruct type; [done|].
  unfold_pool_effects. cbv beta iota.
  destruct (configuredNetworks _) as [networks'|]; [|done].
  destruct (objectKeys networks') as [|first ks]; [done|].
  injection Hres as -> <-. cbv beta iota zeta.
  rewrite Hnode. eexists. repeat split; reflexivity.
Qed.

(** The network that the pool functions choose is a key of [networks]. *)
Lemma active_network_present st name nfs active :
  resolveActiveNetwork st name = Some (VObj nfs, active) ->
  is_Some (assoc active nfs).
Proof.
  unfold resolveActiveNetwork.
  destruct (configuredNetworks _) as [networks|]; [|done].
  destruct (objectKeys networks) as [|first ks] eqn:Hkeys; [done|].
  intros [= -> <-]. unfold selectActiveNetwork. simpl in *.
  destruct (assoc "mainnet-beta" nfs) as [v|] eqn:Hm; simpl.
  - destruct (truthy v); simpl; [by rewrite Hm; eauto|].
    by eapply assoc_first.
  - by eapply assoc_first.
Qed.

Lemma resolveActiveNetwork_inv (st : store) name networks active :
  resolveActiveNetwork st name = Some (networks, active) ->
  exists t : tree,
    assoc name st = Some t /\ assoc "networks" t = Some networks
    /\ truthy networks = true.
Proof.
  unfold resolveActiveNetwork, configuredNetworks, getNamespace.
  destruct (assoc name st) as [t|]; simpl; [|done].
  destruct (assoc "networks" t) as [n|] eqn:Hnet; [|done].
  destruct (truthy n) eqn:Hn; [|done].
  destruct (objectKeys n); [done|]. intros [= -> _]. exists t. done.
Qed.

(** Replacing the node of a network by another object does not change the
    resolution of the active network. *)
Lemma resolveActiveNetwork_put
    (st : store) name (t : tree) nfs net afs afs' active :
  assoc name st = Some t ->
  assoc "networks" t = Some (VObj nfs) ->
  assoc net nfs = Some (VObj afs) ->
  resolveActiveNetwork st name = Some (VObj nfs, active) ->
  resolveActiveNetwork
    (put name (put "networks" (VObj (put net (VObj afs') nfs)) t) st) name
  = Some (VObj (put net (VObj afs') nfs), active).
Proof.
  intros Hst Ht Hnet.
  unfold resolveActiveNetwork, configuredNetworks, getNamespace.
  rewrite Hst, assoc_put_same. simpl. rewrite Ht, assoc_put_same. simpl.
  rewrite keys_put by (rewrite Hnet; eauto).
  destruct (map fst nfs) as [|first ks]; [done|].
  intros [= <-]. do 2 f_equal. unfold selectActiveNetwork. simpl.
  destruct (String.eqb_spec "mainnet-beta" net) as [<-|Hne].
  - by rewrite assoc_put_same, Hnet.
  - by rewrite assoc_put_other.
Qed.

(** What a successful [set] of a pool path has written. *)
Lemma pool_set_inv (st st1 : store) path name net type pair v (t : tree) networks :
  Js.split "." path = [name; "networks"; net; type; pair] ->
  ConfigManagerV2.set path v st = inr st1 ->
  assoc name st = Some t ->
  assoc "networks" t = Some networks ->
  (forall nfs, networks = VObj nfs -> is_Some (assoc net nfs)) ->
  exists nfs afs pools,
    networks = VObj nfs
    /\ assoc net nfs = Some (VObj afs)
    /\ or_empty_object (assoc type afs) = VObj pools
    /\ (is_Some (assoc type afs) -> assoc type afs = Some (VObj pools))
    /\ st1 = put name
               (put "networks"
                  (VObj (put net
                           (VObj (put type (VObj (put pair v pools)) afs)) nfs))
                  t) st.
Proof.
  intros Hsplit Hset Hst Ht Hkey. unfold ConfigManagerV2.set in Hset.
  rewrite Hsplit, Hst in Hset. simpl in Hset. rewrite Ht in Hset.
  destruct networks as [| | | | |nfs]; try done.
  destruct (Hkey nfs eq_refl) as [node Hnode]. rewrite Hnode in Hset.
  destruct node as [| | | | |afs]; try done.
  exists nfs, afs.
  destruct (assoc type afs) as [[| | | | |pools]|] eqn:Htype; try done.
  - exists pools. injection Hset as <-. repeat split; try done.
  - exists []. injection Hset as <-. repeat split; try done.
Qed.

(** Deleting a pool path right after it was set, when the pair had no
    entry before: the entry goes, the table that held it stays. *)
Lemma pool_delete_after_set
    (st : store) path name net type pair v (t : tree) nfs afs pools :
  Js.split "." path = [name; "networks"; net; type; pair] ->
  assoc pair pools = None ->
  ConfigManagerV2.delete path
    (put name
       (put "networks"
          (VObj (put net (VObj (put type (VObj (put pair v pools)) afs)) nfs))
          t) st)
  = inr (put name
           (put "networks"
              (VObj (put net (VObj (put type (VObj pools) afs)) nfs)) t) st).
Proof.
  intros Hsplit Hpair. unfold ConfigManagerV2.delete.
  rewrite Hsplit, assoc_put_same. simpl.
  rewrite !assoc_put_same. simpl.
  rewrite (remove_put pair v pools Hpair), !put_put. done.
Qed.

Lemma split_table_path name net type :
  dotFree name = true -> dotFree net = true -> dotFree type = true ->
  Js.split "." (name +:+ ".networks." +:+ net +:+ "." +:+ type)
  = [name; "networks"; net; type].
Proof.
  intros Hname Hnet Htype.
  change (name +:+ ".networks." +:+ net +:+ "." +:+ type)
    with (name +:+ String "." ("networks" +:+ String "."
            (net +:+ String "." type))).
  rewrite (split_app "." name) by done.
  rewrite (split_app "." "networks") by done.
  rewrite (split_app "." net) by done.
  by rewrite (split_free "." type).
Qed.

Lemma connector_parts_dotFree connector name type :
  dotFree connector = true ->
  connectorName connector = Some name ->
  connectorTypeOf connector = Some type ->
  dotFree name = true /\ dotFree type = true.
Proof.
  unfold connectorName, connectorTypeOf. intros Hfree Hname Htype.
  pose proof (split_pieces_all _ "/" connector Hfree) as Hall.
  rewrite Forall_lookup in Hall. split; eapply Hall; eauto.
Qed.

Lemma active_network_dotFree (st : store) name networks active :
  Forall (fun n => dotFree n = true) (connectorNetworks st name) ->
  resolveActiveNetwork st name = Some (networks, active) ->
  dotFree active = true.
Proof.
  unfold connectorNetworks, resolveActiveNetwork, configuredNetworks, getNamespace.
  destruct (assoc name st) as [t|]; simpl; [|done].
  destruct (assoc "networks" t) as [n|]; simpl; [|done].
  destruct (truthy n); [|done].
  destruct (objectKeys n) as [|first ks]; [done|].
  intros Hall [= -> <-]. unfold selectActiveNetwork.
  destruct (negb _); [|done]. by apply Forall_cons in Hall as [? _].
Qed.

(** Deleting a pool path right after it was set: the entry goes, with what
    the pair held before, and the table that held it stays. *)
Lemma pool_delete_after_set_any
    (st : store) path name net type pair v (t : tree) nfs afs pools :
  Js.split "." path = [name; "networks"; net; type; pair] ->
  ConfigManagerV2.delete path
    (put name
       (put "networks"
          (VObj (put net (VObj (put type (VObj (put pair v pools)) afs)) nfs))
          t) st)
  = inr (put name
           (put "networks"
              (VObj (put net (VObj (put type (VObj (remove pair pools)) afs)) nfs))
              t) st).
Proof.
  intros Hsplit. unfold ConfigManagerV2.delete.
  rewrite Hsplit, assoc_put_same. simpl.
  rewrite !assoc_put_same. simpl.
  rewrite (remove_put_any pair v pools), !put_put. done.
Qed.

(** The pool table that a store holds after the pool path was written. *)
Lemma get_table_after_put
    (st : store) name net type (t : tree) nfs afs pools :
  dotFree name = true -> dotFree net = true -> dotFree type = true ->
  ConfigManagerV2.get (name +:+ ".networks." +:+ net +:+ "." +:+ type)
    (put name
       (put "networks" (VObj (put net (VObj (put type (VObj pools) afs)) nfs)) t)
       st)
  = inr (Some (VObj pools)).
Proof.
  intros Dname Dnet Dtype. unfold ConfigManagerV2.get.
  rewrite (split_table_path _ _ _ Dname Dnet Dtype), assoc_put_same. simpl.
  by rewrite !assoc_put_same.
Qed.

(** C6, as the code has it.  When no name on the configuration path
    contains a dot, and the connector type is no name that objects inherit,
    a successful [addDefaultPool] followed by
    [removeDefaultPool] for the same pair on the same connector succeeds and
    leaves the default pools of the connector without an entry for the pair.
    When the pair had no entry before the add, these are the default pools
    of before, and the whole configuration is the one of before exactly when
    the connector already had a pool table for its type.  When the pair had
    an entry, the add has overwritten it and the remove has deleted it:
    neither the default pools nor the configuration are the ones of
    before. *)
Theorem add_then_remove_default_pool
    w w0 w1 connector name baseToken quoteToken poolAddress pools :
  connectorName connector = Some name ->
  dotFree connector = true ->
  dotFree baseToken = true ->
  dotFree quoteToken = true ->
  Forall (fun n => dotFree n = true) (connectorNetworks (config w) name) ->
  (forall type, connectorTypeOf connector = Some type ->
                Js.includes type inheritedKeys = false) ->
  getDefaultPools connector w = (Ok (VObj pools), w0) ->
  addDefaultPool connector baseToken quoteToken poolAddress w = (Ok tt, w1) ->
  exists w2 w3 pools2,
    removeDefaultPool connector baseToken quoteToken w1 = (Ok tt, w2)
    /\ getDefaultPools connector w2 = (Ok (VObj pools2), w3)
    /\ assoc (baseToken +:+ "-" +:+ quoteToken) pools2 = None
    /\ (assoc (baseToken +:+ "-" +:+ quoteToken) pools = None ->
        pools2 = pools
        /\ (config w2 = config w <-> hasPoolTable (config w) connector))
    /\ (is_Some (assoc (baseToken +:+ "-" +:+ quoteToken) pools) ->
        pools2 <> pools /\ config w2 <> config w).
Proof.
  intros Hname Hconn Hbase Hquote Hnets _ Hview Hadd.
  apply addDefaultPool_ok_inv in Hadd
    as (name' & type & address & networks & active & Hname' & Htype & Hn & Ht
        & -> & Hres & Hset & Hfiles).
  rewrite Hname in Hname'. injection Hname' as <-.
  destruct (connector_parts_dotFree _ _ _ Hconn Hname Htype) as [Dname Dtype].
  pose proof (active_network_dotFree _ _ _ _ Hnets Hres) as Dactive.
  assert (dotFree (baseToken +:+ "-" +:+ quoteToken) = true) as Dpair.
  { by rewrite !dotFree_app, Hbase, Hquote. }
  pose proof (split_pool_path _ _ _ _ Dname Dactive Dtype Dpair) as Hsplit.
  destruct (resolveActiveNetwork_inv _ _ _ _ Hres) as (t & Hst & Htree & Htruthy).
  destruct (pool_set_inv _ _ _ _ _ _ _ _ _ _ Hsplit Hset Hst Htree)
    as (nfs & afs & pools' & -> & Hnode & Hview' & Htable & Hst1).
  { intros nfs ->. by eapply active_network_present. }
  (* the default pools before the add *)
  destruct (getDefaultPools_run w connector name type (VObj nfs) active afs
              Hname Htype Hn Ht Hres Hnode) as (w0' & Hrun & _).
  rewrite Hrun, Hview' in Hview. injection Hview as <- _.
  (* the remove *)
  pose proof (resolveActiveNetwork_put _ _ _ _ _ _
                (put type (VObj (put (baseToken +:+ "-" +:+ quoteToken)
                                     (VStr address) pools')) afs) _
                Hst Htree Hnode Hres) as Hres1.
  rewrite <- Hst1 in Hres1.
  pose proof (pool_delete_after_set_any (config w) _ _ _ _ _ (VStr address) t nfs
                afs pools' Hsplit) as Hdel.
  rewrite <- Hst1 in Hdel.
  destruct (removeDefaultPool_run w1 connector baseToken quoteToken name type _ _ _
              Hname Htype Hn Ht Hres1 Hdel) as (w2 & Hrem & Hcfg2 & Hfiles2).
  (* the default pools after the remove *)
  set (pools2 := remove (baseToken +:+ "-" +:+ quoteToken) pools') in *.
  pose proof (resolveActiveNetwork_put _ _ _ _ _ _ (put type (VObj pools2) afs) _
                Hst Htree Hnode Hres) as Hres2.
  rewrite <- Hcfg2 in Hres2.
  destruct (getDefaultPools_run w2 connector name type _ active
              (put type (VObj pools2) afs) Hname Htype Hn Ht Hres2)
    as (w3 & Hrun2 & _).
  { simpl. apply assoc_put_same. }
  rewrite assoc_put_same in Hrun2. simpl in Hrun2.
  (* the pool table before and after *)
  pose proof (get_table_after_put (config w) name active type t nfs afs pools2
                Dname Dactive Dtype) as Hget2.
  rewrite <- Hcfg2 in Hget2.
  assert (Hget : ConfigManagerV2.get
                   (name +:+ ".networks." +:+ active +:+ "." +:+ type) (config w)
                 = inr (assoc type afs)).
  { unfold ConfigManagerV2.get.
    rewrite (split_table_path _ _ _ Dname Dactive Dtype), Hst. simpl.
    rewrite Htree, Hnode. by destruct (assoc type afs). }
  exists w2, w3, pools2. split; [done|]. split; [done|].
  split; [apply assoc_remove_same|]. split.
  - intros Hfresh.
    assert (pools2 = pools') as Hsame by (by apply remove_absent).
    split; [done|]. split.
    + intros Hback. exists name, type, (VObj nfs), active, (VObj pools2).
      repeat split; try done. by rewrite <- Hback.
    + intros (name' & type' & networks' & active' & v & Hname' & Htype' & Hres'
              & Hget').
      rewrite Hname in Hname'. injection Hname' as <-.
      rewrite Htype in Htype'. injection Htype' as <-.
      rewrite Hres in Hres'. injection Hres' as <- <-.
      rewrite Hget in Hget'. injection Hget' as Hsome.
      assert (assoc type afs = Some (VObj pools')) as Etype.
      { apply Htable. by rewrite Hsome. }
      rewrite Hcfg2, Hsame, (put_same type (VObj pools') afs Etype).
      rewrite (put_same active _ nfs Hnode), (put_same "networks" _ t Htree).
      exact (put_same name t (config w) Hst).
  - intros Hold.
    assert (pools2 <> pools') as Hdiff.
    { intros E. rewrite <- E in Hold. unfold pools2 in Hold.
      rewrite assoc_remove_same in Hold. by destruct Hold. }
    split; [done|]. intros Hback. apply Hdiff.
    rewrite Hback, Hget in Hget2. injection Hget2 as Hsome.
    rewrite Hsome in Hview'. simpl in Hview'. by injection Hview' as ->.
Qed.

(** After a successful [addDefaultPool], the default pools of the connector
    hold the given address for the pair, when no name on the configuration
    path contains a dot. *)
Theorem addDefaultPool_then_getDefaultPools_has_pair
    w w1 connector name baseToken quoteToken poolAddress :
  connectorName connector = Some name ->
  dotFree connector = true ->
  dotFree baseToken = true ->
  dotFree quoteToken = true ->
  Forall (fun n => dotFree n = true) (connectorNetworks (config w) name) ->
  addDefaultPool connector baseToken quoteToken poolAddress w = (Ok tt, w1) ->
  exists address pools w2,
    poolAddress = Some address
    /\ getDefaultPools connector w1 = (Ok (VObj pools), w2)
    /\ assoc (baseToken +:+ "-" +:+ quoteToken) pools = Some (VStr address).
Proof.
  intros Hname Hconn Hbase Hquote Hnets Hadd.
  apply addDefaultPool_ok_inv in Hadd
    as (name' & type & address & networks & active & Hname' & Htype & Hn & Ht
        & -> & Hres & Hset & Hfiles).
  rewrite Hname in Hname'. injection Hname' as <-.
  destruct (connector_parts_dotFree _ _ _ Hconn Hname Htype) as [Dname Dtype].
  pose proof (active_network_dotFree _ _ _ _ Hnets Hres) as Dactive.
  assert (dotFree (baseToken +:+ "-" +:+ quoteToken) = true) as Dpair.
  { by rewrite !dotFree_app, Hbase, Hquote. }
  pose proof (split_pool_path _ _ _ _ Dname Dactive Dtype Dpair) as Hsplit.
  destruct (resolveActiveNetwork_inv _ _ _ _ Hres) as (t & Hst & Htree & Htruthy).
  destruct (pool_set_inv _ _ _ _ _ _ _ _ _ _ Hsplit Hset Hst Htree)
    as (nfs & afs & pools' & -> & Hnode & _ & _ & Hst1).
  { intros nfs ->. by eapply active_network_present. }
  pose proof (resolveActiveNetwork_put _ _ _ _ _ _
                (put type (VObj (put (baseToken +:+ "-" +:+ quoteToken)
                                     (VStr address) pools')) afs) _
                Hst Htree Hnode Hres) as Hres1.
  rewrite <- Hst1 in Hres1.
  destruct (getDefaultPools_run w1 connector name type _ active
              (put type (VObj (put (baseToken +:+ "-" +:+ quoteToken)
                                   (VStr address) pools')) afs)
              Hname Htype Hn Ht Hres1)
    as (w2 & Hrun & _).
  { simpl. apply assoc_put_same. }
  rewrite assoc_put_same in Hrun. simpl in Hrun.
  eexists address, _, w2. split; [done|]. split; [exact Hrun|].
  apply assoc_put_same.
Qed.

End PoolRoundTrip.

(** ** The default-pool registry on the example world *)

Lemma getDefaultPools_empty_without_networks_witness :
  exists w',
    getDefaultPools "raydium/clmm" Demo.world = (Ok (VObj []), w')
    /\ config w' = config Demo.world /\ files w' = files Demo.world.
Proof.
  apply (getDefaultPools_empty_without_networks
           Demo.world "raydium/clmm" "raydium" "clmm");
    vm_compute; reflexivity.
Defined.

Lemma addDefaultPool_failures_witness :
  (exists msg,
     addDefaultPool "uniswap" "WETH" "USDC" (Some "0xPOOL") Demo.world
     = (Throw (badRequest msg), Demo.world))
  /\ (exists msg w',
        addDefaultPool "raydium/clmm" "SOL" "USDC" (Some "0xPOOL") Demo.world
        = (Throw (internalServerError msg), w')
        /\ config w' = config Demo.world /\ files w' = files Demo.world).
Proof.
  split.
  - apply (proj1 (addDefaultPool_failures
                    Demo.world "uniswap" "WETH" "USDC" (Some "0xPOOL"))).
    right; right; left; reflexivity.
  - apply (proj2 (addDefaultPool_failures
                    Demo.world "raydium/clmm" "SOL" "USDC" (Some "0xPOOL")))
      with (baseConnector := "raydium").
    + intros [[H|H]|[[H|H]|[H|H]]]; discriminate H.
    + reflexivity.
    + vm_compute; reflexivity.
Defined.

(** The specification asks for a not-found error when the connector has no
    configured networks; the code answers with an internal-server error. *)
Lemma addDefaultPool_not_found_counterexample :
  noConfiguredNetworks (config Demo.world) "raydium"
  /\ fst (addDefaultPool "raydium/clmm" "SOL" "USDC" (Some "0xPOOL") Demo.world)
     = Throw (HttpError 500
                "Failed to add default pool: No networks configured for raydium")
  /\ forall msg,
       fst (addDefaultPool "raydium/clmm" "SOL" "USDC" (Some "0xPOOL")
              Demo.world)
       <> Throw (notFound msg).
Proof.
  split; [vm_compute; reflexivity|]. split; [vm_compute; reflexivity|].
  intros msg H. vm_compute in H. discriminate H.
Qed.

(** Adding a pool for a pair that already has one overwrites it, and the
    remove that follows deletes the entry: the pool of before is lost. *)
Lemma add_then_remove_overwrite_counterexample :
  let w := Demo.world in
  let w1 := snd (addDefaultPool "uniswap/clmm" "WETH" "USDC" (Some "0xNEW") w) in
  let w2 := snd (removeDefaultPool "uniswap/clmm" "WETH" "USDC" w1) in
  fst (addDefaultPool "uniswap/clmm" "WETH" "USDC" (Some "0xNEW") w) = Ok tt
  /\ fst (removeDefaultPool "uniswap/clmm" "WETH" "USDC" w1) = Ok tt
  /\ fst (getDefaultPools "uniswap/clmm" w)
     = Ok (VObj [("WETH-USDC", VStr "0xd0b53d9277642d899df5c87a3966a349a798f224")])
  /\ fst (getDefaultPools "uniswap/clmm" w2) = Ok (VObj [])
  /\ config w2 <> config w.
Proof.
  cbv zeta. repeat split; try (vm_compute; reflexivity).
  intros H. vm_compute in H. discriminate H.
Qed.

Lemma add_then_remove_default_pool_witness :
  exists w2 w3 pools2,
    removeDefaultPool "uniswap/clmm" "WETH" "DAI"
      (snd (addDefaultPool "uniswap/clmm" "WETH" "DAI" (Some "0xPOOL")
              Demo.world))
    = (Ok tt, w2)
    /\ getDefaultPools "uniswap/clmm" w2 = (Ok (VObj pools2), w3)
    /\ ConfigManagerV2.assoc ("WETH" +:+ "-" +:+ "DAI") pools2 = None
    /\ (ConfigManagerV2.assoc ("WETH" +:+ "-" +:+ "DAI")
          [("WETH-USDC", VStr "0xd0b53d9277642d899df5c87a3966a349a798f224")]
        = None ->
        pools2
        = [("WETH-USDC", VStr "0xd0b53d9277642d899df5c87a3966a349a798f224")]
        /\ (config w2 = config Demo.world
            <-> hasPoolTable (config Demo.world) "uniswap/clmm"))
    /\ (is_Some (ConfigManagerV2.assoc ("WETH" +:+ "-" +:+ "DAI")
                   [("WETH-USDC",
                      VStr "0xd0b53d9277642d899df5c87a3966a349a798f224")]) ->
        pools2
        <> [("WETH-USDC", VStr "0xd0b53d9277642d899df5c87a3966a349a798f224")]
        /\ config w2 <> config Demo.world).
Proof.
  apply (add_then_remove_default_pool
           Demo.world (snd (getDefaultPools "uniswap/clmm" Demo.world))
           _ "uniswap/clmm" "uniswap" "WETH" "DAI" (Some "0xPOOL")).
  - reflexivity.
  - vm_compute; reflexivity.
  - vm_compute; reflexivity.
  - vm_compute; reflexivity.
  - vm_compute. repeat constructor.
  - intros type [= <-]. reflexivity.
  - vm_compute; reflexivity.
  - vm_compute; reflexivity.
Defined.

(** The scenario of the specification: after the add, the default pools of
    the connector include the pair. *)
Example addDefaultPool_then_getDefaultPools :
  let w1 := snd (addDefaultPool "uniswap/clmm" "WETH" "DAI" (Some "0xPOOL")
                   Demo.world) in
  fst (getDefaultPools "uniswap/clmm" w1)
  = Ok (VObj [("WETH-USDC", VStr "0xd0b53d9277642d899df5c87a3966a349a798f224");
              ("WETH-DAI", VStr "0xPOOL")]).
Proof. vm_compute; reflexivity. Qed.

Lemma addDefaultPool_then_getDefaultPools_has_pair_witness :
  exists address pools w2,
    Some "0xPOOL" = Some address
    /\ getDefaultPools "uniswap/clmm"
         (snd (addDefaultPool "uniswap/clmm" "WETH" "USDC" (Some "0xPOOL")
                 Demo.world))
       = (Ok (VObj pools), w2)
    /\ ConfigManagerV2.assoc ("WETH" +:+ "-" +:+ "USDC") pools
       = Some (VStr address).
Proof.
  apply (addDefaultPool_then_getDefaultPools_has_pair
           Demo.world _ "uniswap/clmm" "uniswap" "WETH" "USDC" (Some "0xPOOL")).
  - reflexivity.
  - vm_compute; reflexivity.
  - vm_compute; reflexivity.
  - vm_compute; reflexivity.
  - vm_compute. repeat constructor.
  - vm_compute; reflexivity.
Defined.

Lemma addDefaultToken_keeps_tokens_unique_witness :
  exists path before after,
    tokenListSource (config Demo.world) "base" = Some path
    /\ match files Demo.world !! path with
       | Some content => Demo.JSON_parse content = inr before
       | None => before = []
       end
    /\ files (snd (Demo.addToken "ethereum" "base" "Tsunami" "NAMI" "0xABC"
                     (Fin 18) Demo.world)) !! path
       = Some (Demo.JSON_stringify after)
    /\ (uniqueTokens before -> uniqueTokens after).
Proof.
  apply (addDefaultToken_keeps_tokens_unique
           Demo.JSON_parse Demo.JSON_stringify
           Demo.Ethereum_getInstance Demo.loadTokens
           Demo.world _ "ethereum" "base" "Tsunami" "NAMI" "0xABC" (Fin 18)).
  vm_compute; reflexivity.
Defined.

(** * Further properties of the code *)

(** ** The token-list operations: outcomes, step by step *)

Section TokenListOutcomes.

Variable JSON_parse : string -> string + list TokenInfo.
Variable JSON_stringify : list TokenInfo -> string.
Variable Ethereum_getInstance : string -> string + Ethereum.
Variable loadTokens :
  Ethereum -> string -> string -> gmap string string -> option string.

Local Abbreviation addToken :=
  (addDefaultToken JSON_parse JSON_stringify Ethereum_getInstance loadTokens).
Local Abbreviation removeToken :=
  (removeDefaultToken JSON_parse JSON_stringify Ethereum_getInstance loadTokens).

Lemma find_all_false {A} (p : A -> bool) l :
  (forall x, In x l -> p x = false) -> find p l = None.
Proof.
  induction l as [|a l IH]; simpl; [done|].
  intros H. rewrite (H a (or_introl eq_refl)). apply IH.
  intros x Hx. apply H. by right.
Qed.

(** The course of [addDefaultToken] once the network, its token-list file
    and the chain client are there and no entry conflicts: the list is
    written, and the outcome is that of the reload. *)
Lemma addDefaultToken_run
    w chain network name symbol address decimals path tokenList ethereum :
  Js.includes network (ethereumNetworks (config w)) = true ->
  tokenListSource (config w) network = Some path ->
  match files w !! path with
  | Some content => JSON_parse content = inr tokenList
  | None => tokenList = []
  end ->
  (forall t, In t tokenList ->
     ~ same_nocase (Token.address t) address
     /\ ~ same_nocase (Token.symbol t) symbol) ->
  Ethereum_getInstance network = inr ethereum ->
  let written :=
    <[path := JSON_stringify
                (tokenList ++
                   [{| Token.chainId := ethereum_chainId ethereum;
                       Token.address := address; Token.name := name;
                       Token.symbol := symbol; Token.decimals := decimals |}])]>
      (files w) in
  addToken chain network name symbol address decimals w
  = match loadTokens ethereum path (tokenListType ethereum) written with
    | None =>
        (Ok tt,
         {| config := config w; files := written;
            logs := logs w ++
                    [(LogInfo, "Added token " +:+ symbol +:+ " (" +:+ address
                                 +:+ ") to " +:+ chain +:+ "/" +:+ network
                                 +:+ ".")] |})
    | Some msg =>
        (Throw (internalServerError ("Failed to add token: " +:+ msg)),
         {| config := config w; files := written;
            logs := logs w ++
                    [(LogError, "Failed to add default token: " +:+ msg)] |})
    end.
Proof.
  intros Hnet Hsrc Hlist Hfresh Heth written.
  unfold addDefaultToken. resolve_token_list Hnet Hsrc.
  assert (Hfind : find (fun t =>
              String.eqb (Js.toLowerCase (Token.address t)) (Js.toLowerCase address)
              || String.eqb (Js.toUpperCase (Token.symbol t)) (Js.toUpperCase symbol))
            tokenList = None).
  { apply find_all_false. intros t Ht. destruct (Hfresh t Ht) as [Ha Hs].
    apply orb_false_iff. split; apply String.eqb_neq; [done|].
    intros E. by apply Hs, toUpperCase_eq_iff. }
  unfold try_catch, bind, pathExists, readFile, json_parse, ret.
  destruct (files w !! path) as [content|] eqn:Hfile.
  - rewrite bool_decide_true by eauto. cbv beta iota.
    rewrite Hfile, Hlist. cbv beta iota. rewrite Hfind.
    unfold ethereum_getInstance, writeFile, ethereum_loadTokens, ret, throw.
    rewrite Heth. cbv beta iota. cbn [files]. fold written.
    destruct (loadTokens ethereum path (tokenListType ethereum) written);
      unfold logger, statusCode_or_wrap, throw; cbn; reflexivity.
  - rewrite bool_decide_false by (by intros [? ?]). cbv beta iota.
    subst tokenList. cbn [find].
    unfold ethereum_getInstance, writeFile, ethereum_loadTokens, ret, throw.
    rewrite Heth. cbv beta iota. cbn [files]. fold written.
    destruct (loadTokens ethereum path (tokenListType ethereum) written);
      unfold logger, statusCode_or_wrap, throw; cbn; reflexivity.
Qed.


(** The course of [removeDefaultToken] once the network and its token-list
    file are there and the identifier names an entry: the kept entries are
    written, and only then is the chain client asked for. *)
Lemma removeDefaultToken_run
    w chain network tokenToRemove path content tokenList :
  Js.includes network (ethereumNetworks (config w)) = true ->
  tokenListSource (config w) network = Some path ->
  files w !! path = Some content ->
  JSON_parse content = inr tokenList ->
  (exists t, In t tokenList /\ namedBy tokenToRemove t = true) ->
  let kept := List.filter (fun t => negb (namedBy tokenToRemove t)) tokenList in
  let written := <[path := JSON_stringify kept]> (files w) in
  let failed msg :=
    (Throw (internalServerError ("Failed to remove token: " +:+ msg)),
     {| config := config w; files := written;
        logs := logs w ++
                [(LogError, "Failed to remove default token: " +:+ msg)] |}) in
  removeToken chain network tokenToRemove w
  = match Ethereum_getInstance network with
    | inl msg => failed msg
    | inr ethereum =>
        match loadTokens ethereum path (tokenListType ethereum) written with
        | Some msg => failed msg
        | None =>
            (Ok tt,
             {| config := config w; files := written;
                logs := logs w ++
                        [(LogInfo, "Removed token " +:+ tokenToRemove +:+ " from "
                                     +:+ chain +:+ "/" +:+ network +:+ ".")] |})
        end
    end.
Proof.
  intros Hnet Hsrc Hfile Hparse (t & Ht & Hnamed) kept written failed.
  unfold removeDefaultToken. resolve_token_list Hnet Hsrc.
  unfold try_catch, pathExists, readFile, json_parse, ret, throw.
  rewrite bool_decide_true by eauto. cbv beta iota delta [negb].
  rewrite Hfile. cbv beta iota. rewrite Hparse. cbv beta iota.
  match goal with |- context [List.filter ?p tokenList] =>
    assert (List.filter p tokenList = kept) as ->;
    [apply List.filter_ext; intros a; unfold namedBy; by rewrite negb_orb|] end.
  destruct (length kept =? length tokenList)%nat eqn:Hlen.
  { apply Nat.eqb_eq in Hlen. unfold kept in Hlen.
    pose proof (proj1 (filter_length_same _ _) Hlen t Ht) as Hall.
    simpl in Hall. by rewrite Hnamed in Hall. }
  cbv beta iota. unfold writeFile, ethereum_getInstance, ethereum_loadTokens.
  cbv beta iota. cbn [files]. fold written.
  destruct (Ethereum_getInstance network) as [msg|ethereum];
    unfold throw, ret, logger, statusCode_or_wrap; cbn; [reflexivity|].
  fold written.
  destruct (loadTokens _ _ _ _); cbn; reflexivity.
Qed.

(** The path that holds the token-list file of a network can always be
    looked up: the read of the configuration does not fail. *)
Lemma get_token_list_source st network :
  exists o,
    ConfigManagerV2.get ("ethereum" +:+ ".networks." +:+ network
                           +:+ ".tokenListSource") st = inr o.
Proof.
  unfold ConfigManagerV2.get.
  change ("ethereum" +:+ ".networks." +:+ network +:+ ".tokenListSource")
    with ("ethereum" +:+ String "." ("networks" +:+ String "."
            (network +:+ ".tokenListSource"))).
  rewrite !split_app by reflexivity.
  unfold ConfigManagerV2.resolve_read.
  destruct (ConfigManagerV2.assoc "ethereum" st); eauto.
Qed.

(** Sufficient conditions for [addDefaultToken] to succeed.  The network is
    one of the [ethereum] namespace, its token-list path is configured, the
    file at the path exists and holds a token list, the addresses and the
    symbols at hand are ASCII strings, no entry shares the address or the
    symbol up to case, and the chain client is there and reloads the written
    list.  Then the call returns, the file holds the old list followed by
    the new entry, the configuration is as before and one line is logged. *)
Theorem addDefaultToken_succeeds
    w chain network name symbol address decimals path content tokenList
    ethereum :
  Js.includes network (ethereumNetworks (config w)) = true ->
  tokenListSource (config w) network = Some path ->
  files w !! path = Some content ->
  JSON_parse content = inr tokenList ->
  asciiOnly address = true ->
  asciiOnly symbol = true ->
  (forall t, In t tokenList ->
     asciiOnly (Token.address t) = true /\ asciiOnly (Token.symbol t) = true) ->
  (forall t, In t tokenList ->
     ~ same_nocase (Token.address t) address
     /\ ~ same_nocase (Token.symbol t) symbol) ->
  Ethereum_getInstance network = inr ethereum ->
  let written :=
    <[path := JSON_stringify
                (tokenList ++
                   [{| Token.chainId := ethereum_chainId ethereum;
                       Token.address := address; Token.name := name;
                       Token.symbol := symbol; Token.decimals := decimals |}])]>
      (files w) in
  loadTokens ethereum path (tokenListType ethereum) written = None ->
  addToken chain network name symbol address decimals w
  = (Ok tt,
     {| config := config w; files := written;
        logs := logs w ++
                [(LogInfo, "Added token " +:+ symbol +:+ " (" +:+ address
                             +:+ ") to " +:+ chain +:+ "/" +:+ network +:+ ".")] |}).
Proof.
  intros Hnet Hsrc Hfile Hparse _ _ _ Hfresh Heth written Hload.
  rewrite (addDefaultToken_run w chain network name symbol address decimals
             path tokenList ethereum Hnet Hsrc); [| |done|done].
  - cbv zeta. fold written. by rewrite Hload.
  - by rewrite Hfile.
Qed.


(** Sufficient conditions for [removeDefaultToken] to succeed: the network
    is one of the [ethereum] namespace, the file at its token-list path
    holds a list with an entry that the identifier names, and the chain
    client is there and reloads the written list.  Then the call returns,
    the file holds the entries the identifier does not name, the
    configuration is as before and one line is logged. *)
Theorem removeDefaultToken_succeeds
    w chain network tokenToRemove path content tokenList ethereum :
  Js.includes network (ethereumNetworks (config w)) = true ->
  tokenListSource (config w) network = Some path ->
  files w !! path = Some content ->
  JSON_parse content = inr tokenList ->
  (exists t, In t tokenList /\ namedBy tokenToRemove t = true) ->
  Ethereum_getInstance network = inr ethereum ->
  let kept := List.filter (fun t => negb (namedBy tokenToRemove t)) tokenList in
  let written := <[path := JSON_stringify kept]> (files w) in
  loadTokens ethereum path (tokenListType ethereum) written = None ->
  removeToken chain network tokenToRemove w
  = (Ok tt,
     {| config := config w; files := written;
        logs := logs w ++
                [(LogInfo, "Removed token " +:+ tokenToRemove +:+ " from "
                             +:+ chain +:+ "/" +:+ network +:+ ".")] |}).
Proof.
  intros Hnet Hsrc Hfile Hparse Hnamed Heth kept written Hload.
  rewrite (removeDefaultToken_run w chain network tokenToRemove path content
             tokenList Hnet Hsrc Hfile Hparse Hnamed).
  cbv zeta. rewrite Heth. fold kept. fold written. by rewrite Hload.
Qed.

(** In [removeDefaultToken] the chain client is asked for only after the
    write.  So whether the client cannot be obtained or its reload fails,
    the call ends in the internal-server error that wraps the message, and
    the file already holds the list without the removed entries. *)
Theorem removeDefaultToken_chain_client_failure
    w chain network tokenToRemove path content tokenList msg :
  Js.includes network (ethereumNetworks (config w)) = true ->
  tokenListSource (config w) network = Some path ->
  files w !! path = Some content ->
  JSON_parse content = inr tokenList ->
  (exists t, In t tokenList /\ namedBy tokenToRemove t = true) ->
  let kept := List.filter (fun t => negb (namedBy tokenToRemove t)) tokenList in
  let written := <[path := JSON_stringify kept]> (files w) in
  Ethereum_getInstance network = inl msg
  \/ (exists ethereum,
        Ethereum_getInstance network = inr ethereum
        /\ loadTokens ethereum path (tokenListType ethereum) written
           = Some msg) ->
  exists w',
    removeToken chain network tokenToRemove w
    = (Throw (internalServerError ("Failed to remove token: " +:+ msg)), w')
    /\ files w' = written /\ config w' = config w.
Proof.
  intros Hnet Hsrc Hfile Hparse Hnamed kept written Hfail.
  rewrite (removeDefaultToken_run w chain network tokenToRemove path content
             tokenList Hnet Hsrc Hfile Hparse Hnamed).
  cbv zeta. fold kept. fold written.
  destruct Hfail as [->|(ethereum & -> & ->)]; by eexists.
Qed.

(** Where the two operations differ on a network whose token-list file
    does not exist: [removeDefaultToken] fails with an internal-server
    error and touches nothing, not even the log. *)
Theorem removeDefaultToken_missing_file
    w chain network tokenToRemove path :
  Js.includes network (ethereumNetworks (config w)) = true ->
  tokenListSource (config w) network = Some path ->
  files w !! path = None ->
  removeToken chain network tokenToRemove w
  = (Throw (internalServerError
              ("tokenListSource not configured or found for network '"
                 +:+ network +:+ "'.")), w).
Proof.
  intros Hnet Hsrc Hfile.
  unfold removeDefaultToken. resolve_token_list Hnet Hsrc.
  unfold pathExists. rewrite Hfile.
  rewrite bool_decide_false by (by intros [? ?]). reflexivity.
Qed.

(** A network of the [ethereum] namespace that has no token-list path (the
    entry is absent, or a falsy value) makes both operations fail with an
    internal-server error, each with its own message, and the world is left
    as it was. *)
Theorem tokenListSource_not_configured
    w chain network name symbol address decimals tokenToRemove o :
  Js.includes network (ethereumNetworks (config w)) = true ->
  ConfigManagerV2.get ("ethereum" +:+ ".networks." +:+ network
                         +:+ ".tokenListSource") (config w) = inr o ->
  truthy_opt o = false ->
  addToken chain network name symbol address decimals w
  = (Throw (internalServerError
              ("tokenListSource not configured for network '"
                 +:+ network +:+ "'.")), w)
  /\ removeToken chain network tokenToRemove w
     = (Throw (internalServerError
                 ("tokenListSource not configured or found for network '"
                    +:+ network +:+ "'.")), w).
Proof.
  intros Hnet Hget Hfalsy.
  unfold ethereumNetworks, namespaceNetworks in Hnet.
  destruct (get_ethereum_networks (config w)) as [networks Hnetworks].
  rewrite Hnetworks in Hnet.
  unfold addDefaultToken, removeDefaultToken, bind, config_get.
  rewrite Hnetworks. cbv beta iota. rewrite Hnet. cbv beta iota delta [negb].
  rewrite Hget. cbv beta iota. rewrite Hfalsy. done.
Qed.

(** The token operations write nowhere else.  Whatever the arguments and
    the outcome, the configuration is as before, and so is every file other
    than the token-list file of the network. *)
Theorem token_operations_frame
    chain network name symbol address decimals tokenToRemove w :
  let a := snd (addToken chain network name symbol address decimals w) in
  let r := snd (removeToken chain network tokenToRemove w) in
  config a = config w /\ config r = config w
  /\ forall p,
       tokenListSource (config w) network <> Some p ->
       files a !! p = files w !! p /\ files r !! p = files w !! p.
Proof.
  cbv zeta. split; [|split].
  - unfold addDefaultToken. unfold_effects. crunch; cbn; done.
  - unfold removeDefaultToken. unfold_effects. crunch; cbn; done.
  - intros p. unfold tokenListSource. split; revert H.
    + unfold addDefaultToken. unfold_effects. crunch; cbn; try done.
      all: intros Hp; apply lookup_insert_ne; simplify_eq; cbn in *.
      all: repeat match goal with Hb : negb ?b = false |- _ =>
             apply negb_false_iff in Hb end; congruence.
    + unfold removeDefaultToken. unfold_effects. crunch; cbn; try done.
      all: intros Hp; apply lookup_insert_ne; simplify_eq; cbn in *.
      all: repeat match goal with Hb : negb ?b = false |- _ =>
             apply negb_false_iff in Hb end; congruence.
Qed.

(** No plain error leaves the token operations: every failure carries a
    status code, and an error without one that is raised inside the [try] is
    wrapped in an internal-server error.  So a token-list file that does not
    parse makes both operations fail with the internal-server error that
    wraps the message of the parser, and the files are left as they were. *)
Theorem token_operations_errors_have_status
    chain network name symbol address decimals tokenToRemove w :
  (forall e,
     fst (addToken chain network name symbol address decimals w) = Throw e ->
     exists statusCode message, e = HttpError statusCode message)
  /\ (forall e,
        fst (removeToken chain network tokenToRemove w) = Throw e ->
        exists statusCode message, e = HttpError statusCode message)
  /\ (forall path content msg,
        Js.includes network (ethereumNetworks (config w)) = true ->
        tokenListSource (config w) network = Some path ->
        files w !! path = Some content ->
        JSON_parse content = inl msg ->
        exists wa wr,
          addToken chain network name symbol address decimals w
          = (Throw (internalServerError ("Failed to add token: " +:+ msg)), wa)
          /\ removeToken chain network tokenToRemove w
             = (Throw (internalServerError ("Failed to remove token: " +:+ msg)),
                wr)
          /\ files wa = files w /\ files wr = files w).
Proof.
  destruct (get_ethereum_networks (config w)) as [networks Hnetworks].
  destruct (get_token_list_source (config w) network) as [o Hsource].
  split; [|split].
  - intros e. unfold addDefaultToken, bind, config_get.
    rewrite Hnetworks. cbv beta iota.
    destruct (negb _); [intros [= <-]; unfold badRequest; eauto|].
    rewrite Hsource. cbv beta iota.
    destruct (negb _); [intros [= <-]; unfold internalServerError; eauto|].
    unfold_effects. crunch; cbn; intros [= <-];
      unfold conflict, internalServerError; eauto.
    all: match goal with H : exn_statusCode _ = Some _ |- _ =>
           simpl in H; discriminate H end.
  - intros e. unfold removeDefaultToken, bind, config_get.
    rewrite Hnetworks. cbv beta iota.
    destruct (negb _); [intros [= <-]; unfold badRequest; eauto|].
    rewrite Hsource. cbv beta iota.
    destruct (negb _); [intros [= <-]; unfold internalServerError; eauto|].
    unfold_effects. crunch; cbn; intros [= <-];
      unfold notFound, internalServerError; eauto.
    all: match goal with H : exn_statusCode _ = Some _ |- _ =>
           simpl in H; discriminate H end.
  - intros path content msg Hnet Hsrc Hfile Hparse. clear Hnetworks Hsource.
    eexists _, _. split; [|split].
    + unfold addDefaultToken. resolve_token_list Hnet Hsrc.
      unfold try_catch, pathExists, readFile, json_parse, ret, throw.
      rewrite bool_decide_true by eauto. cbv beta iota. rewrite Hfile.
      cbv beta iota. rewrite Hparse.
      unfold logger, statusCode_or_wrap, throw. cbn. reflexivity.
    + unfold removeDefaultToken. resolve_token_list Hnet Hsrc.
      unfold try_catch, pathExists, readFile, json_parse, ret, throw.
      rewrite bool_decide_true by eauto. cbv beta iota delta [negb].
      rewrite Hfile. cbv beta iota. rewrite Hparse.
      unfold logger, statusCode_or_wrap, throw. cbn. reflexivity.
    + done.
Qed.

(** ** The token-list operations in sequence *)

Lemma removeDefaultToken_not_found
    w chain network tokenToRemove path content tokenList :
  Js.includes network (ethereumNetworks (config w)) = true ->
  tokenListSource (config w) network = Some path ->
  files w !! path = Some content ->
  JSON_parse content = inr tokenList ->
  (forall t, In t tokenList -> namedBy tokenToRemove t = false) ->
  removeToken chain network tokenToRemove w
  = (Throw (notFound ("Token " +:+ tokenToRemove +:+ " not found in the list.")),
     {| config := config w; files := files w;
        logs := logs w ++
                [(LogError, "Failed to remove default token: " +:+ "Token "
                              +:+ tokenToRemove +:+ " not found in the list.")] |}).
Proof.
  intros Hnet Hsrc Hfile Hparse Hnone.
  unfold removeDefaultToken. resolve_token_list Hnet Hsrc.
  unfold try_catch, pathExists, readFile, json_parse, ret, throw.
  rewrite bool_decide_true by eauto. cbv beta iota delta [negb].
  rewrite Hfile. cbv beta iota. rewrite Hparse. cbv beta iota.
  match goal with |- context [List.filter ?p tokenList] =>
    assert (length (List.filter p tokenList) = length tokenList) as Hlen end.
  { apply filter_length_same. intros t Ht. specialize (Hnone t Ht).
    unfold namedBy in Hnone. apply orb_false_iff in Hnone as [-> ->]. done. }
  rewrite Hlen, Nat.eqb_refl. cbv beta iota.
  unfold logger, statusCode_or_wrap, throw. cbn. reflexivity.
Qed.

Lemma addDefaultToken_conflict_run
    w chain network name symbol address decimals path content tokenList t :
  Js.includes network (ethereumNetworks (config w)) = true ->
  tokenListSource (config w) network = Some path ->
  files w !! path = Some content ->
  JSON_parse content = inr tokenList ->
  In t tokenList ->
  same_nocase (Token.address t) address \/ same_nocase (Token.symbol t) symbol ->
  let message := "Token with address " +:+ address +:+ " or symbol " +:+ symbol
                   +:+ " already exists." in
  addToken chain network name symbol address decimals w
  = (Throw (conflict message),
     {| config := config w; files := files w;
        logs := logs w ++
                [(LogError, "Failed to add default token: " +:+ message)] |}).
Proof.
  intros Hnet Hsrc Hfile Hparse Hin Hsame message.
  unfold addDefaultToken. resolve_token_list Hnet Hsrc.
  unfold try_catch, pathExists, readFile, json_parse, ret, throw.
  rewrite bool_decide_true by eauto. cbv beta iota. rewrite Hfile.
  cbv beta iota. rewrite Hparse. cbv beta iota.
  match goal with |- context [find ?p tokenList] =>
    destruct (find_is_Some p tokenList t Hin) as [y ->] end.
  { apply orb_true_iff. destruct Hsame as [Ha|Hs]; [left|right].
    - by apply String.eqb_eq.
    - by apply String.eqb_eq, toUpperCase_eq_iff. }
  cbv beta iota. unfold logger, statusCode_or_wrap, throw. cbn. reflexivity.
Qed.

(** Removing the same identifier twice.  When a first [removeDefaultToken]
    has found an entry to remove, and the list it wrote is read back as it
    was written, a second call with the same identifier (whatever the first
    one's outcome) fails with the not-found error and leaves the files as
    the first call left them. *)
Theorem removeDefaultToken_twice_not_found
    w r1 w1 chain chain' network tokenToRemove path content tokenList :
  Js.includes network (ethereumNetworks (config w)) = true ->
  tokenListSource (config w) network = Some path ->
  files w !! path = Some content ->
  JSON_parse content = inr tokenList ->
  (exists t, In t tokenList /\ namedBy tokenToRemove t = true) ->
  let kept := List.filter (fun t => negb (namedBy tokenToRemove t)) tokenList in
  JSON_parse (JSON_stringify kept) = inr kept ->
  removeToken chain network tokenToRemove w = (r1, w1) ->
  exists w2,
    removeToken chain' network tokenToRemove w1
    = (Throw (notFound ("Token " +:+ tokenToRemove
                          +:+ " not found in the list.")), w2)
    /\ files w2 = files w1.
Proof.
  intros Hnet Hsrc Hfile Hparse Hnamed kept Hback Hfirst.
  rewrite (removeDefaultToken_run w chain network tokenToRemove path content
             tokenList Hnet Hsrc Hfile Hparse Hnamed) in Hfirst.
  cbv zeta in Hfirst. fold kept in Hfirst.
  assert (config w1 = config w
          /\ files w1 = <[path := JSON_stringify kept]> (files w)) as [Hc Hf].
  { destruct (Ethereum_getInstance network) as [msg|ethereum];
      [|destruct (loadTokens _ _ _ _)]; by injection Hfirst as _ <-. }
  rewrite (removeDefaultToken_not_found w1 chain' network tokenToRemove path
             (JSON_stringify kept) kept).
  - by eexists.
  - by rewrite Hc.
  - by rewrite Hc.
  - rewrite Hf. apply lookup_insert_eq.
  - done.
  - intros t Ht. apply List.filter_In in Ht as [_ Ht].
    by apply negb_true_iff.
Qed.

(** Adding the same token twice.  After a successful [addDefaultToken],
    when the list it wrote is read back as it was written, a further call
    whose address or symbol equals, up to case, that of the token just added
    fails with the conflict error and leaves the files as they were. *)
Theorem addDefaultToken_twice_conflict
    w w1 chain chain' network name name' symbol symbol' address address'
    decimals decimals' path tokenList ethereum :
  addToken chain network name symbol address decimals w = (Ok tt, w1) ->
  tokenListSource (config w) network = Some path ->
  match files w !! path with
  | Some content => JSON_parse content = inr tokenList
  | None => tokenList = []
  end ->
  Ethereum_getInstance network = inr ethereum ->
  let newToken :=
    {| Token.chainId := ethereum_chainId ethereum; Token.address := address;
       Token.name := name; Token.symbol := symbol;
       Token.decimals := decimals |} in
  JSON_parse (JSON_stringify (tokenList ++ [newToken]))
  = inr (tokenList ++ [newToken]) ->
  same_nocase address address' \/ same_nocase symbol symbol' ->
  exists w2,
    addToken chain' network name' symbol' address' decimals' w1
    = (Throw (conflict ("Token with address " +:+ address' +:+ " or symbol "
                          +:+ symbol' +:+ " already exists.")), w2)
    /\ files w2 = files w1.
Proof.
  intros Hfirst Hsrc Hlist Heth newToken Hback Hsame.
  apply addDefaultToken_ok_inv in Hfirst
    as (path' & tokenList' & ethereum' & Hnet & Hsrc' & Heth' & Hlist' & _
        & Hf & Hc).
  assert (path' = path) as -> by congruence.
  assert (ethereum' = ethereum) as -> by congruence.
  assert (tokenList' = tokenList) as ->.
  { destruct (files w !! path); congruence. }
  fold newToken in Hf.
  rewrite (addDefaultToken_conflict_run w1 chain' network name' symbol' address'
             decimals' path (JSON_stringify (tokenList ++ [newToken]))
             (tokenList ++ [newToken]) newToken).
  - by eexists.
  - by rewrite Hc.
  - by rewrite Hc.
  - rewrite Hf. apply lookup_insert_eq.
  - exact Hback.
  - apply in_or_app. right. by left.
  - exact Hsame.
Qed.

(** Adding a token and removing it again.  After a successful
    [addDefaultToken], when the list it wrote is read back as it was
    written, a [removeDefaultToken] with an identifier that names the new
    entry and none of the old ones writes the old list back: the token-list
    file holds the list that the first call read. *)
Theorem addDefaultToken_then_removeDefaultToken
    w w1 chain chain' network name symbol address decimals identifier
    path tokenList ethereum :
  addToken chain network name symbol address decimals w = (Ok tt, w1) ->
  tokenListSource (config w) network = Some path ->
  match files w !! path with
  | Some content => JSON_parse content = inr tokenList
  | None => tokenList = []
  end ->
  Ethereum_getInstance network = inr ethereum ->
  let newToken :=
    {| Token.chainId := ethereum_chainId ethereum; Token.address := address;
       Token.name := name; Token.symbol := symbol;
       Token.decimals := decimals |} in
  JSON_parse (JSON_stringify (tokenList ++ [newToken]))
  = inr (tokenList ++ [newToken]) ->
  same_nocase address identifier \/ same_nocase symbol identifier ->
  (forall t, In t tokenList -> namedBy identifier t = false) ->
  exists r w2,
    removeToken chain' network identifier w1 = (r, w2)
    /\ files w2 = <[path := JSON_stringify tokenList]> (files w)
    /\ config w2 = config w.
Proof.
  intros Hfirst Hsrc Hlist Heth newToken Hback Hnames Hold.
  apply addDefaultToken_ok_inv in Hfirst
    as (path' & tokenList' & ethereum' & Hnet & Hsrc' & Heth' & Hlist' & _
        & Hf & Hc).
  assert (path' = path) as -> by congruence.
  assert (ethereum' = ethereum) as -> by congruence.
  assert (tokenList' = tokenList) as ->.
  { destruct (files w !! path); congruence. }
  fold newToken in Hf.
  assert (List.filter (fun t => negb (namedBy identifier t))
            (tokenList ++ [newToken]) = tokenList) as Hkept.
  { rewrite List.filter_app. simpl.
    assert (namedBy identifier newToken = true) as ->.
    { apply namedBy_iff. exact Hnames. }
    simpl. rewrite app_nil_r.
    clear -Hold. induction tokenList as [|a l IH]; simpl; [done|].
    rewrite (Hold a (or_introl eq_refl)). simpl. f_equal.
    apply IH. intros t Ht. apply Hold. by right. }
  pose proof (removeDefaultToken_run w1 chain' network identifier path
                (JSON_stringify (tokenList ++ [newToken]))
                (tokenList ++ [newToken])) as Hrun.
  cbv zeta in Hrun. rewrite Hkept in Hrun.
  rewrite Hrun.
  - rewrite Hf, insert_insert_eq, Hc. rewrite Heth.
    destruct (loadTokens _ _ _ _); eexists _, _;
      (split; [reflexivity|]); split; reflexivity.
  - by rewrite Hc.
  - by rewrite Hc.
  - rewrite Hf. apply lookup_insert_eq.
  - exact Hback.
  - exists newToken. split; [apply in_or_app; right; by left|].
    apply namedBy_iff. exact Hnames.
Qed.

End TokenListOutcomes.

(** ** The outcomes on the example worlds *)

Lemma addDefaultToken_succeeds_witness :
  Demo.addToken "ethereum" "base" "Tsunami" "NAMI" "0xABC" (Fin 18) Demo.world
  = (Ok tt,
     {| config := config Demo.world;
        files := <["/conf/tokens/base.json" :=
                     Demo.JSON_stringify
                       ([Demo.usdc; Demo.weth]
                          ++ [{| Token.chainId := Fin 8453;
                                 Token.address := "0xABC";
                                 Token.name := "Tsunami"; Token.symbol := "NAMI";
                                 Token.decimals := Fin 18 |}])]>
                   (files Demo.world);
        logs := logs Demo.world ++
                [(LogInfo, "Added token " +:+ "NAMI" +:+ " (" +:+ "0xABC"
                             +:+ ") to " +:+ "ethereum" +:+ "/" +:+ "base"
                             +:+ ".")] |}).
Proof.
  apply (addDefaultToken_succeeds
           Demo.JSON_parse Demo.JSON_stringify
           Demo.Ethereum_getInstance Demo.loadTokens
           Demo.world "ethereum" "base" "Tsunami" "NAMI" "0xABC" (Fin 18)
           "/conf/tokens/base.json"
           (Demo.JSON_stringify [Demo.usdc; Demo.weth]) [Demo.usdc; Demo.weth]
           {| ethereum_chainId := Fin 8453; tokenListType := "FILE" |}).
  - vm_compute; reflexivity.
  - vm_compute; reflexivity.
  - vm_compute; reflexivity.
  - vm_compute; reflexivity.
  - vm_compute; reflexivity.
  - vm_compute; reflexivity.
  - intros t [<-|[<-|[]]]; split; vm_compute; reflexivity.
  - intros t [<-|[<-|[]]]; split; vm_compute; intros H; discriminate H.
  - vm_compute; reflexivity.
  - vm_compute; reflexivity.
Defined.


Lemma removeDefaultToken_succeeds_witness :
  Demo.removeToken "ethereum" "base" "usdc" Demo.world
  = (Ok tt,
     {| config := config Demo.world;
        files := <["/conf/tokens/base.json" :=
                     Demo.JSON_stringify
                       (List.filter (fun t => negb (namedBy "usdc" t))
                          [Demo.usdc; Demo.weth])]> (files Demo.world);
        logs := logs Demo.world ++
                [(LogInfo, "Removed token " +:+ "usdc" +:+ " from "
                             +:+ "ethereum" +:+ "/" +:+ "base" +:+ ".")] |}).
Proof.
  apply (removeDefaultToken_succeeds
           Demo.JSON_parse Demo.JSON_stringify
           Demo.Ethereum_getInstance Demo.loadTokens
           Demo.world "ethereum" "base" "usdc" "/conf/tokens/base.json"
           (Demo.JSON_stringify [Demo.usdc; Demo.weth]) [Demo.usdc; Demo.weth]
           {| ethereum_chainId := Fin 8453; tokenListType := "FILE" |}).
  - vm_compute; reflexivity.
  - vm_compute; reflexivity.
  - vm_compute; reflexivity.
  - vm_compute; reflexivity.
  - exists Demo.usdc. split; [left; reflexivity | vm_compute; reflexivity].
  - vm_compute; reflexivity.
  - vm_compute; reflexivity.
Defined.

Lemma removeDefaultToken_chain_client_failure_witness :
  exists w',
    removeDefaultToken Demo.JSON_parse Demo.JSON_stringify
      DemoOutage.Ethereum_getInstance Demo.loadTokens
      "ethereum" "base" "usdc" Demo.world
    = (Throw (internalServerError
                ("Failed to remove token: "
                   +:+ "could not detect network base")), w')
    /\ files w'
       = <["/conf/tokens/base.json" :=
             Demo.JSON_stringify
               (List.filter (fun t => negb (namedBy "usdc" t))
                  [Demo.usdc; Demo.weth])]> (files Demo.world)
    /\ config w' = config Demo.world.
Proof.
  apply (removeDefaultToken_chain_client_failure
           Demo.JSON_parse Demo.JSON_stringify
           DemoOutage.Ethereum_getInstance Demo.loadTokens
           Demo.world "ethereum" "base" "usdc" "/conf/tokens/base.json"
           (Demo.JSON_stringify [Demo.usdc; Demo.weth]) [Demo.usdc; Demo.weth]
           "could not detect network base").
  - vm_compute; reflexivity.
  - vm_compute; reflexivity.
  - vm_compute; reflexivity.
  - vm_compute; reflexivity.
  - exists Demo.usdc. split; [left; reflexivity | vm_compute; reflexivity].
  - left. vm_compute; reflexivity.
Defined.

Lemma removeDefaultToken_missing_file_witness :
  Demo.removeToken "ethereum" "mainnet" "usdc" Demo.world
  = (Throw (internalServerError
              ("tokenListSource not configured or found for network '"
                 +:+ "mainnet" +:+ "'.")), Demo.world).
Proof.
  apply (removeDefaultToken_missing_file
           Demo.JSON_parse Demo.JSON_stringify
           Demo.Ethereum_getInstance Demo.loadTokens
           Demo.world "ethereum" "mainnet" "usdc" "/conf/tokens/mainnet.json").
  - vm_compute; reflexivity.
  - vm_compute; reflexivity.
  - vm_compute; reflexivity.
Defined.

Lemma tokenListSource_not_configured_witness :
  Demo.addToken "ethereum" "sepolia" "Tsunami" "NAMI" "0xABC" (Fin 18)
    DemoWorlds.noSource
  = (Throw (internalServerError
              ("tokenListSource not configured for network '"
                 +:+ "sepolia" +:+ "'.")), DemoWorlds.noSource)
  /\ Demo.removeToken "ethereum" "sepolia" "NAMI" DemoWorlds.noSource
     = (Throw (internalServerError
                 ("tokenListSource not configured or found for network '"
                    +:+ "sepolia" +:+ "'.")), DemoWorlds.noSource).
Proof.
  apply (tokenListSource_not_configured
           Demo.JSON_parse Demo.JSON_stringify
           Demo.Ethereum_getInstance Demo.loadTokens
           DemoWorlds.noSource "ethereum" "sepolia" "Tsunami" "NAMI" "0xABC"
           (Fin 18) "NAMI" None).
  - vm_compute; reflexivity.
  - vm_compute; reflexivity.
  - reflexivity.
Defined.

Lemma token_operations_errors_have_status_witness :
  exists wa wr,
    Demo.addToken "ethereum" "base" "Tsunami" "NAMI" "0xABC" (Fin 18)
      DemoBroken.world
    = (Throw (internalServerError
                ("Failed to add token: " +:+ "Unexpected token in JSON")), wa)
    /\ Demo.removeToken "ethereum" "base" "NAMI" DemoBroken.world
       = (Throw (internalServerError
                   ("Failed to remove token: " +:+ "Unexpected token in JSON")),
          wr)
    /\ files wa = files DemoBroken.world /\ files wr = files DemoBroken.world.
Proof.
  apply (proj2 (proj2 (token_operations_errors_have_status
                         Demo.JSON_parse Demo.JSON_stringify
                         Demo.Ethereum_getInstance Demo.loadTokens
                         "ethereum" "base" "Tsunami" "NAMI" "0xABC" (Fin 18)
                         "NAMI" DemoBroken.world))
           "/conf/tokens/base.json" "[{" "Unexpected token in JSON").
  - vm_compute; reflexivity.
  - vm_compute; reflexivity.
  - vm_compute; reflexivity.
  - vm_compute; reflexivity.
Defined.

Lemma removeDefaultToken_twice_not_found_witness :
  exists w2,
    Demo.removeToken "solana" "base" "usdc"
      (snd (Demo.removeToken "ethereum" "base" "usdc" Demo.world))
    = (Throw (notFound ("Token " +:+ "usdc" +:+ " not found in the list.")), w2)
    /\ files w2
       = files (snd (Demo.removeToken "ethereum" "base" "usdc" Demo.world)).
Proof.
  apply (removeDefaultToken_twice_not_found
           Demo.JSON_parse Demo.JSON_stringify
           Demo.Ethereum_getInstance Demo.loadTokens
           Demo.world
           (fst (Demo.removeToken "ethereum" "base" "usdc" Demo.world))
           (snd (Demo.removeToken "ethereum" "base" "usdc" Demo.world))
           "ethereum" "solana" "base" "usdc" "/conf/tokens/base.json"
           (Demo.JSON_stringify [Demo.usdc; Demo.weth]) [Demo.usdc; Demo.weth]).
  - vm_compute; reflexivity.
  - vm_compute; reflexivity.
  - vm_compute; reflexivity.
  - vm_compute; reflexivity.
  - exists Demo.usdc. split; [left; reflexivity | vm_compute; reflexivity].
  - vm_compute; reflexivity.
  - vm_compute; reflexivity.
Defined.

Lemma addDefaultToken_twice_conflict_witness :
  exists w2,
    Demo.addToken "ethereum" "base" "Wrapped ETH" "weth" "0xABC" (Fin 18)
      (snd (Demo.addToken "ethereum" "base" "Wrapped Ether" "WETH"
              "0x4200000000000000000000000000000000000006" (Fin 18)
              DemoWorlds.oneToken))
    = (Throw (conflict ("Token with address " +:+ "0xABC" +:+ " or symbol "
                          +:+ "weth" +:+ " already exists.")), w2)
    /\ files w2
       = files (snd (Demo.addToken "ethereum" "base" "Wrapped Ether" "WETH"
                       "0x4200000000000000000000000000000000000006" (Fin 18)
                       DemoWorlds.oneToken)).
Proof.
  apply (addDefaultToken_twice_conflict
           Demo.JSON_parse Demo.JSON_stringify
           Demo.Ethereum_getInstance Demo.loadTokens
           DemoWorlds.oneToken
           (snd (Demo.addToken "ethereum" "base" "Wrapped Ether" "WETH"
                   "0x4200000000000000000000000000000000000006" (Fin 18)
                   DemoWorlds.oneToken))
           "ethereum" "ethereum" "base" "Wrapped Ether" "Wrapped ETH"
           "WETH" "weth" "0x4200000000000000000000000000000000000006" "0xABC"
           (Fin 18) (Fin 18) "/conf/tokens/base.json" [Demo.usdc]
           {| ethereum_chainId := Fin 8453; tokenListType := "FILE" |}).
  - vm_compute; reflexivity.
  - vm_compute; reflexivity.
  - vm_compute; reflexivity.
  - vm_compute; reflexivity.
  - vm_compute; reflexivity.
  - right. vm_compute; reflexivity.
Defined.

Lemma addDefaultToken_then_removeDefaultToken_witness :
  exists r w2,
    Demo.removeToken "ethereum" "base" "weth"
      (snd (Demo.addToken "ethereum" "base" "Wrapped Ether" "WETH"
              "0x4200000000000000000000000000000000000006" (Fin 18)
              DemoWorlds.oneToken))
    = (r, w2)
    /\ files w2
       = <["/conf/tokens/base.json" := Demo.JSON_stringify [Demo.usdc]]>
           (files DemoWorlds.oneToken)
    /\ config w2 = config DemoWorlds.oneToken.
Proof.
  apply (addDefaultToken_then_removeDefaultToken
           Demo.JSON_parse Demo.JSON_stringify
           Demo.Ethereum_getInstance Demo.loadTokens
           DemoWorlds.oneToken
           (snd (Demo.addToken "ethereum" "base" "Wrapped Ether" "WETH"
                   "0x4200000000000000000000000000000000000006" (Fin 18)
                   DemoWorlds.oneToken))
           "ethereum" "ethereum" "base" "Wrapped Ether" "WETH"
           "0x4200000000000000000000000000000000000006" (Fin 18) "weth"
           "/conf/tokens/base.json" [Demo.usdc]
           {| ethereum_chainId := Fin 8453; tokenListType := "FILE" |}).
  - vm_compute; reflexivity.
  - vm_compute; reflexivity.
  - vm_compute; reflexivity.
  - vm_compute; reflexivity.
  - vm_compute; reflexivity.
  - right. vm_compute; reflexivity.
  - intros t [<-|[]]. vm_compute; reflexivity.
Defined.

(** ** The default-pool registry: failures, frame and the active network *)

(** [removeDefaultPool] fails like [addDefaultPool]: with a bad-request
    error, the world untouched, when the connector string lacks its name or
    its type; and, with these present, with an internal-server error when
    the connector has no configured networks, where [getDefaultPools]
    answers with the empty mapping. *)
Theorem removeDefaultPool_failures w connector baseToken quoteToken :
  (missing (connectorName connector) \/ missing (connectorTypeOf connector) ->
   exists msg,
     removeDefaultPool connector baseToken quoteToken w
     = (Throw (badRequest msg), w))
  /\ (forall baseConnector connectorType,
        connectorName connector = Some baseConnector ->
        connectorTypeOf connector = Some connectorType ->
        Js.nonempty baseConnector = true ->
        Js.nonempty connectorType = true ->
        noConfiguredNetworks (config w) baseConnector ->
        exists msg w',
          removeDefaultPool connector baseToken quoteToken w
          = (Throw (internalServerError
                      ("Failed to remove default pool: " +:+ msg)), w')
          /\ config w' = config w /\ files w' = files w).
Proof.
  unfold missing, connectorName, connectorTypeOf, removeDefaultPool. split.
  - intros H.
    destruct (Js.split "/" connector !! 0%nat) as [[|c0 n]|];
      try (eexists; reflexivity).
    destruct (Js.split "/" connector !! 1%nat) as [[|c1 t]|];
      try (eexists; reflexivity).
    exfalso. destruct H as [[H|H]|[H|H]]; discriminate H.
  - intros baseConnector connectorType -> -> Hn Ht Hnone.
    apply configuredNetworks_none in Hnone.
    destruct baseConnector as [|c0 n]; [done|].
    destruct connectorType as [|c1 t]; [done|].
    unfold_pool_effects. cbv beta iota.
    destruct (configuredNetworks _) as [networks|]; cbv beta iota.
    + rewrite Hnone. eexists _, _. repeat split; reflexivity.
    + eexists _, _. repeat split; reflexivity.
Qed.

(** [getDefaultPools] only reads: whatever the connector and the outcome,
    the configuration and the files are the ones of before. *)
Theorem getDefaultPools_only_reads connector w :
  config (snd (getDefaultPools connector w)) = config w
  /\ files (snd (getDefaultPools connector w)) = files w.
Proof.
  split.
  - unfold getDefaultPools. unfold_pool_effects. crunch; cbn; done.
  - unfold getDefaultPools. unfold_pool_effects. crunch; cbn; done.
Qed.

(** The errors of the pool functions: a bad-request error for a malformed
    request, and otherwise an internal-server error whose message starts
    with the function's own words.  No other error leaves them. *)
Theorem pool_functions_error_classes
    connector baseToken quoteToken poolAddress w e :
  (fst (getDefaultPools connector w) = Throw e ->
   (exists msg, e = badRequest msg)
   \/ e = internalServerError "Failed to get default pools")
  /\ (fst (addDefaultPool connector baseToken quoteToken poolAddress w) = Throw e ->
      exists msg,
        e = badRequest msg
        \/ e = internalServerError ("Failed to add default pool: " +:+ msg))
  /\ (fst (removeDefaultPool connector baseToken quoteToken w) = Throw e ->
      exists msg,
        e = badRequest msg
        \/ e = internalServerError ("Failed to remove default pool: " +:+ msg)).
Proof.
  repeat split.
  - unfold getDefaultPools. unfold_pool_effects.
    crunch; cbn; intros [= <-]; eauto.
  - unfold addDefaultPool. unfold_pool_effects.
    crunch; cbn; intros [= <-]; eauto.
  - unfold removeDefaultPool. unfold_pool_effects.
    crunch; cbn; intros [= <-]; eauto.
Qed.

(** The active network of the pool functions is "mainnet-beta" whenever the
    connector has an entry of that name, whatever its place among the
    networks: when that entry has a property of its own for the connector
    type, [getDefaultPools] answers with its value, or with the empty
    mapping when the value is falsy. *)
Theorem getDefaultPools_prefers_mainnet_beta
    w connector name type t networks node pools :
  connectorName connector = Some name ->
  connectorTypeOf connector = Some type ->
  Js.nonempty name = true -> Js.nonempty type = true ->
  ConfigManagerV2.getNamespace name (config w) = Some t ->
  ConfigManagerV2.assoc "networks" t = Some (VObj networks) ->
  ConfigManagerV2.assoc "mainnet-beta" networks = Some (VObj node) ->
  ConfigManagerV2.assoc type node = Some pools ->
  exists w',
    getDefaultPools connector w
    = (Ok (if truthy pools then pools else VObj []), w')
    /\ logs w'
       = logs w ++ [(LogInfo, "Retrieved default pools for " +:+ connector
                                +:+ " on network " +:+ "mainnet-beta")].
Proof.
  unfold getDefaultPools, connectorName, connectorTypeOf.
  intros -> -> Hn Ht Hns Hnets Hnode Hpools.
  destruct name; [done|]. destruct type; [done|].
  unfold_pool_effects. cbv beta iota. rewrite Hns.
  unfold configuredNetworks. cbn [option_map ownProperty]. rewrite Hnets.
  assert (Hsel : forall first,
             selectActiveNetwork (VObj networks) first = "mainnet-beta").
  { intros first. unfold selectActiveNetwork.
    change (ownProperty (VObj networks) "mainnet-beta")
      with (ConfigManagerV2.assoc "mainnet-beta" networks).
    by rewrite Hnode. }
  cbn [truthy objectKeys].
  destruct (map fst networks) as [|first ks] eqn:Hkeys.
  { destruct networks; [discriminate Hnode|discriminate Hkeys]. }
  cbv beta iota zeta. rewrite Hsel.
  change (ownProperty (VObj networks) "mainnet-beta")
    with (ConfigManagerV2.assoc "mainnet-beta" networks).
  rewrite Hnode. cbv beta iota.
  change (ownProperty (VObj node) (String a0 type))
    with (ConfigManagerV2.assoc (String a0 type) node).
  rewrite Hpools. cbn [or_empty_object].
  eexists. split; reflexivity.
Qed.

(** A network entry that is [null] cannot be indexed: when the active
    network of the connector is [null], [getDefaultPools] fails with the
    internal-server error, and the configuration and the files are as
    before. *)
Theorem getDefaultPools_null_network w connector name type networks active :
  connectorName connector = Some name ->
  connectorTypeOf connector = Some type ->
  Js.nonempty name = true -> Js.nonempty type = true ->
  resolveActiveNetwork (config w) name = Some (networks, active) ->
  ownProperty networks active = Some VNull ->
  exists w',
    getDefaultPools connector w
    = (Throw (internalServerError "Failed to get default pools"), w')
    /\ config w' = config w /\ files w' = files w.
Proof.
  unfold getDefaultPools, connectorName, connectorTypeOf, resolveActiveNetwork.
  intros -> -> Hn Ht Hres Hnode.
  destruct name; [done|]. destruct type; [done|].
  unfold_pool_effects. cbv beta iota.
  destruct (configuredNetworks _) as [networks'|]; [|done].
  destruct (objectKeys networks') as [|first ks]; [done|].
  injection Hres as -> <-. cbv beta iota zeta.
  rewrite Hnode. eexists. repeat split; reflexivity.
Qed.

Lemma removeDefaultPool_failures_witness :
  (exists msg,
     removeDefaultPool "uniswap" "WETH" "USDC" Demo.world
     = (Throw (badRequest msg), Demo.world))
  /\ (exists msg w',
        removeDefaultPool "raydium/clmm" "SOL" "USDC" Demo.world
        = (Throw (internalServerError
                    ("Failed to remove default pool: " +:+ msg)), w')
        /\ config w' = config Demo.world /\ files w' = files Demo.world).
Proof.
  split.
  - apply (proj1 (removeDefaultPool_failures Demo.world "uniswap" "WETH" "USDC")).
    right; left; reflexivity.
  - apply (proj2 (removeDefaultPool_failures
                    Demo.world "raydium/clmm" "SOL" "USDC") "raydium" "clmm").
    + reflexivity.
    + reflexivity.
    + reflexivity.
    + reflexivity.
    + vm_compute; reflexivity.
Defined.

Lemma pool_functions_error_classes_witness :
  exists msg,
    internalServerError
      ("Failed to remove default pool: " +:+ "No networks configured for raydium")
    = badRequest msg
    \/ internalServerError
         ("Failed to remove default pool: "
            +:+ "No networks configured for raydium")
       = internalServerError ("Failed to remove default pool: " +:+ msg).
Proof.
  apply (proj2 (proj2 (pool_functions_error_classes
                         "raydium/clmm" "SOL" "USDC" None Demo.world _))).
  vm_compute; reflexivity.
Defined.

Lemma getDefaultPools_prefers_mainnet_beta_witness :
  exists w',
    getDefaultPools "raydium/clmm" DemoPools.world
    = (Ok (if truthy (VObj [("SOL-USDC", VStr "mainnetPool")])
           then VObj [("SOL-USDC", VStr "mainnetPool")]
           else VObj []), w')
    /\ logs w'
       = logs DemoPools.world
           ++ [(LogInfo, "Retrieved default pools for " +:+ "raydium/clmm"
                           +:+ " on network " +:+ "mainnet-beta")].
Proof.
  apply (getDefaultPools_prefers_mainnet_beta
           DemoPools.world "raydium/clmm" "raydium" "clmm"
           [("networks",
              VObj [("devnet",
                      VObj [("clmm", VObj [("SOL-USDC", VStr "devnetPool")])]);
                    ("mainnet-beta",
                      VObj [("clmm", VObj [("SOL-USDC", VStr "mainnetPool")])])])]
           [("devnet", VObj [("clmm", VObj [("SOL-USDC", VStr "devnetPool")])]);
            ("mainnet-beta",
              VObj [("clmm", VObj [("SOL-USDC", VStr "mainnetPool")])])]
           [("clmm", VObj [("SOL-USDC", VStr "mainnetPool")])]
           (VObj [("SOL-USDC", VStr "mainnetPool")]));
    vm_compute; reflexivity.
Defined.

Lemma getDefaultPools_null_network_witness :
  exists w',
    getDefaultPools "meteora/clmm" DemoPools.world
    = (Throw (internalServerError "Failed to get default pools"), w')
    /\ config w' = config DemoPools.world /\ files w' = files DemoPools.world.
Proof.
  apply (getDefaultPools_null_network
           DemoPools.world "meteora/clmm" "meteora" "clmm"
           (VObj [("mainnet-beta", VNull); ("devnet", VNull)]) "mainnet-beta");
    vm_compute; reflexivity.
Defined.

(** ** Reading and updating the configuration *)

Lemma substring_all s : String.substring 0 (String.length s) s = s.
Proof. induction s as [|c s IH]; simpl; [done|]. by rewrite IH. Qed.

Lemma substring_suffix p s :
  String.substring (String.length p) (String.length s) (p +:+ s) = s.
Proof.
  induction p as [|c p IH]; [apply substring_all|].
  change (String c p +:+ s) with (String c (p +:+ s)). simpl. exact IH.
Qed.

Lemma length_app_string p s :
  String.length (p +:+ s) = (String.length p + String.length s)%nat.
Proof.
  induction p as [|c p IH]; [done|].
  change (String c p +:+ s) with (String c (p +:+ s)). simpl. by rewrite IH.
Qed.

Lemma endsWith_app p s : Js.endsWith (p +:+ s) s = true.
Proof.
  unfold Js.endsWith. rewrite length_app_string.
  apply andb_true_iff. split; [apply Nat.leb_le; lia|].
  replace (String.length p + String.length s - String.length s)%nat
    with (String.length p) by lia.
  rewrite substring_suffix. apply String.eqb_refl.
Qed.

Section ConfigUpdateFacts.

Context {helpers : StringHelpers}.
Variable JSON_stringify : value -> string.

(** The validation is keyed on the end of the path as a string, not on its
    last segment: every path that ends with the word "allowedSlippage" is
    validated, whatever stands before the word, also within the segment. *)
Theorem validateAllowedSlippage_by_suffix before configValue :
  validateAllowedSlippage (before +:+ "allowedSlippage") configValue
  = if slippageAccepted configValue then Ok tt
    else Throw (badRequest invalidAllowedSlippage).
Proof.
  unfold validateAllowedSlippage. rewrite endsWith_app.
  by destruct (slippageAccepted configValue).
Qed.

(** [updateConfig] validates before it writes: a slippage value that the
    validator refuses ends in the bad-request error with the configuration
    and the files as they were; only the line that announces the update has
    been logged. *)
Theorem updateConfig_rejects_before_writing configPath configValue w :
  Js.endsWith configPath "allowedSlippage" = true ->
  slippageAccepted configValue = false ->
  updateConfig JSON_stringify configPath configValue w
  = (Throw (badRequest invalidAllowedSlippage),
     {| config := config w; files := files w;
        logs := logs w ++
                [(LogInfo, "Updating config path: " +:+ configPath
                             +:+ " with value: "
                             +:+ JSON_stringify configValue)] |}).
Proof.
  intros Hpath Hrefused.
  unfold updateConfig, bind, logger, of_result, validateAllowedSlippage.
  by rewrite Hpath, Hrefused.
Qed.

(** The errors of [updateConfig]: the bad-request error of the validator,
    and only for a path that ends with "allowedSlippage" and a value that
    the validator refuses, or an internal-server error that wraps the
    message of the failed write. *)
Theorem updateConfig_error_classes configPath configValue w e :
  fst (updateConfig JSON_stringify configPath configValue w) = Throw e ->
  (e = badRequest invalidAllowedSlippage
   /\ Js.endsWith configPath "allowedSlippage" = true
   /\ slippageAccepted configValue = false)
  \/ (exists msg,
        e = internalServerError ("Failed to update configuration: " +:+ msg)).
Proof.
  unfold updateConfig, validateAllowedSlippage, of_result.
  unfold bind, try_catch, config_set, config_update, logger, throw.
  crunch; cbn; intros [= <-]; eauto.
  left. repeat split; try done.
  by match goal with H : negb _ = true |- _ => apply negb_true_iff in H end.
Qed.

End ConfigUpdateFacts.


(** ** The handlers of the token routes *)

Section TokenRouteFacts.

Variable JSON_parse : string -> string + list TokenInfo.
Variable JSON_stringify : list TokenInfo -> string.
Variable Ethereum_getInstance : string -> string + Ethereum.
Variable loadTokens :
  Ethereum -> string -> string -> gmap string string -> option string.

Local Abbreviation addToken :=
  (addDefaultToken JSON_parse JSON_stringify Ethereum_getInstance loadTokens).
Local Abbreviation removeToken :=
  (removeDefaultToken JSON_parse JSON_stringify Ethereum_getInstance loadTokens).
Local Abbreviation addRoute :=
  (addTokenRoute JSON_parse JSON_stringify Ethereum_getInstance loadTokens).
Local Abbreviation removeRoute :=
  (removeTokenRoute JSON_parse JSON_stringify Ethereum_getInstance loadTokens).

Lemma existsb_false_all {A} (p : A -> bool) l :
  existsb p l = false -> forall x, In x l -> p x = false.
Proof.
  induction l as [|a l IH]; simpl; [done|].
  intros H x [<-|Hx]; apply orb_false_iff in H as [Ha Hl]; [done|by apply IH].
Qed.

(** What a successful [removeDefaultToken] has found and done. *)
Lemma removeDefaultToken_ok_inv w w' chain network tokenToRemove :
  removeToken chain network tokenToRemove w = (Ok tt, w') ->
  exists path content tokenList,
    Js.includes network (ethereumNetworks (config w)) = true
    /\ tokenListSource (config w) network = Some path
    /\ files w !! path = Some content
    /\ JSON_parse content = inr tokenList
    /\ (exists t, In t tokenList /\ namedBy tokenToRemove t = true)
    /\ files w'
       = <[path := JSON_stringify
                     (List.filter (fun t => negb (namedBy tokenToRemove t))
                        tokenList)]> (files w)
    /\ config w' = config w.
Proof.
  unfold removeDefaultToken, tokenListSource, ethereumNetworks, namespaceNetworks.
  unfold_effects.
  crunch; cbn; intros H; try discriminate H.
  all: try (match goal with H : exn_statusCode ?e = _ |- _ =>
              destruct e; simpl in H; discriminate end).
  all: match goal with
       | Hn : negb (truthy_opt (Some (VStr ?s))) = false,
         Hs : Js.nonempty ?s = false |- _ =>
           simpl in Hn; rewrite Hs in Hn; discriminate
       | _ => idtac
       end.
  all: injection H as <-; simpl.
  all: repeat match goal with Hb : negb ?b = false |- _ =>
         apply negb_false_iff in Hb end.
  all: match goal with Hl : (length (List.filter ?p ?l) =? length ?l)%nat = false |- _ =>
         assert (exists t, In t l /\ namedBy tokenToRemove t = true) as Hnamed;
         [apply Nat.eqb_neq in Hl;
          destruct (existsb (namedBy tokenToRemove) l) eqn:Hex;
          [apply existsb_exists in Hex; exact Hex|];
          exfalso; apply Hl, filter_length_same; intros x Hx;
          pose proof (existsb_false_all _ _ Hex x Hx) as Hno;
          unfold namedBy in Hno; apply orb_false_iff in Hno as [-> ->]; done|];
         assert (List.filter p l
                 = List.filter (fun t => negb (namedBy tokenToRemove t)) l) as ->;
         [apply List.filter_ext; intros a; unfold namedBy; by rewrite negb_orb|]
       end.
  all: eexists _, _, _; repeat split; try done.
Qed.

(** What a reply of [POST /tokens/add] guarantees: the message names the
    token, the chain and the network of the request, and the token-list file
    of the network, looked up under the [ethereum] namespace, holds the list
    of before followed by the entry of the request. *)
Theorem addTokenRoute_reply body reply w w' :
  addRoute body w = (Ok reply, w') ->
  reply = VObj [("message",
                 VStr ("Token " +:+ DefaultTokenRequest.symbol body
                         +:+ " added to " +:+ DefaultTokenRequest.chain body
                         +:+ "/" +:+ DefaultTokenRequest.network body))]
  /\ exists path tokenList ethereum,
       tokenListSource (config w) (DefaultTokenRequest.network body) = Some path
       /\ Ethereum_getInstance (DefaultTokenRequest.network body) = inr ethereum
       /\ match files w !! path with
          | Some content => JSON_parse content = inr tokenList
          | None => tokenList = []
          end
       /\ files w'
          = <[path := JSON_stringify
                        (tokenList ++
                           [{| Token.chainId := ethereum_chainId ethereum;
                               Token.address := DefaultTokenRequest.address body;
                               Token.name := DefaultTokenRequest.name body;
                               Token.symbol := DefaultTokenRequest.symbol body;
                               Token.decimals :=
                                 DefaultTokenRequest.decimals body |}])]>
              (files w)
       /\ config w' = config w.
Proof.
  unfold addTokenRoute, bind, ret. cbv zeta.
  destruct (addToken _ _ _ _ _ _ w) as [[[]|e|] w1] eqn:Hadd; try done.
  intros [= <- <-]. split; [done|].
  apply addDefaultToken_ok_inv in Hadd
    as (path & tokenList & ethereum & _ & Hsrc & Heth & Hold & _ & Hnew & Hc).
  by exists path, tokenList, ethereum.
Qed.

(** What a reply of [POST /tokens/remove] guarantees: the message names the
    identifier, the chain and the network of the request, the token list of
    the network had an entry that the identifier names, and its file holds
    the entries that the identifier does not name. *)
Theorem removeTokenRoute_reply body reply w w' :
  removeRoute body w = (Ok reply, w') ->
  reply = VObj [("message",
                 VStr ("Token " +:+ RemoveDefaultTokenRequest.token body
                         +:+ " removed from "
                         +:+ RemoveDefaultTokenRequest.chain body
                         +:+ "/" +:+ RemoveDefaultTokenRequest.network body))]
  /\ exists path content tokenList,
       tokenListSource (config w) (RemoveDefaultTokenRequest.network body)
       = Some path
       /\ files w !! path = Some content
       /\ JSON_parse content = inr tokenList
       /\ (exists t, In t tokenList
                     /\ namedBy (RemoveDefaultTokenRequest.token body) t = true)
       /\ files w'
          = <[path := JSON_stringify
                        (List.filter
                           (fun t => negb (namedBy
                                             (RemoveDefaultTokenRequest.token body)
                                             t))
                           tokenList)]> (files w)
       /\ config w' = config w.
Proof.
  unfold removeTokenRoute, bind, ret. cbv zeta.
  destruct (removeToken _ _ _ w) as [[[]|e|] w1] eqn:Hremove; try done.
  intros [= <- <-]. split; [done|].
  apply removeDefaultToken_ok_inv in Hremove
    as (path & content & tokenList & _ & Hsrc & Hfile & Hparse & Hnamed & Hnew & Hc).
  by exists path, content, tokenList.
Qed.

End TokenRouteFacts.

(** ** Configuration access and the token routes on the example world *)

Lemma updateConfig_rejects_before_writing_witness :
  updateConfig DemoJson.JSON_stringify "uniswap.allowedSlippage" (VStr "2")
    Demo.world
  = (Throw (badRequest invalidAllowedSlippage),
     {| config := config Demo.world; files := files Demo.world;
        logs := logs Demo.world ++
                [(LogInfo, "Updating config path: " +:+ "uniswap.allowedSlippage"
                             +:+ " with value: "
                             +:+ DemoJson.JSON_stringify (VStr "2"))] |}).
Proof.
  apply (updateConfig_rejects_before_writing DemoJson.JSON_stringify
           "uniswap.allowedSlippage" (VStr "2") Demo.world).
  - vm_compute; reflexivity.
  - vm_compute; reflexivity.
Defined.

Lemma updateConfig_error_classes_witness :
  (internalServerError ("Failed to update configuration: " +:+ "TypeMismatch")
   = badRequest invalidAllowedSlippage
   /\ Js.endsWith "jupiter.allowedSlippage.max" "allowedSlippage" = true
   /\ slippageAccepted (VStr "2") = false)
  \/ (exists msg,
        internalServerError ("Failed to update configuration: " +:+ "TypeMismatch")
        = internalServerError ("Failed to update configuration: " +:+ msg)).
Proof.
  apply (updateConfig_error_classes DemoJson.JSON_stringify
           "jupiter.allowedSlippage.max" (VStr "2") Demo.world).
  vm_compute; reflexivity.
Defined.


Lemma addTokenRoute_reply_witness :
  let body :=
    {| DefaultTokenRequest.chain := "solana";
       DefaultTokenRequest.network := "base";
       DefaultTokenRequest.name := "Tsunami";
       DefaultTokenRequest.symbol := "NAMI";
       DefaultTokenRequest.address := "0xABC";
       DefaultTokenRequest.decimals := Fin 18 |} in
  let reply :=
    VObj [("message", VStr "Token NAMI added to solana/base")] in
  let after :=
    snd (addTokenRoute Demo.JSON_parse Demo.JSON_stringify
           Demo.Ethereum_getInstance Demo.loadTokens body Demo.world) in
  reply = VObj [("message",
                 VStr ("Token " +:+ DefaultTokenRequest.symbol body
                         +:+ " added to " +:+ DefaultTokenRequest.chain body
                         +:+ "/" +:+ DefaultTokenRequest.network body))]
  /\ exists path tokenList ethereum,
       tokenListSource (config Demo.world) (DefaultTokenRequest.network body)
       = Some path
       /\ Demo.Ethereum_getInstance (DefaultTokenRequest.network body)
          = inr ethereum
       /\ match files Demo.world !! path with
          | Some content => Demo.JSON_parse content = inr tokenList
          | None => tokenList = []
          end
       /\ files after
          = <[path := Demo.JSON_stringify
                        (tokenList ++
                           [{| Token.chainId := ethereum_chainId ethereum;
                               Token.address := DefaultTokenRequest.address body;
                               Token.name := DefaultTokenRequest.name body;
                               Token.symbol := DefaultTokenRequest.symbol body;
                               Token.decimals :=
                                 DefaultTokenRequest.decimals body |}])]>
              (files Demo.world)
       /\ config after = config Demo.world.
Proof.
  intros body reply after.
  apply (addTokenRoute_reply Demo.JSON_parse Demo.JSON_stringify
           Demo.Ethereum_getInstance Demo.loadTokens body reply Demo.world after).
  vm_compute; reflexivity.
Defined.

Lemma removeTokenRoute_reply_witness :
  let body :=
    {| RemoveDefaultTokenRequest.chain := "ethereum";
       RemoveDefaultTokenRequest.network := "base";
       RemoveDefaultTokenRequest.token := "weth" |} in
  let reply :=
    VObj [("message", VStr "Token weth removed from ethereum/base")] in
  let after :=
    snd (removeTokenRoute Demo.JSON_parse Demo.JSON_stringify
           Demo.Ethereum_getInstance Demo.loadTokens body Demo.world) in
  reply = VObj [("message",
                 VStr ("Token " +:+ RemoveDefaultTokenRequest.token body
                         +:+ " removed from "
                         +:+ RemoveDefaultTokenRequest.chain body
                         +:+ "/" +:+ RemoveDefaultTokenRequest.network body))]
  /\ exists path content tokenList,
       tokenListSource (config Demo.world)
         (RemoveDefaultTokenRequest.network body) = Some path
       /\ files Demo.world !! path = Some content
       /\ Demo.JSON_parse content = inr tokenList
       /\ (exists t, In t tokenList
                     /\ namedBy (RemoveDefaultTokenRequest.token body) t = true)
       /\ files after
          = <[path := Demo.JSON_stringify
                        (List.filter
                           (fun t => negb (namedBy
                                             (RemoveDefaultTokenRequest.token body)
                                             t))
                           tokenList)]> (files Demo.world)
       /\ config after = config Demo.world.
Proof.
  intros body reply after.
  apply (removeTokenRoute_reply Demo.JSON_parse Demo.JSON_stringify
           Demo.Ethereum_getInstance Demo.loadTokens body reply Demo.world after).
  vm_compute; reflexivity.
Defined.

(** ** The quote route of the Uniswap CLMM connector *)

Ltac unfold_quote :=
  unfold QuoteSwap.quoteSwapRoute, QuoteSwap.formatSwapQuote,
    QuoteSwap.getUniswapClmmQuote, QuoteSwap.quoteClmmSwap;
  unfold QuoteSwap.bind, QuoteSwap.try_catch, QuoteSwap.await,
    QuoteSwap.logger, QuoteSwap.throw, QuoteSwap.ret.

Section QuoteSwapFacts.

Variable Uniswap : Type.
Variable Uniswap_getInstance : string -> exn + Uniswap.
Variable Ethereum_getInstance : string -> exn + Ethereum.
Variable findDefaultPool : Uniswap -> string -> string -> string -> exn + option string.
Variable getTokenBySymbol : Uniswap -> string -> option QuoteSwap.Token.
Variable ready : Ethereum -> bool.
Variable init : Ethereum -> option exn.
Variable getGasPrice : Ethereum -> exn + Z.
Variable clmmTrade :
  Uniswap -> string -> QuoteSwap.Token -> QuoteSwap.Token -> number -> string
  -> option number -> exn + option QuoteSwap.Quote.
Variable formatTokenAmount : string -> nat -> number.
Variable show_number : number -> string.
Variable num_div : number -> number -> number.
Variable stack : exn -> option string.
Variable show_error : exn -> string.

Local Abbreviation route :=
  (QuoteSwap.quoteSwapRoute Uniswap Uniswap_getInstance Ethereum_getInstance
     findDefaultPool getTokenBySymbol ready init getGasPrice clmmTrade
     formatTokenAmount show_number num_div stack show_error).
Local Abbreviation format :=
  (QuoteSwap.formatSwapQuote Uniswap Uniswap_getInstance Ethereum_getInstance
     getTokenBySymbol ready init getGasPrice clmmTrade
     formatTokenAmount show_number num_div stack).

(** A query that names no pool, for a pair that has no default pool, is
    answered with the not-found error: the error passes the handler's
    [catch] as it is, because it carries a status code. *)
Theorem quoteSwapRoute_no_pool query uniswap found l :
  Uniswap_getInstance (QuoteSwap.requestedNetwork query) = inr uniswap ->
  missing (QuoteSwap.poolAddress query) ->
  findDefaultPool uniswap (QuoteSwap.baseToken query)
    (QuoteSwap.quoteToken query) "clmm" = inr found ->
  missing found ->
  fst (route query l)
  = Throw (notFound ("No CLMM pool found for pair "
                       +:+ QuoteSwap.baseToken query +:+ "-"
                       +:+ QuoteSwap.quoteToken query)).
Proof.
  unfold QuoteSwap.requestedNetwork, missing.
  intros Huni Hreq Hfind Hfound. unfold_quote.
  rewrite Huni.
  destruct Hreq as [->| ->]; rewrite Hfind;
    destruct Hfound as [->| ->]; reflexivity.
Qed.


(** A base token that the connector does not know makes the route fail
    with the internal-server error that wraps the plain error of the lookup,
    whether or not the quote token is known: the base token is checked
    first. *)
Theorem quoteSwapRoute_unknown_base_token query pool uniswap ethereum l :
  QuoteSwap.poolAddress query = Some pool ->
  Js.nonempty pool = true ->
  Uniswap_getInstance (QuoteSwap.requestedNetwork query) = inr uniswap ->
  Ethereum_getInstance (QuoteSwap.requestedNetwork query) = inr ethereum ->
  ready ethereum = true \/ init ethereum = None ->
  getTokenBySymbol uniswap (QuoteSwap.baseToken query) = None ->
  fst (route query l)
  = Throw (internalServerError
             ("Error getting swap quote: " +:+ "Base token not found: "
                +:+ QuoteSwap.baseToken query)).
Proof.
  unfold QuoteSwap.requestedNetwork.
  intros Hpool Hnonempty Huni Heth Hready Hbase. unfold_quote.
  rewrite Hpool, Huni, Heth. destruct pool as [|c p]; [done|].
  cbv beta iota. rewrite Hbase.
  destruct (ready ethereum); cbn.
  - by destruct (stack _) as [[|]|].
  - destruct Hready as [Hready| ->]; [done|]. cbn.
    by destruct (stack _) as [[|]|].
Qed.

(** What a successful [getUniswapClmmQuote] has found. *)
Lemma getUniswapClmmQuote_ok_inv
    network poolAddress baseToken quoteToken amount side slippagePct
    quote uniswap ethereum baseTokenObj quoteTokenObj l l' :
  QuoteSwap.getUniswapClmmQuote Uniswap Uniswap_getInstance Ethereum_getInstance
    getTokenBySymbol ready init clmmTrade show_number
    network poolAddress baseToken quoteToken amount side slippagePct l
  = (Ok (quote, uniswap, ethereum, baseTokenObj, quoteTokenObj), l') ->
  Uniswap_getInstance network = inr uniswap
  /\ Ethereum_getInstance network = inr ethereum
  /\ getTokenBySymbol uniswap baseToken = Some baseTokenObj
  /\ getTokenBySymbol uniswap quoteToken = Some quoteTokenObj
  /\ clmmTrade uniswap poolAddress baseTokenObj quoteTokenObj amount side
       slippagePct = inr (Some quote).
Proof.
  unfold_quote.
  destruct (Uniswap_getInstance network) as [e|u]; [done|].
  destruct (Ethereum_getInstance network) as [e|eth]; [done|].
  cbv beta iota.
  destruct (negb (ready eth)); cbn.
  - destruct (init eth); [done|]. cbn.
    destruct (getTokenBySymbol u baseToken) as [b|] eqn:Hb; [|done].
    destruct (getTokenBySymbol u quoteToken) as [q|] eqn:Hq; [|done].
    cbn.
    destruct (clmmTrade u poolAddress b q amount side slippagePct)
      as [e|[t|]] eqn:Htrade; [done| |done].
    cbn. intros [= <- <- <- <- <- _]. done.
  - destruct (getTokenBySymbol u baseToken) as [b|] eqn:Hb; [|done].
    destruct (getTokenBySymbol u quoteToken) as [q|] eqn:Hq; [|done].
    cbn.
    destruct (clmmTrade u poolAddress b q amount side slippagePct)
      as [e|[t|]] eqn:Htrade; [done| |done].
    cbn. intros [= <- <- <- <- <- _]. done.
Qed.

(** What a reply of [formatSwapQuote] carries.  It echoes the pool address
    asked for and the amounts of the trade that the SDK computed for the two
    tokens, and its gas limit is 200000.  On "BUY" the base token changes by
    the amount out and the quote token by minus the amount in, and the price
    is the amount in over the amount out; on "SELL" the base token changes
    by minus the amount in and the quote token by the amount out, and the
    price is the amount out over the amount in. *)
Theorem formatSwapQuote_reply
    network poolAddress baseToken quoteToken amount side slippagePct
    response l l' :
  format network poolAddress baseToken quoteToken amount side slippagePct l
  = (Ok response, l') ->
  exists uniswap baseTokenObj quoteTokenObj quote,
    Uniswap_getInstance network = inr uniswap
    /\ getTokenBySymbol uniswap baseToken = Some baseTokenObj
    /\ getTokenBySymbol uniswap quoteToken = Some quoteTokenObj
    /\ clmmTrade uniswap poolAddress baseTokenObj quoteTokenObj amount side
         slippagePct = inr (Some quote)
    /\ QuoteSwap.response_poolAddress response = poolAddress
    /\ QuoteSwap.response_estimatedAmountIn response
       = QuoteSwap.estimatedAmountIn quote
    /\ QuoteSwap.response_estimatedAmountOut response
       = QuoteSwap.estimatedAmountOut quote
    /\ QuoteSwap.gasLimit response = Fin 200000
    /\ (side = "BUY" ->
        QuoteSwap.baseTokenBalanceChange response
        = QuoteSwap.estimatedAmountOut quote
        /\ QuoteSwap.quoteTokenBalanceChange response
           = QuoteSwap.num_opp (QuoteSwap.estimatedAmountIn quote)
        /\ QuoteSwap.price response
           = num_div (QuoteSwap.estimatedAmountIn quote)
               (QuoteSwap.estimatedAmountOut quote))
    /\ (side = "SELL" ->
        QuoteSwap.baseTokenBalanceChange response
        = QuoteSwap.num_opp (QuoteSwap.estimatedAmountIn quote)
        /\ QuoteSwap.quoteTokenBalanceChange response
           = QuoteSwap.estimatedAmountOut quote
        /\ QuoteSwap.price response
           = num_div (QuoteSwap.estimatedAmountOut quote)
               (QuoteSwap.estimatedAmountIn quote)).
Proof.
  unfold QuoteSwap.formatSwapQuote.
  unfold QuoteSwap.bind at 1. unfold QuoteSwap.logger at 1.
  unfold QuoteSwap.try_catch.
  unfold QuoteSwap.bind at 1.
  destruct (QuoteSwap.getUniswapClmmQuote _ _ _ _ _ _ _ _ _ _ _ _ _ _ _ _)
    as [[[[[[quote uniswap] ethereum] baseTokenObj] quoteTokenObj]|e|] l1]
    eqn:Hquote.
  2:{ unfold QuoteSwap.bind, QuoteSwap.logger, QuoteSwap.throw, QuoteSwap.ret.
      destruct (stack e) as [[|]|]; done. }
  2:{ done. }
  apply getUniswapClmmQuote_ok_inv in Hquote
    as (Huni & _ & Hbase & Hquote & Htrade).
  unfold QuoteSwap.bind, QuoteSwap.logger, QuoteSwap.throw, QuoteSwap.ret,
    QuoteSwap.await.
  destruct (getGasPrice ethereum) as [e|gasPrice]; cbn.
  { destruct (stack e) as [[|]|]; done. }
  intros [= <- <-]. cbn.
  exists uniswap, baseTokenObj, quoteTokenObj, quote.
  do 8 (split; [done|]).
  split; intros ->; cbn; done.
Qed.

End QuoteSwapFacts.

Lemma quoteSwapRoute_no_pool_witness :
  fst (DemoSwap.quoteSwapRoute (DemoSwap.query None (Some "") "WETH" "DAI" "SELL") [])
  = Throw (notFound ("No CLMM pool found for pair " +:+ "WETH" +:+ "-" +:+ "DAI")).
Proof.
  apply (quoteSwapRoute_no_pool unit DemoSwap.Uniswap_getInstance
           DemoSwap.Ethereum_getInstance DemoSwap.findDefaultPool
           DemoSwap.getTokenBySymbol DemoSwap.ready DemoSwap.init
           DemoSwap.getGasPrice DemoSwap.clmmTrade DemoSwap.formatTokenAmount
           DemoSwap.show_number DemoSwap.num_div DemoSwap.stack exn_message
           (DemoSwap.query None (Some "") "WETH" "DAI" "SELL") tt None []).
  - reflexivity.
  - right; reflexivity.
  - reflexivity.
  - left; reflexivity.
Defined.


Lemma quoteSwapRoute_unknown_base_token_witness :
  fst (DemoSwap.quoteSwapRoute
         (DemoSwap.query None (Some "0xPOOL") "DOGE" "SHIB" "BUY") [])
  = Throw (internalServerError
             ("Error getting swap quote: " +:+ "Base token not found: "
                +:+ "DOGE")).
Proof.
  apply (quoteSwapRoute_unknown_base_token unit DemoSwap.Uniswap_getInstance
           DemoSwap.Ethereum_getInstance DemoSwap.findDefaultPool
           DemoSwap.getTokenBySymbol DemoSwap.ready DemoSwap.init
           DemoSwap.getGasPrice DemoSwap.clmmTrade DemoSwap.formatTokenAmount
           DemoSwap.show_number DemoSwap.num_div DemoSwap.stack exn_message
           (DemoSwap.query None (Some "0xPOOL") "DOGE" "SHIB" "BUY")
           "0xPOOL" tt {| ethereum_chainId := Fin 8453; tokenListType := "FILE" |}
           []).
  - reflexivity.
  - reflexivity.
  - reflexivity.
  - reflexivity.
  - left; reflexivity.
  - reflexivity.
Defined.

Lemma formatSwapQuote_reply_witness :
  let response :=
    {| QuoteSwap.response_poolAddress := "0xPOOL";
       QuoteSwap.response_estimatedAmountIn := Fin 3000;
       QuoteSwap.response_estimatedAmountOut := Fin 1;
       QuoteSwap.response_minAmountOut := Fin 1;
       QuoteSwap.response_maxAmountIn := Fin 3000;
       QuoteSwap.baseTokenBalanceChange := Fin 1;
       QuoteSwap.quoteTokenBalanceChange := Fin (- (3000));
       QuoteSwap.price := Fin 3000;
       QuoteSwap.gasPrice := Fin 1;
       QuoteSwap.gasLimit := Fin 200000;
       QuoteSwap.gasCost := Fin (1 # 5000) |} in
  exists uniswap baseTokenObj quoteTokenObj quote,
    DemoSwap.Uniswap_getInstance "base" = inr uniswap
    /\ DemoSwap.getTokenBySymbol uniswap "WETH" = Some baseTokenObj
    /\ DemoSwap.getTokenBySymbol uniswap "USDC" = Some quoteTokenObj
    /\ DemoSwap.clmmTrade uniswap "0xPOOL" baseTokenObj quoteTokenObj (Fin 1)
         "BUY" None = inr (Some quote)
    /\ QuoteSwap.response_poolAddress response = "0xPOOL"
    /\ QuoteSwap.response_estimatedAmountIn response
       = QuoteSwap.estimatedAmountIn quote
    /\ QuoteSwap.response_estimatedAmountOut response
       = QuoteSwap.estimatedAmountOut quote
    /\ QuoteSwap.gasLimit response = Fin 200000
    /\ ("BUY" = "BUY" ->
        QuoteSwap.baseTokenBalanceChange response
        = QuoteSwap.estimatedAmountOut quote
        /\ QuoteSwap.quoteTokenBalanceChange response
           = QuoteSwap.num_opp (QuoteSwap.estimatedAmountIn quote)
        /\ QuoteSwap.price response
           = DemoSwap.num_div (QuoteSwap.estimatedAmountIn quote)
               (QuoteSwap.estimatedAmountOut quote))
    /\ ("BUY" = "SELL" ->
        QuoteSwap.baseTokenBalanceChange response
        = QuoteSwap.num_opp (QuoteSwap.estimatedAmountIn quote)
        /\ QuoteSwap.quoteTokenBalanceChange response
           = QuoteSwap.estimatedAmountOut quote
        /\ QuoteSwap.price response
           = DemoSwap.num_div (QuoteSwap.estimatedAmountOut quote)
               (QuoteSwap.estimatedAmountIn quote)).
Proof.
  intros response.
  apply (formatSwapQuote_reply unit DemoSwap.Uniswap_getInstance
           DemoSwap.Ethereum_getInstance
           DemoSwap.getTokenBySymbol DemoSwap.ready DemoSwap.init
           DemoSwap.getGasPrice DemoSwap.clmmTrade DemoSwap.formatTokenAmount
           DemoSwap.show_number DemoSwap.num_div DemoSwap.stack
           "base" "0xPOOL" "WETH" "USDC" (Fin 1) "BUY" None response []
           (snd (DemoSwap.formatSwapQuote "base" "0xPOOL" "WETH" "USDC" (Fin 1)
                   "BUY" None []))).
  vm_compute; reflexivity.
Defined.

(** ** The key pattern of the default-pool list *)

Section RegExpFacts.

Import RegExp.

Lemma append_nil_inv (s1 s2 : string) : s1 +:+ s2 = "" -> s1 = "" /\ s2 = "".
Proof. by destruct s1. Qed.

Lemma append_cons_inv (s1 s2 : string) c s :
  s1 +:+ s2 = String c s ->
  (s1 = "" /\ s2 = String c s) \/ (exists s1', s1 = String c s1' /\ s = s1' +:+ s2).
Proof.
  destruct s1 as [|c1 s1]; [by left|].
  change (String c1 s1 +:+ s2) with (String c1 (s1 +:+ s2)).
  intros [= -> <-]. right. by exists s1.
Qed.

Lemma nullable_denotes r : nullable r = true <-> denotes r "".
Proof.
  split.
  - induction r; simpl; intros H; try done.
    + constructor.
    + apply andb_true_iff in H as [H1 H2].
      change "" with ("" +:+ ""). constructor; auto.
    + apply orb_true_iff in H as [H|H];
        [apply denotes_alt_l | apply denotes_alt_r]; auto.
    + constructor.
  - intros H. remember "" as s eqn:Es.
    induction H; simpl; try done.
    + apply append_nil_inv in Es as [-> ->]. by rewrite IHdenotes1, IHdenotes2.
    + by rewrite IHdenotes.
    + rewrite IHdenotes; [apply orb_true_r|done].
Qed.

Lemma derivative_sound c r s :
  denotes (derivative c r) s -> denotes r (String c s).
Proof.
  revert s. induction r as [| |p|r1 IH1 r2 IH2|r1 IH1 r2 IH2|r IH];
    simpl; intros s H.
  - inversion H.
  - inversion H.
  - destruct (p c) eqn:Hp; inversion H; subst. by constructor.
  - assert (Hseq : forall t, denotes (Seq (derivative c r1) r2) t ->
                        denotes (Seq r1 r2) (String c t)).
    { intros t Ht. inversion Ht; subst.
      change (String c (s1 +:+ s2)) with (String c s1 +:+ s2).
      constructor; auto. }
    destruct (nullable r1) eqn:Hn; [|by apply Hseq].
    inversion H; subst; [by apply Hseq|].
    change (String c s) with ("" +:+ String c s).
    constructor; [by apply nullable_denotes|auto].
  - inversion H; subst; [apply denotes_alt_l | apply denotes_alt_r]; auto.
  - inversion H; subst.
    change (String c (s1 +:+ s2)) with (String c s1 +:+ s2).
    constructor; auto.
Qed.

Lemma derivative_complete c r s :
  denotes r (String c s) -> denotes (derivative c r) s.
Proof.
  intros H. remember (String c s) as t eqn:Et. revert c s Et.
  induction H as [|p c' Hp|r1 r2 s1 s2 H1 IH1 H2 IH2|r1 r2 t H IH|r1 r2 t H IH
                   | r | r s1 s2 H1 IH1 H2 IH2];
    intros c s Et; simpl.
  - done.
  - injection Et as -> <-. rewrite Hp. constructor.
  - apply append_cons_inv in Et as [[-> ->]|(s1' & -> & ->)].
    + apply nullable_denotes in H1 as ->. apply denotes_alt_r. by apply IH2.
    + assert (denotes (Seq (derivative c r1) r2) (s1' +:+ s2))
        by (constructor; auto).
      destruct (nullable r1); [by apply denotes_alt_l|done].
  - apply denotes_alt_l. by apply IH.
  - apply denotes_alt_r. by apply IH.
  - done.
  - apply append_cons_inv in Et as [[-> ->]|(s1' & -> & ->)].
    + by apply IH2.
    + constructor; auto.
Qed.

(** The matcher decides the denotation. *)
Lemma test_denotes r s : test r s = true <-> denotes r s.
Proof.
  revert r. induction s as [|c s IH]; intros r; simpl.
  - apply nullable_denotes.
  - rewrite IH. split; [apply derivative_sound | apply derivative_complete].
Qed.

Lemma denotes_class_inv p s :
  denotes (Class p) s -> exists c, s = String c "" /\ p c = true.
Proof. intros H. inversion H; subst. eauto. Qed.

Lemma denotes_star_class p s :
  denotes (Star (Class p)) s <-> Js.all_chars p s = true.
Proof.
  split.
  - intros H. remember (Star (Class p)) as r eqn:Er.
    induction H; try done. injection Er as ->.
    apply denotes_class_inv in H as (c & -> & Hc).
    change (String c "" +:+ s2) with (String c s2).
    simpl. rewrite Hc. by apply IHdenotes2.
  - induction s as [|c s IH]; simpl; [constructor|].
    intros H. apply andb_true_iff in H as [Hc Hs].
    change (String c s) with (String c "" +:+ s).
    constructor; [by constructor|auto].
Qed.

Lemma denotes_plus_class p s :
  denotes (Plus (Class p)) s
  <-> Js.nonempty s = true /\ Js.all_chars p s = true.
Proof.
  unfold Plus. split.
  - intros H. inversion H; subst.
    apply denotes_class_inv in H2 as (c & -> & Hc).
    apply denotes_star_class in H4.
    change (String c "" +:+ s2) with (String c s2).
    simpl. by rewrite Hc, H4.
  - destruct s as [|c s]; simpl; [by intros []|].
    intros [_ H]. apply andb_true_iff in H as [Hc Hs].
    change (String c s) with (String c "" +:+ s).
    constructor; [by constructor|by apply denotes_star_class].
Qed.

Lemma app_separator_inj sep (s1 t2 b q : string) :
  Js.all_chars (is_not sep) s1 = true ->
  Js.all_chars (is_not sep) t2 = true ->
  s1 +:+ String sep t2 = b +:+ String sep q ->
  s1 = b /\ t2 = q.
Proof.
  revert b. induction s1 as [|c s1 IH]; intros b H1 H2 E.
  - destruct b as [|c' b].
    + by injection E as ->.
    + change (String c' b +:+ String sep q) with (String c' (b +:+ String sep q)) in E.
      injection E as <- ->. rewrite all_chars_app in H2.
      simpl in H2. unfold is_not at 2 in H2. rewrite Ascii.eqb_refl in H2.
      by rewrite andb_false_r in H2.
  - change (String c s1 +:+ String sep t2)
      with (String c (s1 +:+ String sep t2)) in E.
    simpl in H1. apply andb_true_iff in H1 as [Hc H1].
    destruct b as [|c' b].
    + injection E as -> _. unfold is_not in Hc. by rewrite Ascii.eqb_refl in Hc.
    + change (String c' b +:+ String sep q) with (String c' (b +:+ String sep q)) in E.
      injection E as <- E. destruct (IH b H1 H2 E) as [-> ->]. done.
Qed.

Lemma upper_not_hyphen c : Js.is_upper c = true -> is_not "-" c = true.
Proof. destruct c as [[] [] [] [] [] [] [] []]; done. Qed.

End RegExpFacts.

(** The key that the pool functions write for a pair matches the key
    pattern of [DefaultPoolListSchema] exactly when the base token and the
    quote token are both non-empty words of the letters A to Z: a pair with
    a symbol in lower case, or with a digit or another hyphen in it, is
    filed under a key that the schema of the list does not describe. *)
Theorem pairKey_matches_schema_pattern baseToken quoteToken :
  RegExp.test DefaultPoolListSchema_pattern (pairKey baseToken quoteToken)
  = upperWord baseToken && upperWord quoteToken.
Proof.
  apply eq_true_iff_eq. rewrite test_denotes, andb_true_iff.
  unfold DefaultPoolListSchema_pattern, pairKey, upperWord.
  rewrite !andb_true_iff. split.
  - intros H. inversion H as [| |r1 r2 s1 s2 Hb Hrest Er1 E| | | |].
    inversion Hrest as [| |r1' r2' t1 t2 Hsep Hq Er1' E'| | | |].
    subst s2.
    apply denotes_class_inv in Hsep as (c & -> & Hc).
    apply Ascii.eqb_eq in Hc as <-.
    apply denotes_plus_class in Hb as [Hb1 Hb2].
    apply denotes_plus_class in Hq as [Hq1 Hq2].
    change (String "-" "" +:+ t2) with (String "-"%char t2) in E.
    change ("-" +:+ quoteToken) with (String "-"%char quoteToken) in E.
    apply app_separator_inj in E as [<- <-]; [done| |].
    + eapply all_chars_impl; [|exact Hb2]. apply upper_not_hyphen.
    + eapply all_chars_impl; [|exact Hq2]. apply upper_not_hyphen.
  - intros [Hb Hq].
    constructor; [by apply denotes_plus_class|].
    change ("-" +:+ quoteToken) with (String "-" "" +:+ quoteToken).
    constructor; [constructor; apply Ascii.eqb_refl|by apply denotes_plus_class].
Qed.

(** ** The slippage normalizer, once more *)

Section NormalizerFacts.

Context {helpers : StringHelpers}.

(** Normalizing twice is normalizing once, for any helpers whose
    [toFractionString] gives fraction strings: what the normalizer writes
    into the body (a fraction string, or [null] when the helper makes
    nothing of the value) is left alone by a second pass, and the path is
    never changed. *)
Theorem updateAllowedSlippageToFraction_idempotent body :
  (forall v s, toFractionString v = Some s -> isFractionString s = true) ->
  updateAllowedSlippageToFraction (updateAllowedSlippageToFraction body)
  = updateAllowedSlippageToFraction body
  /\ configPath (updateAllowedSlippageToFraction body) = configPath body.
Proof.
  intros Hfraction.
  destruct (Js.endsWith (configPath body) "allowedSlippage") eqn:Hpath.
  2:{ unfold updateAllowedSlippageToFraction. rewrite Hpath. by rewrite Hpath. }
  assert (Hsecond : forall v,
            updateAllowedSlippageToFraction
              {| configPath := configPath body;
                 configValue := match toFractionString v with
                                | Some s => VStr s
                                | None => VNull
                                end |}
            = {| configPath := configPath body;
                 configValue := match toFractionString v with
                                | Some s => VStr s
                                | None => VNull
                                end |}).
  { intros v. unfold updateAllowedSlippageToFraction. cbn [configPath configValue].
    rewrite Hpath. destruct (toFractionString v) as [s|] eqn:Hv; [|done].
    by rewrite (Hfraction v s Hv). }
  assert (Hfirst :
            updateAllowedSlippageToFraction body = body
            \/ exists v,
                 updateAllowedSlippageToFraction body
                 = {| configPath := configPath body;
                      configValue := match toFractionString v with
                                     | Some s => VStr s
                                     | None => VNull
                                     end |}).
  { unfold updateAllowedSlippageToFraction. rewrite Hpath.
    destruct (configValue body) as [| |n|s| |]; auto.
    - right. by exists (inr n).
    - destruct (isFractionString s); auto. right. by exists (inl s). }
  destruct Hfirst as [Hsame|[v Hv]].
  - by rewrite !Hsame.
  - rewrite Hv. split; [apply Hsecond|done].
Qed.

End NormalizerFacts.

Lemma toFractionString_gives_fractions v s :
  StringUtils.toFractionString v = Some s ->
  StringUtils.isFractionString s = true.
Proof.
  unfold StringUtils.toFractionString.
  destruct v as [t|[| |q]]; try done.
  - destruct (StringUtils.isFloatString t).
    + destruct (StringUtils.parseFloat t); try done.
      intros [= <-]. apply fraction_text_shape.
    + destruct (StringUtils.isFractionString t) eqn:Ht; [|done].
      by intros [= <-].
  - intros [= <-]. apply fraction_text_shape.
Qed.

Lemma updateAllowedSlippageToFraction_idempotent_witness :
  updateAllowedSlippageToFraction
    (updateAllowedSlippageToFraction
       {| configPath := "uniswap.allowedSlippage"; configValue := VStr "0.005" |})
  = updateAllowedSlippageToFraction
      {| configPath := "uniswap.allowedSlippage"; configValue := VStr "0.005" |}
  /\ configPath
       (updateAllowedSlippageToFraction
          {| configPath := "uniswap.allowedSlippage";
             configValue := VStr "0.005" |})
     = "uniswap.allowedSlippage".
Proof.
  apply (updateAllowedSlippageToFraction_idempotent
           {| configPath := "uniswap.allowedSlippage"; configValue := VStr "0.005" |}).
  exact toFractionString_gives_fractions.
Defined.
